(** * pathway.debug: synthetic change streams, static tables and printing

    A shallow embedding of [python/pathway/debug/__init__.py].

    - Python dicts that are iterated are insertion-ordered association
      lists; the process-wide registries ([StreamGenerator.events],
      [G.static_tables_cache]) are finite maps.
    - Code that mutates shared state, warns and raises runs in a small
      state/warning/exception monad [M]: a raised exception keeps the
      state reached so far, as in Python.
    - A dataframe carries the dtype of its index and of its columns:
      arithmetic on a column of integer dtype is done in the width of
      the dtype and wraps around, and the missing value of a nullable
      integer column has no truth value.
    - What the module imports from the engine ([api], [fingerprint],
      [squash_updates], [str] and the comparison of engine values) is
      taken as a parameter of the section that uses it. *)

From Stdlib Require Import ZArith Lia Ascii String.
From stdpp Require Import base option list gmap strings pretty sorting.

Local Open Scope Z_scope.

(** ** Values, events and exceptions *)

(** The exception classes the module raises or lets through. *)
Inductive exn : Type :=
| ValueError
| TypeError
| KeyError
| IndexError.

(** [api.Pointer]: an opaque 128-bit row identity. *)
Definition Pointer : Type := N.

(** [api.Value], restricted to the shapes the module distinguishes. *)
Inductive Value : Type :=
| VNone
| VInt (z : Z)
| VStr (s : string)
| VDict (text : string)
| VJson (text : string)
| VArray (elems : list Z)
| VPointer (p : Pointer).

Global Instance exn_eq_dec : EqDecision exn.
Proof. solve_decision. Defined.
Global Instance Value_eq_dec : EqDecision Value.
Proof. solve_decision. Defined.

(** [api.SnapshotEvent]. *)
Inductive SnapshotEvent : Type :=
| AdvanceTime (timestamp : Z)
| Insert (key : Pointer) (values : list Value)
| Delete (key : Pointer) (values : list Value).

Global Instance SnapshotEvent_eq_dec : EqDecision SnapshotEvent.
Proof. solve_decision. Defined.

(** ** Python dicts as insertion-ordered association lists *)

Definition dict (K V : Type) : Type := list (K * V).

Definition dict_keys {K V} (d : dict K V) : list K := d.*1.
Definition dict_values {K V} (d : dict K V) : list V := d.*2.

(** A Python dict never holds a key twice. *)
Definition dict_wf {K V} (d : dict K V) : Prop := NoDup (dict_keys d).

Fixpoint dict_get {K V} `{EqDecision K} (d : dict K V) (k : K) : option V :=
  match d with
  | [] => None
  | (k', v) :: d' => if decide (k' = k) then Some v else dict_get d' k
  end.

Definition dict_contains {K V} `{EqDecision K} (d : dict K V) (k : K) : bool :=
  bool_decide (k ∈ dict_keys d).

(** [d[k] = v]: replaces in place, or appends a new key at the end. *)
Fixpoint dict_set {K V} `{EqDecision K} (d : dict K V) (k : K) (v : V) : dict K V :=
  match d with
  | [] => [(k, v)]
  | (k', v') :: d' =>
      if decide (k' = k) then (k', v) :: d' else (k', v') :: dict_set d' k v
  end.

(** ** The state, warning and exception monad *)

Inductive Res (S A : Type) : Type :=
| Returned (a : A) (s : S) (w : list string)
| Raised (e : exn) (s : S) (w : list string).
Arguments Returned {S A} a s w.
Arguments Raised {S A} e s w.

Definition M (S A : Type) : Type := S → Res S A.

Definition ret {S A} (a : A) : M S A := λ s, Returned a s [].

Definition bind {S A B} (m : M S A) (k : A → M S B) : M S B := λ s,
  match m s with
  | Returned a s1 w1 =>
      match k a s1 with
      | Returned b s2 w2 => Returned b s2 (w1 ++ w2)
      | Raised e s2 w2 => Raised e s2 (w1 ++ w2)
      end
  | Raised e s1 w1 => Raised e s1 w1
  end.

Definition raise {S A} (e : exn) : M S A := λ s, Raised e s [].
Definition warn {S} (msg : string) : M S unit := λ s, Returned () s [msg].
Definition get {S} : M S S := λ s, Returned s s [].
Definition put {S} (s : S) : M S unit := λ _, Returned () s [].

Declare Scope py_scope.
Delimit Scope py_scope with py.
Notation "'let*' x ':=' m 'in' k" := (bind m (λ x, k))
  (at level 10, x name, m at level 100, k at level 200) : py_scope.
Notation "m ;;; k" := (bind m (λ _, k))
  (at level 100, right associativity) : py_scope.
Local Open Scope py_scope.

Definition when {S} (b : bool) (m : M S unit) : M S unit :=
  if b then m else ret ().

(** [for x in l: body(x)]. *)
Fixpoint for_each {S B} (l : list B) (body : B → M S unit) : M S unit :=
  match l with
  | [] => ret ()
  | x :: l' => body x ;;; for_each l' body
  end.

(** [[f(x) for x in l]] where [f] may raise. *)
Fixpoint map_m {S B C} (f : B → M S C) (l : list B) : M S (list C) :=
  match l with
  | [] => ret []
  | x :: l' => let* y := f x in let* ys := map_m f l' in ret (y :: ys)
  end.

Definition res_state {S A} (r : Res S A) : S :=
  match r with Returned _ s _ | Raised _ s _ => s end.
Definition res_warnings {S A} (r : Res S A) : list string :=
  match r with Returned _ _ w | Raised _ _ w => w end.
Definition res_value {S A} (r : Res S A) : exn + A :=
  match r with Returned a _ _ => inr a | Raised e _ _ => inl e end.
Definition raises {S A} (r : Res S A) : bool :=
  match r with Returned _ _ _ => false | Raised _ _ _ => true end.

(** [d[k]], which raises [KeyError] on a missing key. *)
Definition dict_getitem {S K V} `{EqDecision K} (d : dict K V) (k : K) : M S V :=
  match dict_get d k with
  | Some v => ret v
  | None => raise KeyError
  end.

(** [any(x for x in l if cond(x))] over integers: [any] tests the truth
    value of each yielded element, and the integer 0 is false. *)
Definition any_truthy (cond : Z → bool) (l : list Z) : bool :=
  existsb (λ x, negb (x =? 0)) (filter (λ x, cond x = true) l).

(** ** DataFrames *)

(** The widths of the integers of numpy and pandas. *)
Inductive Width : Type := W8 | W16 | W32 | W64.

Definition bits (width : Width) : Z :=
  match width with W8 => 8 | W16 => 16 | W32 => 32 | W64 => 64 end.

(** The dtype of a column, as far as this module tells dtypes apart: an
    integer dtype of numpy ([int8] to [uint64]) or its nullable
    counterpart of pandas ([Int8] to [UInt64]), or any other dtype.  An
    integer held under another dtype is a Python integer. *)
Inductive Dtype : Type :=
| IntDtype (width : Width) (signed : bool)
| OtherDtype.

Global Instance Width_eq_dec : EqDecision Width.
Proof. solve_decision. Defined.
Global Instance Dtype_eq_dec : EqDecision Dtype.
Proof. solve_decision. Defined.

Definition int8 : Dtype := IntDtype W8 true.
Definition int64 : Dtype := IntDtype W64 true.

(** What an integer of the dtype holds after an operation whose exact
    result is [z]: a fixed-width integer wraps around, a Python integer
    is exact. *)
Definition wrap (dtype : Dtype) (z : Z) : Z :=
  match dtype with
  | IntDtype width true =>
      (z + 2 ^ (bits width - 1)) `mod` 2 ^ bits width - 2 ^ (bits width - 1)
  | IntDtype width false => z `mod` 2 ^ bits width
  | OtherDtype => z
  end.

(** [z] is a value of the dtype. *)
Definition fits (dtype : Dtype) (z : Z) : Prop := wrap dtype z = z.

Global Instance fits_dec dtype z : Decision (fits dtype z).
Proof. unfold fits. apply _. Defined.

(** A pandas DataFrame: the index labels with their dtype, the columns
    in column order, and the dtype of each column.  Every column holds
    one cell per index label.  In a column of integer dtype a cell that
    is not an integer stands for the missing value [<NA>] of the
    nullable integer dtypes. *)
Record DataFrame : Type := mkDataFrame {
  df_index : list Value;
  df_index_dtype : Dtype;
  df_columns : dict string (list Value);
  df_dtypes : dict string Dtype
}.

Definition df_len (df : DataFrame) : nat := length (df_index df).

(** [df[column].dtype]; a column without an entry has no integer
    dtype. *)
Definition df_dtype (df : DataFrame) (column : string) : Dtype :=
  default OtherDtype (dict_get (df_dtypes df) column).

(** [df[column] = cells] with cells of the dtype the column has. *)
Definition df_setitem (df : DataFrame) (column : string) (cells : list Value)
    : DataFrame :=
  mkDataFrame (df_index df) (df_index_dtype df)
              (dict_set (df_columns df) column cells) (df_dtypes df).

(** [df[column] = series] for a series of the given dtype. *)
Definition df_assign (df : DataFrame) (column : string) (dtype : Dtype)
    (cells : list Value) : DataFrame :=
  mkDataFrame (df_index df) (df_index_dtype df)
              (dict_set (df_columns df) column cells)
              (dict_set (df_dtypes df) column dtype).

(** The dtype pandas gives a column assigned from a list of [n] Python
    integers: [int64], and no integer dtype when the list is empty. *)
Definition list_dtype (n : nat) : Dtype :=
  if decide (n = 0%nat) then OtherDtype else int64.

Definition value_int (v : Value) : option Z :=
  match v with VInt z => Some z | _ => None end.

(** [pd.api.types.is_integer_dtype]. *)
Definition is_integer_dtype (dtype : Dtype) : bool :=
  match dtype with IntDtype _ _ => true | OtherDtype => false end.

(** The integers of a column. *)
Definition column_ints (cells : list Value) : list Z := omap value_int cells.

(** An elementwise test of an integer column, [column < 0] and the
    like: a boolean per cell, missing where the cell is. *)
Definition series_test (test : Z → bool) (cells : list Value)
    : list (option bool) :=
  (λ v, test <$> value_int v) <$> cells.

(** [any(series)] over a boolean series: the truth value of each element
    in turn, up to the first true one; that of a missing element raises
    [TypeError]. *)
Fixpoint series_any (series : list (option bool)) : exn + bool :=
  match series with
  | [] => inr false
  | Some true :: _ => inr true
  | Some false :: series => series_any series
  | None :: _ => inl TypeError
  end.

Definition any_series {S} (series : list (option bool)) : M S bool :=
  match series_any series with
  | inr b => ret b
  | inl e => raise e
  end.

(** [2 * column] for a column of the given dtype; a missing cell stays
    missing. *)
Definition column_double (dtype : Dtype) (cells : list Value) : list Value :=
  (λ v, match v with VInt z => VInt (wrap dtype (2 * z)) | _ => v end) <$> cells.

(** [df.to_dict(orient="records")]: one dict per row. *)
Definition df_records (df : DataFrame) : list (dict string Value) :=
  (λ i, omap (λ '(name, cells), (name,.) <$> cells !! i) (df_columns df))
    <$> seq 0 (df_len df).

(** Lifting a computation on one mutable object to a pair of them. *)
Definition on_fst {S T A} (m : M S A) : M (S * T) A := λ '(s, t),
  match m s with
  | Returned a s' w => Returned a (s', t) w
  | Raised e s' w => Raised e (s', t) w
  end.
Definition on_snd {S T A} (m : M T A) : M (S * T) A := λ '(s, t),
  match m t with
  | Returned a t' w => Returned a (s, t') w
  | Raised e t' w => Raised e (s, t') w
  end.

(** ** StreamGenerator *)

Definition Schema : Type := list string.

(** A row of a batch: [(diff, key, values)]. *)
Definition Change : Type := Z * Pointer * list Value.
(** A batch: worker id to the rows it processes. *)
Definition Batch : Type := dict Z (list Change).
(** [batches]: timestamp to batch. *)
Definition Batches : Type := dict Z Batch.

(** The table handle returned by [pathway.io.python.read]: the empty
    connector subject replayed from the stream [persistent_id]. *)
Record StreamTable : Type := mkStreamTable {
  stream_persistent_id : string;
  stream_schema : Schema
}.

Module StreamGenerator.

(** The two class attributes: the counter [_persistent_id] and the
    registry [events]. *)
Record state : Type := mkState {
  _persistent_id : N;
  events : gmap (string * Z) (list SnapshotEvent)
}.

Definition msg_backfill : string :=
  "rows with timestamp 0 are only backfilled and are not processed by output connectors".
Definition msg_doubled : string :=
  "timestamps are required to be even; all timestamps will be doubled".

Definition set_events (f : gmap (string * Z) (list SnapshotEvent) →
                           gmap (string * Z) (list SnapshotEvent)) : M state unit :=
  λ s, Returned () (mkState (_persistent_id s) (f (events s))) [].

Definition _get_next_persistent_id : M state string := λ s,
  Returned ("_stream_generator_" +:+ pretty (_persistent_id s))
           (mkState (_persistent_id s + 1)%N (events s)) [].

(** [self.events[k] += l] (and [.append(x)] with [l = [x]]). *)
Definition events_extend (k : string * Z) (l : list SnapshotEvent) : M state unit :=
  let* s := get in
  match events s !! k with
  | Some old => set_events (<[k := old ++ l]>)
  | None => raise KeyError
  end.

Definition _advance_time_for_all_workers
    (persistent_id : string) (workers : list Z) (timestamp : Z) : M state unit :=
  for_each workers (λ worker,
    events_extend (persistent_id, worker) [AdvanceTime timestamp]).

(** The body of the innermost loop of [_table_from_dict]. *)
Definition append_change (persistent_id : string) (worker : Z) (c : Change)
    : M state unit :=
  let '(diff, key, values) := c in
  if diff =? 1 then
    events_extend (persistent_id, worker)
      (replicate (Z.to_nat diff) (Insert key values))
  else if diff =? -1 then
    events_extend (persistent_id, worker)
      (replicate (Z.to_nat (- diff)) (Delete key values))
  else raise ValueError.

(** [_table_from_dict] on timestamps that are integers of the given
    dtype, which decides what [2 * timestamp] is: a numpy integer wraps
    around where a Python integer is exact.  (numpy reports the
    overflow of a scalar with a warning of its own, which is not among
    the warnings of this module that the model collects.) *)
Definition _table_from_dict_of (dtype : Dtype) (batches : Batches)
    (schema : Schema) : M state StreamTable :=
  let* persistent_id := _get_next_persistent_id in
  let workers : gset Z :=
    list_to_set (flat_map dict_keys (dict_values batches)) in
  for_each (elements workers) (λ worker,
    set_events (<[(persistent_id, worker) := []]>)) ;;;
  let timestamps : gset Z := list_to_set (dict_keys batches) in
  (if any_truthy (λ timestamp, timestamp <? 0) (elements timestamps) then
     raise ValueError
   else
     when (any_truthy (λ timestamp, timestamp =? 0) (elements timestamps))
          (warn msg_backfill)) ;;;
  let* batches :=
    (if any_truthy (λ timestamp, timestamp `mod` 2 =? 1) (elements timestamps) then
       warn msg_doubled ;;;
       map_m (λ timestamp,
                let* batch := dict_getitem batches timestamp in
                ret (wrap dtype (2 * timestamp), batch))
             (dict_keys batches)
     else ret batches) in
  for_each (merge_sort Z.le (dict_keys batches)) (λ timestamp,
    _advance_time_for_all_workers persistent_id (elements workers) timestamp ;;;
    let* batch := dict_getitem batches timestamp in
    for_each batch (λ '(worker, changes),
      for_each changes (append_change persistent_id worker))) ;;;
  ret (mkStreamTable persistent_id schema).

(** [_table_from_dict] as its callers in this module and its tests use
    it: on batches keyed by Python integers. *)
Definition _table_from_dict (batches : Batches) (schema : Schema)
    : M state StreamTable :=
  _table_from_dict_of OtherDtype batches schema.

(** *** [StreamGenerator.table_from_pandas] *)

Section table_from_pandas.
  (** From the engine: schema inference, [api.ids_from_pandas] (the key
      of each index label) and [api.denumpify]. *)
Variable schema_from_pandas : DataFrame → option (list string) → list string → Schema.
Variable ids_from_pandas : DataFrame → bool → option (list string) → Value → Pointer.
Variable denumpify : Value → Value.

  (** [if column not in df: df[column] = [v] * len(df)], on the caller's
      dataframe. *)
Definition add_missing_column (column : string) (v : Value) : M DataFrame unit :=
  let* df := get in
  if dict_contains (df_columns df) column then ret ()
  else put (df_assign df column (list_dtype (df_len df))
                      (replicate (df_len df) v)).

  (** [df.iloc[row_index][column]]. *)
Definition row_cell {S} (df : DataFrame) (row_index : nat) (column : string)
    : M S Value :=
  let* cells := dict_getitem (df_columns df) column in
  match cells !! row_index with
  | Some v => ret v
  | None => raise IndexError
  end.

  (** A cell of one of the columns [_time], [_worker] and [_diff], which
      the source reads and passes on as it is: an integer of the dtype of
      its column.  The batches of this model hold integers, as the
      annotation of [_table_from_dict] has them; on a cell that holds
      none the model stops here with [TypeError], where the source goes
      on with the cell as it is. *)
Definition int_cell {S} (df : DataFrame) (row_index : nat) (column : string)
    : M S Z :=
  let* v := row_cell df row_index column in
  match value_int v with
  | Some z => ret z
  | None => raise TypeError
  end.

  (** The body of the loop over [range(len(df))]. *)
Definition add_row {S} (df : DataFrame) (ids : Value → Pointer)
    (value_fields : list string) (batches : Batches) (row_index : nat)
    : M S Batches :=
  let* time := int_cell df row_index "_time" in
  let key := ids (default VNone (df_index df !! row_index)) in
  let* worker := int_cell df row_index "_worker" in
  let batches :=
    if dict_contains batches time then batches else dict_set batches time [] in
  let batch := default [] (dict_get batches time) in
  let batch :=
    if dict_contains batch worker then batch else dict_set batch worker [] in
  let* values :=
    map_m (λ column,
             let* v := row_cell df row_index column in ret (denumpify v))
          value_fields in
  let* diff := int_cell df row_index "_diff" in
  let changes := default [] (dict_get batch worker) in
  ret (dict_set batches time
         (dict_set batch worker (changes ++ [(diff, key, values)]))).

Fixpoint add_rows {S} (df : DataFrame) (ids : Value → Pointer)
    (value_fields : list string) (batches : Batches) (rows : list nat)
    : M S Batches :=
  match rows with
  | [] => ret batches
  | row_index :: rows' =>
      let* batches := add_row df ids value_fields batches row_index in
      add_rows df ids value_fields batches rows'
  end.

  (** The state is the caller's dataframe object together with the
      generator's class attributes.  The timestamps handed to
      [_table_from_dict] are the cells of the column [_time], not
      denumpified: numpy integers.  [df.iloc[row_index]] may widen them
      to a dtype common to the columns of the row; the model takes the
      dtype of the column, the narrowest they can have. *)
Definition table_from_pandas (id_from : option (list string))
      (unsafe_trusted_ids : bool) (schema : option Schema)
      : M (DataFrame * state) StreamTable :=
    let* st := get in
    let schema :=
      match schema with
      | None => schema_from_pandas st.1 None ["_time"; "_diff"; "_worker"]
      | Some schema => schema
      end in
    let value_fields := schema in
    on_fst (add_missing_column "_time" (VInt 2)) ;;;
    on_fst (add_missing_column "_worker" (VInt 0)) ;;;
    on_fst (add_missing_column "_diff" (VInt 1)) ;;;
    let* st := get in
    let df := st.1 in
    let ids := ids_from_pandas df unsafe_trusted_ids id_from in
    let* batches := add_rows df ids value_fields [] (seq 0 (df_len df)) in
    on_snd (_table_from_dict_of (df_dtype df "_time") batches schema).
End table_from_pandas.

End StreamGenerator.


(** ** Static tables *)

(** A table of the graph, as far as this module can tell tables apart:
    what it was built from and the universe its row identities live in. *)
Record Table : Type := mkTable {
  table_schema : Schema;
  table_data : DataFrame;
  table_trusted : bool;
  table_universe : N
}.

(** [parse_graph.G]: the static table cache and the universes minted so
    far. *)
Record Graph : Type := mkGraph {
  static_tables_cache : gmap Z Table;
  universes : N
}.

(** Modelled from the spec: [table_from_datasource] is not part of this
    module; a newly built static table mints a new row-identity universe. *)
Definition table_from_datasource (schema : Schema) (data : DataFrame)
    (unsafe_trusted_ids : bool) : M Graph Table := λ g,
  Returned (mkTable schema data unsafe_trusted_ids (universes g))
           (mkGraph (static_tables_cache g) (universes g + 1)%N) [].

(** Modelled from the spec: [Table.with_universe_of] is not part of this
    module; the handle keeps its own columns and shares the row-identity
    universe of the other table. *)
Definition with_universe_of (t other : Table) : Table :=
  mkTable (table_schema t) (table_data t) (table_trusted t) (table_universe other).

(** The two shapes of argument [fingerprint] is called with. *)
Inductive FingerprintArg : Type :=
| FRecord (record : dict string Value)
| FKey (unsafe_trusted_ids : bool) (hashes : list Z).

(** Modelled from the spec: the constants [api.TIME_PSEUDOCOLUMN],
    [api.DIFF_PSEUDOCOLUMN] and [api.PANDAS_PSEUDOCOLUMNS] are not part
    of this module; the docstring of [table_from_pandas] names the
    columns. *)
Definition TIME_PSEUDOCOLUMN : string := "__time__".
Definition DIFF_PSEUDOCOLUMN : string := "__diff__".
Definition PANDAS_PSEUDOCOLUMNS : list string :=
  [TIME_PSEUDOCOLUMN; DIFF_PSEUDOCOLUMN].

(** The state is the dataframe object passed in. *)
Definition _validate_dataframe : M DataFrame unit :=
  for_each PANDAS_PSEUDOCOLUMNS (λ pseudocolumn,
    let* df := get in
    when (dict_contains (df_columns df) pseudocolumn)
         (when (negb (is_integer_dtype (df_dtype df pseudocolumn)))
               (raise ValueError))) ;;;
  (let* df := get in
   match dict_get (df_columns df) TIME_PSEUDOCOLUMN with
   | Some cells =>
       (let* negative := any_series (series_test (λ t, t <? 0) cells) in
        when negative (raise ValueError)) ;;;
       let* odd := any_series (series_test (λ t, t `mod` 2 =? 1) cells) in
       when odd
            (warn StreamGenerator.msg_doubled ;;;
             put (df_setitem df TIME_PSEUDOCOLUMN
                    (column_double (df_dtype df TIME_PSEUDOCOLUMN) cells)))
   | None => ret ()
   end) ;;;
  let* df := get in
  match dict_get (df_columns df) DIFF_PSEUDOCOLUMN with
  | Some cells =>
      let* bad :=
        any_series (series_test (λ d, negb (d =? 1) && negb (d =? -1)) cells) in
      when bad (raise ValueError)
  | None => ret ()
  end.

(** [df[columns].copy()]. *)
Definition df_select {S} (df : DataFrame) (columns : list string)
    : M S DataFrame :=
  let* selected :=
    map_m (λ column,
             let* cells := dict_getitem (df_columns df) column in
             ret (column, cells))
          columns in
  ret (mkDataFrame (df_index df) (df_index_dtype df) selected
                   ((λ column, (column, df_dtype df column)) <$> columns)).

Section static.
  (** From the engine: [fingerprint], schema inference and
      [pd.read_parquet]. *)
Variable fingerprint : FingerprintArg → Z.
Variable schema_from_pandas : DataFrame → option (list string) → list string → Schema.
Variable read_parquet : string → DataFrame.

  (** The identity-defining part of a dataframe: the index labels, or the
      [id_from] columns, with the pseudo-columns that are present. *)
Definition ids_df (df : DataFrame) (id_from : option (list string))
    : M (DataFrame * Graph) DataFrame :=
  let* ids :=
    match id_from with
    | None => ret (mkDataFrame (df_index df) (df_index_dtype df)
                               [("id", df_index df)]
                               [("id", df_index_dtype df)])
    | Some columns => df_select df columns
    end in
  ret (foldl (λ ids column,
                match dict_get (df_columns df) column with
                | Some cells => df_assign ids column (df_dtype df column) cells
                | None => ids
                end)
             ids PANDAS_PSEUDOCOLUMNS).

Definition cache_key (ids : DataFrame) (unsafe_trusted_ids : bool) : Z :=
  let as_hashes := (λ x, fingerprint (FRecord x)) <$> df_records ids in
  fingerprint (FKey unsafe_trusted_ids (merge_sort Z.le as_hashes)).

  (** The state is the caller's dataframe object together with the
      graph [G]. *)
Definition table_from_pandas (id_from : option (list string))
    (unsafe_trusted_ids : bool) (schema : option Schema)
    : M (DataFrame * Graph) Table :=
  when (bool_decide (is_Some id_from ∧ is_Some schema)) (raise ValueError) ;;;
  let* st := get in
  let df := st.1 in
  let ordinary_columns_names :=
    filter (λ column, column ∉ PANDAS_PSEUDOCOLUMNS) (dict_keys (df_columns df)) in
  let* schema :=
    match schema with
    | None => ret (schema_from_pandas df id_from PANDAS_PSEUDOCOLUMNS)
    | Some schema =>
        if bool_decide (ordinary_columns_names ≠ schema) then raise ValueError
        else ret schema
    end in
  on_fst _validate_dataframe ;;;
  let* st := get in
  let df := st.1 in
  let* ids := ids_df df id_from in
  let key := cache_key ids unsafe_trusted_ids in
  let* table := on_snd (table_from_datasource schema df unsafe_trusted_ids) in
  let* st := get in
  let G := st.2 in
  match static_tables_cache G !! key with
  | Some cached => ret (with_universe_of table cached)
  | None =>
      put (st.1, mkGraph (<[key := table]> (static_tables_cache G)) (universes G)) ;;;
      ret table
  end.

  (** Runs a computation on a dataframe object created locally. *)
Definition with_local {T A} (df : DataFrame) (m : M (DataFrame * T) A) : M T A :=
  λ t,
  match m (df, t) with
  | Returned a st w => Returned a st.2 w
  | Raised e st w => Raised e st.2 w
  end.

Definition table_from_parquet (path : string) (id_from : option (list string))
      (unsafe_trusted_ids : bool) : M Graph Table :=
    let df := read_parquet path in
    with_local df (table_from_pandas None false None).
End static.

(** ** Printing *)

(** A row of [api.CapturedStream]. *)
Record CapturedRow : Type := mkCapturedRow {
  row_key : Pointer;
  row_values : list Value;
  row_time : Z;
  row_diff : Z
}.

(** One component of a sort key: a bare value (the time and the diff of
    an update row) or a [_NoneAwareComparisonWrapper]. *)
Inductive KeyItem : Type :=
| Plain (v : Value)
| Wrapper (inner : Value).

(** [s.ljust(width)]. *)
Definition string_ljust (s : string) (width : nat) : string :=
  s +:+ String.string_of_list_ascii (replicate (width - String.length s) " "%char).

(** [str.isspace] of a character.  A string of this model holds the
    code points below 256; those that Python counts as white space are
    the controls 9 to 13 and 28 to 31, the space, and the code points
    133 and 160. *)
Definition is_whitespace (c : ascii) : bool :=
  let n := Ascii.N_of_ascii c in
  ((9 <=? n) && (n <=? 13) || (28 <=? n) && (n <=? 32)
   || (n =? 133) || (n =? 160))%N.

Fixpoint drop_spaces (l : list ascii) : list ascii :=
  match l with
  | [] => []
  | c :: l' => if is_whitespace c then drop_spaces l' else l
  end.

(** [s.rstrip()]. *)
Definition string_rstrip (s : string) : string :=
  String.string_of_list_ascii
    (reverse (drop_spaces (reverse (String.list_ascii_of_string s)))).

(** [sep.join(l)]. *)
Fixpoint string_join (sep : string) (l : list string) : string :=
  match l with
  | [] => ""
  | [s] => s
  | s :: l' => s +:+ sep +:+ string_join sep l'
  end.

(** [max(l)] of a non-empty sequence; of an empty one it raises
    [ValueError]. *)
Definition max_of (l : list nat) : exn + nat :=
  match l with
  | [] => inl ValueError
  | n :: l' => inr (foldl Nat.max n l')
  end.

(** [[f(x) for x in l]] where [f] may raise, outside the state monad. *)
Fixpoint map_e {B C} (f : B → exn + C) (l : list B) : exn + list C :=
  match l with
  | [] => inr []
  | x :: l' =>
      match f x with
      | inl e => inl e
      | inr y => match map_e f l' with
                 | inl e => inl e
                 | inr ys => inr (y :: ys)
                 end
      end
  end.

Section printing.
  (** From Python and the engine: [str] of a value, [==] and [<] between
      two values taken as a truth value (either may raise), and
      [api.squash_updates]. *)
Variable py_str : Value → string.
Variable py_eq py_lt : Value → Value → exn + bool.
Variable squash_updates : list CapturedRow → dict Pointer (list Value).

  (** [_NoneAwareComparisonWrapper.__init__]. *)
Definition _NoneAwareComparisonWrapper (inner : Value) : KeyItem :=
  match inner with
  | VDict _ | VJson _ => Wrapper (VStr (py_str inner))
  | _ => Wrapper inner
  end.

  (** [==] between two key components.  [__eq__] answers
      [NotImplemented] to anything that is not a wrapper, and Python then
      falls back on identity. *)
Definition item_eq (self other : KeyItem) : exn + bool :=
  match self, other with
  | Wrapper a, Wrapper b => py_eq a b
  | Plain a, Plain b => py_eq a b
  | _, _ => inr false
  end.

  (** [<] between two key components: [__lt__] for wrappers. *)
Definition item_lt (self other : KeyItem) : exn + bool :=
  match self, other with
  | Wrapper a, Wrapper b =>
      match a with
      | VNone => inr (negb (bool_decide (b = VNone)))
      | _ => match b with
             | VNone => inr false
             | _ => py_lt a b
             end
      end
  | Plain a, Plain b => py_lt a b
  | _, _ => inl TypeError
  end.

  (** [<] between two tuples: the first components that are not equal
      decide, else the shorter tuple is the smaller. *)
Fixpoint tuple_lt (a b : list KeyItem) : exn + bool :=
  match a, b with
  | [], [] => inr false
  | [], _ :: _ => inr true
  | _ :: _, [] => inr false
  | x :: a', y :: b' =>
      match item_eq x y with
      | inl e => inl e
      | inr true => tuple_lt a' b'
      | inr false => item_lt x y
      end
  end.

Definition OutputRow : Type := Pointer * list Value.

  (** The two [_key] functions. *)
Definition _key (squash : bool) (row : OutputRow) : list KeyItem :=
  if squash then _NoneAwareComparisonWrapper <$> row.2
  else (Plain <$> drop (length row.2 - 2) row.2)
         ++ (_NoneAwareComparisonWrapper <$> row.2).

  (** [sorted(l, key=key)], as a stable insertion sort: an element goes
      before the first one it is smaller than. *)
Fixpoint sorted_insert (key : OutputRow → list KeyItem) (x : OutputRow)
    (l : list OutputRow) : exn + list OutputRow :=
  match l with
  | [] => inr [x]
  | y :: l' =>
      match tuple_lt (key x) (key y) with
      | inl e => inl e
      | inr true => inr (x :: y :: l')
      | inr false =>
          match sorted_insert key x l' with
          | inl e => inl e
          | inr r => inr (y :: r)
          end
      end
  end.

Definition sorted (key : OutputRow → list KeyItem) (l : list OutputRow)
    : exn + list OutputRow :=
  foldl (λ acc x,
           match acc with
           | inl e => inl e
           | inr done => sorted_insert key x done
           end)
        (inr []) l.

  (** The [try: ... except ValueError: pass] around the sort. *)
Definition try_sorted (key : OutputRow → list KeyItem) (output_data : list OutputRow)
    : exn + list OutputRow :=
  match sorted key output_data with
  | inr l => inr l
  | inl ValueError => inr output_data
  | inl e => inl e
  end.

  (** The string chosen for [None]. *)
Definition none_string (include_id : bool) (columns : list string) : string :=
  if include_id || bool_decide (1 < length columns)%nat then "" else "None".

Definition _format (none : string) (short_pointers : bool) (x : Value) : string :=
  match x with
  | VNone => none
  | VPointer _ =>
      if short_pointers then
        let s := py_str x in
        if bool_decide (8 < String.length s)%nat
        then String.substring 0 8 s +:+ "..." else s
      else py_str x
  | _ => py_str x
  end.

  (** The columns shown and the rows to sort. *)
Definition shown_columns (table_columns : list string) (squash : bool)
    : list string :=
  if squash then table_columns
  else table_columns ++ [TIME_PSEUDOCOLUMN; DIFF_PSEUDOCOLUMN].

Definition output_rows (captured : list CapturedRow) (squash : bool)
    : list OutputRow :=
  if squash then squash_updates captured
  else (λ row, (row_key row,
                row_values row ++ [VInt (row_time row); VInt (row_diff row)]))
         <$> captured.

  (** [data]: the header and one formatted row per output row. *)
Definition format_data (columns : list string) (include_id short_pointers : bool)
    (rows : list OutputRow) : list (list string) :=
  let none := none_string include_id columns in
  let header :=
    if include_id
    then (if bool_decide (columns = []) then "id" else "") :: columns
    else columns in
  header ::
    ((λ '(key, values),
        (if include_id then [_format none short_pointers (VPointer key)] else [])
          ++ (_format none short_pointers <$> values)) <$> rows).

  (** [max_lens], with its last entry set to 0. *)
Definition max_lens (data : list (list string)) : exn + list nat :=
  match
    map_e (λ i,
             match map_e (λ row : list string,
                            match row !! i with
                            | Some cell => inr (String.length cell)
                            | None => inl IndexError
                            end) data with
             | inl e => inl e
             | inr lens => max_of lens
             end)
          (seq 0 (length (default [] (head data))))
  with
  | inl e => inl e
  | inr [] => inl IndexError
  | inr lens => inr (<[pred (length lens) := 0%nat]> lens)
  end.

  (** The rest of the function once the rows are in their final order:
    truncation, formatting and padding.  The result is the lines
    printed.  [n_rows] is [None] or a natural number. *)
Definition print_rows (columns : list string) (include_id short_pointers : bool)
    (n_rows : option nat) (output_data : list OutputRow) : exn + list string :=
  let output_data_truncated :=
    match n_rows with
    | None => output_data
    | Some n => take n output_data
    end in
  let data :=
    format_data columns include_id short_pointers output_data_truncated in
  match max_lens data with
  | inl e => inl e
  | inr lens =>
      inr ((λ row : list string,
              string_rstrip
                (string_join " | "
                   ((λ '(value, max_len), string_ljust value max_len)
                      <$> zip row lens))) <$> data)
  end.

(** The lines printed, or the exception that escapes. *)
Definition _compute_and_print_internal (captured : list CapturedRow)
    (table_columns : list string)
    (squash_updates_flag include_id short_pointers : bool)
    (n_rows : option nat) : exn + list string :=
  let columns := shown_columns table_columns squash_updates_flag in
  let output_data := output_rows captured squash_updates_flag in
  if bool_decide (columns = []) && negb include_id then inr []
  else
    match try_sorted (_key squash_updates_flag) output_data with
    | inl e => inl e
    | inr output_data =>
        print_rows columns include_id short_pointers n_rows output_data
    end.

Definition compute_and_print captured table_columns include_id short_pointers n_rows :=
  _compute_and_print_internal captured table_columns true
    include_id short_pointers n_rows.

Definition compute_and_print_update_stream captured table_columns
      include_id short_pointers n_rows :=
    _compute_and_print_internal captured table_columns false
      include_id short_pointers n_rows.
End printing.

(** ** An instance of the parameters, for the examples *)

(** Modelled from the spec: [api.squash_updates] is not part of this
    module; it applies the diffs of each key in arrival order and keeps
    the keys that are present in the end. *)
Definition squash_updates_model (captured : list CapturedRow)
    : dict Pointer (list Value) :=
  foldl (λ acc row,
           if row_diff row =? 1 then dict_set acc (row_key row) (row_values row)
           else filter (λ kv, kv.1 ≠ row_key row) acc)
        [] captured.

(** Python's [str] on small values.  [VArray] stands for a numpy array
    of more than one element. *)
Definition python_str (v : Value) : string :=
  match v with
  | VNone => "None"
  | VInt z => pretty z
  | VStr s => s
  | VDict text | VJson text => text
  | VArray elems => "[" +:+ string_join " " (pretty <$> elems) +:+ "]"
  | VPointer p => "^" +:+ pretty p
  end.

(** Python's [==] as a truth value: comparing numpy arrays gives an
    array, whose truth value is ambiguous ([ValueError]). *)
Definition python_eq (a b : Value) : exn + bool :=
  match a, b with
  | VArray _, _ | _, VArray _ => inl ValueError
  | _, _ => inr (bool_decide (a = b))
  end.

(** Python's [<] as a truth value: values of different types have no
    ordering ([TypeError]). *)
Definition python_lt (a b : Value) : exn + bool :=
  match a, b with
  | VArray _, _ | _, VArray _ => inl ValueError
  | VInt x, VInt y => inr (x <? y)
  | VStr x, VStr y => inr (String.ltb x y)
  | VPointer x, VPointer y => inr (x <? y)%N
  | _, _ => inl TypeError
  end.


(** ** Further methods of [StreamGenerator] *)

Module StreamGeneratorMethods.
Import StreamGenerator.

(** *** [table_from_list_of_batches_by_workers] and [table_from_list_of_batches] *)

Section list_of_batches.
(** From the engine: [api.ref_scalar], the key made of a counter value. *)
Variable ref_scalar : N → Pointer.

(** [[values[field.name] for field in value_fields]]. *)
Definition row_values (value_fields : list string) (values : dict string Value)
    : exn + list Value :=
  map_e (λ field,
           match dict_get values field with
           | Some v => inr v
           | None => inl KeyError
           end)
        value_fields.

(** [add_diffs_and_keys]; [key] is the state of the counter
    [itertools.count()], which [next_key] advances before the values of
    the row are read. *)
Fixpoint add_diffs_and_keys (value_fields : list string) (key : N)
    (list_of_values : list (dict string Value)) : exn + (list Change * N) :=
  match list_of_values with
  | [] => inr ([], key)
  | values :: rest =>
      let api_key := ref_scalar key in
      match row_values value_fields values with
      | inl e => inl e
      | inr vs =>
          match add_diffs_and_keys value_fields (key + 1) rest with
          | inl e => inl e
          | inr (changes, key') => inr ((1, api_key, vs) :: changes, key')
          end
      end
  end.

(** [{worker: add_diffs_and_keys(batch[worker]) for worker in batch}],
    the workers taken in the order of the batch. *)
Fixpoint format_batch (value_fields : list string)
    (batch : dict Z (list (dict string Value))) (workers : list Z)
    (changes : Batch) (key : N) : exn + (Batch * N) :=
  match workers with
  | [] => inr (changes, key)
  | worker :: workers' =>
      match dict_get batch worker with
      | None => inl KeyError
      | Some rows =>
          match add_diffs_and_keys value_fields key rows with
          | inl e => inl e
          | inr (cs, key') =>
              format_batch value_fields batch workers'
                (dict_set changes worker cs) key'
          end
      end
  end.

(** The loop over [batches]; [timestamp] is the state of
    [itertools.count(2, 2)]. *)
Fixpoint format_batches (value_fields : list string)
    (batches : list (dict Z (list (dict string Value))))
    (formatted_batches : Batches) (timestamp : Z) (key : N)
    : exn + Batches :=
  match batches with
  | [] => inr formatted_batches
  | batch :: batches' =>
      match format_batch value_fields batch (dict_keys batch) [] key with
      | inl e => inl e
      | inr (changes, key') =>
          format_batches value_fields batches'
            (dict_set formatted_batches timestamp changes) (timestamp + 2) key'
      end
  end.

Definition table_from_list_of_batches_by_workers
    (batches : list (dict Z (list (dict string Value)))) (schema : Schema)
    : M state StreamTable :=
  let value_fields := schema in
  match format_batches value_fields batches [] 2 0 with
  | inl e => raise e
  | inr formatted_batches => _table_from_dict formatted_batches schema
  end.

Definition table_from_list_of_batches
    (batches : list (list (dict string Value))) (schema : Schema)
    : M state StreamTable :=
  let batches_by_worker := (λ batch, [(0, batch)]) <$> batches in
  table_from_list_of_batches_by_workers batches_by_worker schema.
End list_of_batches.

(** *** [persistence_config] *)

(** [persistence.Config.simple_config] of the mock backend over the
    registry, with replay access and the speedrun replay mode. *)
Inductive SnapshotAccess : Type := REPLAY.
Inductive PersistenceMode : Type := SPEEDRUN_REPLAY.
Record Config : Type := mkConfig {
  backend_events : gmap (string * Z) (list SnapshotEvent);
  snapshot_access : SnapshotAccess;
  persistence_mode : PersistenceMode
}.

Definition persistence_config (s : state) : option Config :=
  if bool_decide (size (events s) = 0%nat) then None
  else Some (mkConfig (events s) REPLAY SPEEDRUN_REPLAY).

End StreamGeneratorMethods.

(** ** [table_to_dicts] *)

(** [{k: v for k, v in items}]: later items replace earlier ones of the
    same key. *)
Definition dict_of_items {K V} `{EqDecision K} (items : list (K * V)) : dict K V :=
  foldl (λ d kv, dict_set d kv.1 kv.2) [] items.

Section table_to_dicts.
Variable squash_updates : list CapturedRow → dict Pointer (list Value).

(** [{key: output_data[key][index] for key in keys}]. *)
Definition column_of (output_data : dict Pointer (list Value)) (keys : list Pointer)
    (index : nat) : exn + dict Pointer Value :=
  match
    map_e (λ key,
             match dict_get output_data key with
             | None => inl KeyError
             | Some values =>
                 match values !! index with
                 | None => inl IndexError
                 | Some v => inr (key, v)
                 end
             end)
          keys
  with
  | inl e => inl e
  | inr items => inr (dict_of_items items)
  end.

Definition table_to_dicts (captured : list CapturedRow) (table_columns : list string)
    : exn + (list Pointer * dict string (dict Pointer Value)) :=
  let output_data := squash_updates captured in
  let keys := dict_keys output_data in
  match
    map_e (λ '(index, name),
             match column_of output_data keys index with
             | inl e => inl e
             | inr column => inr (name, column)
             end)
          (imap (λ index name, (index, name)) table_columns)
  with
  | inl e => inl e
  | inr columns => inr (keys, dict_of_items columns)
  end.
End table_to_dicts.

(** ** The build algorithm in the words of the design *)

Module BuildSpec.

(** EventEncoder: a [+1] row is an insertion, a [-1] row a deletion. *)
Definition change_events (c : Change) : list SnapshotEvent :=
  let '(diff, key, values) := c in
  if diff =? 1 then [Insert key values]
  else if diff =? -1 then [Delete key values]
  else [].

Definition valid_change (c : Change) : bool :=
  let '(diff, _, _) := c in (diff =? 1) || (diff =? -1).

Definition valid_batch (batch : Batch) : bool :=
  forallb (λ wc : Z * list Change, forallb valid_change wc.2) batch.

Definition all_valid (batches : Batches) : bool :=
  forallb (λ tb : Z * Batch, valid_batch tb.2) batches.

Definition has_negative (batches : Batches) : bool :=
  existsb (λ t, t <? 0) (dict_keys batches).

Definition has_odd (batches : Batches) : bool :=
  existsb (λ t, t `mod` 2 =? 1) (dict_keys batches).

(** Every timestamp of the batch set doubled. *)
Definition doubled (batches : Batches) : Batches :=
  (λ tb : Z * Batch, (2 * tb.1, tb.2)) <$> batches.

(** The batch set the events are built from. *)
Definition normalized (batches : Batches) : Batches :=
  if has_odd batches then doubled batches else batches.

(** When the timestamps are doubled, every double is a value of the
    dtype the timestamps are held in. *)
Definition doubles_fit (dtype : Dtype) (batches : Batches) : Prop :=
  has_odd batches = true → ∀ t, t ∈ dict_keys batches → fits dtype (2 * t).

(** The workers present anywhere in the batch set. *)
Definition workers_of (batches : Batches) : gset Z :=
  list_to_set (flat_map dict_keys (dict_values batches)).

(** The rows a worker has in a batch, none if it is absent from it. *)
Definition worker_changes (batch : Batch) (worker : Z) : list Change :=
  default [] (dict_get batch worker).

(** What a worker receives for one timestamp: the barrier, then its rows
    in the order given. *)
Definition block (batches : Batches) (worker : Z) (timestamp : Z)
    : list SnapshotEvent :=
  AdvanceTime timestamp ::
    flat_map change_events
      (worker_changes (default [] (dict_get batches timestamp)) worker).

(** The event sequence of a worker: one block per timestamp, ascending. *)
Definition worker_events (batches : Batches) (worker : Z) : list SnapshotEvent :=
  flat_map (block batches worker) (merge_sort Z.le (dict_keys batches)).

(** What a loop has done by the time it stops: the effect of each
    element in turn, up to and including the first one that fails. *)
Fixpoint loop_until {B C} (ok : B → bool) (F : B → list C) (l : list B)
    : list C :=
  match l with
  | [] => []
  | x :: l => F x ++ (if ok x then loop_until ok F l else [])
  end.

(** The events of the rows before the first one whose diff is bad. *)
Definition changes_until (changes : list Change) : list SnapshotEvent :=
  loop_until valid_change change_events changes.

(** What a worker has got of a batch when the loop over the batch stops:
    the workers are visited in the order of the batch, each with its
    rows in order, up to the first bad diff. *)
Definition batch_until (batch : Batch) (worker : Z) : list SnapshotEvent :=
  loop_until (λ wc : Z * list Change, forallb valid_change wc.2)
             (λ wc, if decide (worker = wc.1) then changes_until wc.2 else [])
             batch.

Definition block_until (batches : Batches) (worker : Z) (timestamp : Z)
    : list SnapshotEvent :=
  AdvanceTime timestamp ::
    batch_until (default [] (dict_get batches timestamp)) worker.

(** What the registry holds for a worker when the build loop stops, at
    its end or at the first bad diff: timestamps ascending, the barrier
    of a timestamp for every worker before any of its rows. *)
Definition registered (batches : Batches) (worker : Z) : list SnapshotEvent :=
  loop_until (λ timestamp, valid_batch (default [] (dict_get batches timestamp)))
             (block_until batches worker)
             (merge_sort Z.le (dict_keys batches)).

(** The timestamps of the barriers of a sequence, in order. *)
Definition barrier_times (l : list SnapshotEvent) : list Z :=
  omap (λ e, match e with AdvanceTime t => Some t | _ => None end) l.

(** Well-formed batch sets: Python dicts at both levels. *)
Definition batches_wf (batches : Batches) : Prop :=
  dict_wf batches ∧ Forall (λ tb : Z * Batch, dict_wf tb.2) batches.

Global Instance dict_wf_dec {K V} `{EqDecision K} (d : dict K V) :
  Decision (dict_wf d).
Proof. unfold dict_wf. apply _. Defined.

Global Instance batches_wf_dec (batches : Batches) : Decision (batches_wf batches).
Proof. unfold batches_wf. apply _. Defined.

(** The identifier the next stream gets. *)
Definition next_id (s : StreamGenerator.state) : string :=
  "_stream_generator_" +:+ pretty (StreamGenerator._persistent_id s).

(** The registry after the lists of a new stream were created empty. *)
Definition init_events (pid : string) (workers : list Z)
    (ev : gmap (string * Z) (list SnapshotEvent))
    : gmap (string * Z) (list SnapshotEvent) :=
  foldl (λ m w, <[(pid, w) := []]> m) ev workers.

(** Every list of the stream [pid] for a worker of [ws] exists. *)
Definition present (pid : string) (ws : gset Z) (s : StreamGenerator.state) : Prop :=
  ∀ w, w ∈ ws → is_Some (StreamGenerator.events s !! (pid, w)).

(** [s'] is [s] with [g w] appended to the list of every worker [w] of
    [ws] in the stream [pid], and nothing else changed. *)
Definition extends (pid : string) (ws : gset Z) (g : Z → list SnapshotEvent)
    (s s' : StreamGenerator.state) : Prop :=
  StreamGenerator._persistent_id s' = StreamGenerator._persistent_id s ∧
  ∀ p w, StreamGenerator.events s' !! (p, w) =
         if decide (p = pid ∧ w ∈ ws)
         then (λ old, old ++ g w) <$> StreamGenerator.events s !! (p, w)
         else StreamGenerator.events s !! (p, w).

(** The contract of a piece of the build loop: it warns of nothing and
    appends exactly [F w] for every worker, whether it then returns,
    when [valid], or raises [ValueError]. *)
Definition comp_ok (pid : string) (ws : gset Z) (valid : bool)
    (F : Z → list SnapshotEvent) (m : M StreamGenerator.state unit) : Prop :=
  ∀ s, present pid ws s →
    ∃ g, extends pid ws g s (res_state (m s)) ∧
         res_warnings (m s) = [] ∧
         (∀ w, w ∈ ws → g w = F w) ∧
         res_value (m s) = if valid then inr () else inl ValueError.

End BuildSpec.

(** ** The static path in the words of the design *)

Module StaticSpec.

(** A pseudo-column, when present, has an integer dtype. *)
Definition column_ok (df : DataFrame) (column : string) : bool :=
  match dict_get (df_columns df) column with
  | Some cells => is_integer_dtype (df_dtype df column)
  | None => true
  end.

(** No cell of the column is missing: every cell holds an integer. *)
Definition no_missing (cells : list Value) : bool :=
  forallb (λ v, bool_decide (is_Some (value_int v))) cells.

Definition has_negative_time (cells : list Value) : bool :=
  existsb (λ t, t <? 0) (column_ints cells).

Definition has_odd_time (cells : list Value) : bool :=
  existsb (λ t, t `mod` 2 =? 1) (column_ints cells).

(** The three tests of the validation as [any] evaluates them. *)
Definition negative_test (cells : list Value) : exn + bool :=
  series_any (series_test (λ t, t <? 0) cells).

Definition odd_test (cells : list Value) : exn + bool :=
  series_any (series_test (λ t, t `mod` 2 =? 1) cells).

Definition diff_test (cells : list Value) : exn + bool :=
  series_any (series_test (λ d, negb (d =? 1) && negb (d =? -1)) cells).

(** A diff cell other than [1] and [-1]. *)
Definition bad_diff (v : Value) : Prop := v ≠ VInt 1 ∧ v ≠ VInt (-1).

(** A test that came out true raises [ValueError]; one that could not be
    evaluated raises its own exception. *)
Definition guard {S} (test : exn + bool) (s : S) (r : Res S unit) : Res S unit :=
  match test with
  | inl e => Raised e s []
  | inr true => Raised ValueError s []
  | inr false => r
  end.

(** The check of the diff column, on its own. *)
Definition diff_check (df : DataFrame) : Res DataFrame unit :=
  match dict_get (df_columns df) DIFF_PSEUDOCOLUMN with
  | Some cells => guard (diff_test cells) df (Returned () df [])
  | None => Returned () df []
  end.

Definition with_warning {S A} (msg : string) (r : Res S A) : Res S A :=
  match r with
  | Returned a s w => Returned a s (msg :: w)
  | Raised e s w => Raised e s (msg :: w)
  end.

(** The time column of [df] doubled in its dtype. *)
Definition double_times (df : DataFrame) (cells : list Value) : DataFrame :=
  df_setitem df TIME_PSEUDOCOLUMN
             (column_double (df_dtype df TIME_PSEUDOCOLUMN) cells).

(** What [_validate_dataframe] comes to, case by case. *)
Definition validate_outcome (df : DataFrame) : Res DataFrame unit :=
  if negb (column_ok df TIME_PSEUDOCOLUMN && column_ok df DIFF_PSEUDOCOLUMN)
  then Raised ValueError df []
  else
    match dict_get (df_columns df) TIME_PSEUDOCOLUMN with
    | Some cells =>
        guard (negative_test cells) df
          match odd_test cells with
          | inl e => Raised e df []
          | inr true =>
              with_warning StreamGenerator.msg_doubled
                (diff_check (double_times df cells))
          | inr false => diff_check df
          end
    | None => diff_check df
    end.

(** When the validation doubles the column [__time__], the double of
    every time is a value of the dtype of the column. *)
Definition doubling_fits (df : DataFrame) : Prop :=
  match dict_get (df_columns df) TIME_PSEUDOCOLUMN with
  | Some cells =>
      has_odd_time cells = true →
      Forall (λ z, fits (df_dtype df TIME_PSEUDOCOLUMN) (2 * z))
             (column_ints cells)
  | None => True
  end.

Global Instance doubling_fits_dec (df : DataFrame) : Decision (doubling_fits df).
Proof. unfold doubling_fits. destruct (dict_get _ _); apply _. Defined.

(** [df] with [column] added, filled with [v], when it is missing. *)
Definition add_default (df : DataFrame) (column : string) (v : Value) : DataFrame :=
  if dict_contains (df_columns df) column then df
  else df_assign df column (list_dtype (df_len df)) (replicate (df_len df) v).

(** [df] with the three columns of the stream path. *)
Definition with_stream_columns (df : DataFrame) : DataFrame :=
  add_default (add_default (add_default df "_time" (VInt 2)) "_worker" (VInt 0))
              "_diff" (VInt 1).

Definition stream_defaults : list (string * Value) :=
  [("_time", VInt 2); ("_worker", VInt 0); ("_diff", VInt 1)].

(** A computation that leaves the state as it found it. *)
Definition stateless {S A} (m : M S A) : Prop := ∀ s, res_state (m s) = s.

(** Every column has one cell per index label. *)
Definition df_wf (df : DataFrame) : Prop :=
  Forall (λ nc : string * list Value, length nc.2 = df_len df) (df_columns df).

Global Instance df_wf_dec (df : DataFrame) : Decision (df_wf df).
Proof. unfold df_wf. apply _. Defined.

(** The cells of a column at the given row positions. *)
Definition take_cells (rows : list nat) (cells : list Value) : list Value :=
  (λ i, default VNone (cells !! i)) <$> rows.

(** The dataframe with its rows rearranged: row [j] of the result is row
    [rows !! j] of [df]. *)
Definition df_take (df : DataFrame) (rows : list nat) : DataFrame :=
  mkDataFrame (take_cells rows (df_index df)) (df_index_dtype df)
              ((λ nc : string * list Value, (nc.1, take_cells rows nc.2))
                 <$> df_columns df)
              (df_dtypes df).

(** [df[columns]] without the monad: [None] stands for [KeyError]. *)
Definition select_columns (df : DataFrame) (columns : list string)
    : option DataFrame :=
  (λ selected,
     mkDataFrame (df_index df) (df_index_dtype df) selected
                 ((λ column, (column, df_dtype df column)) <$> columns))
    <$> mapM (λ column, (column,.) <$> dict_get (df_columns df) column) columns.

(** The identity-defining frame, without the monad. *)
Definition identity_frame (df : DataFrame) (id_from : option (list string))
    : option DataFrame :=
  (λ ids,
     foldl (λ ids column,
              match dict_get (df_columns df) column with
              | Some cells => df_assign ids column (df_dtype df column) cells
              | None => ids
              end)
           ids PANDAS_PSEUDOCOLUMNS)
  <$> match id_from with
      | None => Some (mkDataFrame (df_index df) (df_index_dtype df)
                                  [("id", df_index df)]
                                  [("id", df_index_dtype df)])
      | Some columns => select_columns df columns
      end.

(** The schema a build uses, [None] when the one given does not match
    the columns. *)
Definition schema_check (schema_from_pandas :
                           DataFrame → option (list string) → list string → Schema)
    (df : DataFrame) (id_from : option (list string)) (schema : option Schema)
    : option Schema :=
  match schema with
  | None => Some (schema_from_pandas df id_from PANDAS_PSEUDOCOLUMNS)
  | Some schema =>
      if bool_decide
           (filter (λ column, column ∉ PANDAS_PSEUDOCOLUMNS)
                   (dict_keys (df_columns df)) ≠ schema)
      then None else Some schema
  end.

(** What the static [table_from_pandas] comes to, case by case. *)
Definition static_outcome (fingerprint : FingerprintArg → Z)
    (schema_from_pandas : DataFrame → option (list string) → list string → Schema)
    (id_from : option (list string)) (unsafe_trusted_ids : bool)
    (schema : option Schema) (df : DataFrame) (g : Graph)
    : Res (DataFrame * Graph) Table :=
  if bool_decide (is_Some id_from ∧ is_Some schema)
  then Raised ValueError (df, g) []
  else
    match schema_check schema_from_pandas df id_from schema with
    | None => Raised ValueError (df, g) []
    | Some schema =>
        match validate_outcome df with
        | Raised e df' w => Raised e (df', g) w
        | Returned _ df' w =>
            match identity_frame df' id_from with
            | None => Raised KeyError (df', g) w
            | Some ids =>
                let key := cache_key fingerprint ids unsafe_trusted_ids in
                let table :=
                  mkTable schema df' unsafe_trusted_ids (universes g) in
                match static_tables_cache g !! key with
                | Some cached =>
                    Returned (with_universe_of table cached)
                      (df', mkGraph (static_tables_cache g) (universes g + 1)%N) w
                | None =>
                    Returned table
                      (df', mkGraph (<[key := table]> (static_tables_cache g))
                                    (universes g + 1)%N) w
                end
            end
        end
    end.

(** The same outcome with the state seen through [f]. *)
Definition res_map_state {S T A} (f : S → T) (r : Res S A) : Res T A :=
  match r with
  | Returned a s w => Returned a (f s) w
  | Raised e s w => Raised e (f s) w
  end.

(** The record of row [i]. *)
Definition record_at (df : DataFrame) (i : nat) : dict string Value :=
  omap (λ '(name, cells), (name,.) <$> cells !! i) (df_columns df).

(** The table a run returned. *)
Definition returned {S A} (r : Res S A) : option A :=
  match r with Returned a _ _ => Some a | Raised _ _ _ => None end.

(** The universes of the cached tables were all minted already. *)
Definition graph_wf (g : Graph) : Prop :=
  ∀ key t, static_tables_cache g !! key = Some t →
           (table_universe t < universes g)%N.

End StaticSpec.

(** ** Further notions used in the properties *)

Module MoreSpec.

(** Every list of the registry belongs to a stream whose identifier was
    handed out already. *)
Definition registry_wf (s : StreamGenerator.state) : Prop :=
  ∀ p w l, StreamGenerator.events s !! (p, w) = Some l →
    ∃ n, (n < StreamGenerator._persistent_id s)%N ∧
         p = "_stream_generator_" +:+ pretty n.


(** *** Batches given as lists of named rows *)

Section keyed.
Variable ref_scalar : N → Pointer.

(** The row has every field. *)
Definition complete_row (fields : list string) (row : dict string Value) : bool :=
  forallb (λ f, bool_decide (is_Some (dict_get row f))) fields.

Definition complete_batch (fields : list string)
    (batch : dict Z (list (dict string Value))) : bool :=
  forallb (λ wr : Z * list (dict string Value), forallb (complete_row fields) wr.2)
          batch.

(** The values of a row in the order of the fields. *)
Definition named_values (fields : list string) (row : dict string Value)
    : list Value :=
  (λ f, default VNone (dict_get row f)) <$> fields.

(** Insertions with keys counted from [key]. *)
Fixpoint keyed_changes (fields : list string) (key : N)
    (rows : list (dict string Value)) : list Change :=
  match rows with
  | [] => []
  | row :: rest =>
      (1, ref_scalar key, named_values fields row)
        :: keyed_changes fields (key + 1) rest
  end.

Fixpoint keyed_batch (fields : list string) (key : N)
    (batch : dict Z (list (dict string Value))) : Batch :=
  match batch with
  | [] => []
  | (w, rows) :: rest =>
      (w, keyed_changes fields key rows)
        :: keyed_batch fields (key + N.of_nat (length rows)) rest
  end.

(** The number of rows of a batch. *)
Definition batch_rows (batch : dict Z (list (dict string Value))) : nat :=
  sum_list (length <$> dict_values batch).

(** Timestamps counted from [timestamp] in steps of 2. *)
Fixpoint keyed_batches (fields : list string) (timestamp : Z) (key : N)
    (batches : list (dict Z (list (dict string Value)))) : Batches :=
  match batches with
  | [] => []
  | batch :: rest =>
      (timestamp, keyed_batch fields key batch)
        :: keyed_batches fields (timestamp + 2)
             (key + N.of_nat (batch_rows batch)) rest
  end.

(** What the single worker of [table_from_list_of_batches] receives. *)
Fixpoint single_worker_events (fields : list string) (timestamp : Z) (key : N)
    (batches : list (list (dict string Value))) : list SnapshotEvent :=
  match batches with
  | [] => []
  | rows :: rest =>
      AdvanceTime timestamp
        :: ((λ c : Change, Insert c.1.2 c.2) <$> keyed_changes fields key rows)
        ++ single_worker_events fields (timestamp + 2)
             (key + N.of_nat (length rows)) rest
  end.
End keyed.

(** The events of a worker when the mapping is read in its own order. *)
Definition events_in_order (batches : Batches) (worker : Z) : list SnapshotEvent :=
  flat_map (λ tb : Z * Batch,
              AdvanceTime tb.1
                :: flat_map BuildSpec.change_events
                     (BuildSpec.worker_changes tb.2 worker))
           batches.

(** *** The rows of a dataframe as changes *)

Section frame_rows.
Variable denumpify : Value → Value.
Variable ids : Value → Pointer.

(** The cell of a column at a row position. *)
Definition cell (df : DataFrame) (column : string) (i : nat) : option Value :=
  dict_get (df_columns df) column ≫= (.!! i).

Definition int_at (df : DataFrame) (column : string) (i : nat) : option Z :=
  cell df column i ≫= value_int.

(** The timestamp, the worker and the change of row [i], when every cell
    it needs can be read. *)
Definition row_change (df : DataFrame) (fields : list string) (i : nat)
    : option (Z * Z * Change) :=
  time ← int_at df "_time" i;
  worker ← int_at df "_worker" i;
  values ← mapM (λ column, denumpify <$> cell df column i) fields;
  diff ← int_at df "_diff" i;
  Some (time, worker, (diff, ids (default VNone (df_index df !! i)), values)).
End frame_rows.

Section frame.
Variable schema_from_pandas : DataFrame → option (list string) → list string → Schema.
Variable ids_from_pandas : DataFrame → bool → option (list string) → Value → Pointer.
Variable denumpify : Value → Value.

(** The fields the rows are read for. *)
Definition fields_of (schema : option Schema) (df : DataFrame) : Schema :=
  match schema with
  | None => schema_from_pandas df None ["_time"; "_diff"; "_worker"]
  | Some schema => schema
  end.

(** The rows of the dataframe as [StreamGenerator.table_from_pandas]
    reads them: from the dataframe with the stream columns added. *)
Definition frame_rows (id_from : option (list string)) (unsafe_trusted_ids : bool)
    (schema : option Schema) (df : DataFrame) : option (list (Z * Z * Change)) :=
  let df1 := StaticSpec.with_stream_columns df in
  mapM (row_change denumpify (ids_from_pandas df1 unsafe_trusted_ids id_from)
          df1 (fields_of schema df))
       (seq 0 (df_len df)).
End frame.

(** What the loop over the rows does to [batches] for one row. *)
Definition group_row (batches : Batches) (r : Z * Z * Change) : Batches :=
  let '(time, worker, change) := r in
  let batches :=
    if dict_contains batches time then batches else dict_set batches time [] in
  let batch := default [] (dict_get batches time) in
  let batch :=
    if dict_contains batch worker then batch else dict_set batch worker [] in
  let changes := default [] (dict_get batch worker) in
  dict_set batches time (dict_set batch worker (changes ++ [change])).

(** The changes of the rows with the given timestamp and worker, in the
    order of the rows. *)
Definition rows_at (rows : list (Z * Z * Change)) (time worker : Z) : list Change :=
  omap (λ r : Z * Z * Change,
          if decide (r.1.1 = time ∧ r.1.2 = worker) then Some r.2 else None)
       rows.

(** The distinct timestamps of the rows, ascending. *)
Definition row_times (rows : list (Z * Z * Change)) : list Z :=
  merge_sort Z.le (remove_dups ((λ r : Z * Z * Change, r.1.1) <$> rows)).

(** A computation that returns the value of [o], or raises when there is
    none, and leaves the state alone and warns of nothing either way. *)
Definition opt_run {S A} (o : option A) (r : Res S A) (s : S) : Prop :=
  match o with
  | Some a => r = Returned a s []
  | None => ∃ e, r = Raised e s []
  end.

(** *** The order of the sort *)

Section sort_order.
Variable py_eq py_lt : Value → Value → exn + bool.
Variable key : OutputRow → list KeyItem.

(** [a] is not after [b]: the key of [b] is not smaller than that of
    [a]. *)
Definition key_le (a b : OutputRow) : Prop :=
  tuple_lt py_eq py_lt (key b) (key a) = inr false.

(** The comparison of keys is an order on the rows of [l]: it never
    raises, never says of two rows that each is smaller than the other,
    and [key_le] is transitive. *)
Definition key_ordered (l : list OutputRow) : Prop :=
  (∀ a b, a ∈ l → b ∈ l → ∃ r, tuple_lt py_eq py_lt (key a) (key b) = inr r) ∧
  (∀ a b, a ∈ l → b ∈ l →
     tuple_lt py_eq py_lt (key a) (key b) = inr true → key_le a b) ∧
  (∀ a b c, a ∈ l → b ∈ l → c ∈ l → key_le a b → key_le b c → key_le a c).
End sort_order.

End MoreSpec.

(** ** Inputs of the examples *)

Definition k1 : Pointer := 1%N.
Definition k2 : Pointer := 2%N.

Definition ex_state : StreamGenerator.state := StreamGenerator.mkState 0 ∅.

(** Two batches given out of order; worker 1 has rows only at time 2. *)
Definition ex_batches : Batches :=
  [(4, [(0, [(-1, k1, [VInt 10]); (1, k1, [VInt 20])])]);
   (2, [(0, [(1, k1, [VInt 10])]); (1, [(1, k2, [VInt 7])])])].

(** Timestamps 1 and 3. *)
Definition ex_odd_batches : Batches :=
  [(3, [(0, [(-1, k1, [VInt 10])])]);
   (1, [(0, [(1, k1, [VInt 10])]); (1, [(1, k2, [VInt 7])])])].

(** An odd timestamp next to a negative one. *)
Definition ex_odd_negative_batches : Batches :=
  [(-2, [(0, [(1, k1, [VInt 10])])]); (1, [(0, [(1, k2, [VInt 7])])])].

(** A row of diff 2 after a row of diff 1. *)
Definition ex_bad_diff_batches : Batches :=
  [(2, [(0, [(1, k1, [VInt 10]); (2, k2, [VInt 20])])])].

(** A batch at timestamp 0. *)
Definition ex_backfill_batches : Batches :=
  [(0, [(0, [(1, k1, [VInt 10])])])].

(** A negative timestamp. *)
Definition ex_negative_batches : Batches :=
  [(2, [(0, [(1, k1, [VInt 10])])]); (-4, [(1, [(1, k2, [VInt 7])])])].

(** *** Instances of the static path's parameters *)

Global Instance Value_countable : Countable Value.
Proof.
  refine (inj_countable'
    (λ v, match v with
          | VNone => inl ()
          | VInt z => inr (inl z)
          | VStr s => inr (inr (inl s))
          | VDict t => inr (inr (inr (inl t)))
          | VJson t => inr (inr (inr (inr (inl t))))
          | VArray l => inr (inr (inr (inr (inr (inl l)))))
          | VPointer p => inr (inr (inr (inr (inr (inr p)))))
          end)
    (λ x, match x with
          | inl () => VNone
          | inr (inl z) => VInt z
          | inr (inr (inl s)) => VStr s
          | inr (inr (inr (inl t))) => VDict t
          | inr (inr (inr (inr (inl t)))) => VJson t
          | inr (inr (inr (inr (inr (inl l))))) => VArray l
          | inr (inr (inr (inr (inr (inr p))))) => VPointer p
          end) _).
  by intros [].
Defined.

Global Instance FingerprintArg_eq_dec : EqDecision FingerprintArg.
Proof. solve_decision. Defined.

Global Instance FingerprintArg_countable : Countable FingerprintArg.
Proof.
  refine (inj_countable'
    (λ a, match a with
          | FRecord r => inl r
          | FKey b l => inr (b, l)
          end)
    (λ x, match x with
          | inl r => FRecord r
          | inr (b, l) => FKey b l
          end) _).
  by intros [].
Defined.

(** A fingerprint without collisions. *)
Definition ex_fingerprint (a : FingerprintArg) : Z := Z.pos (encode a).

(** Schema inference that keeps the ordinary columns. *)
Definition ex_schema_from_pandas (df : DataFrame) (id_from : option (list string))
    (exclude_columns : list string) : Schema :=
  filter (λ column, column ∉ exclude_columns) (dict_keys (df_columns df)).

Definition ex_graph : Graph := mkGraph ∅ 0.

(** A dataframe whose index and columns are all of dtype [int64]. *)
Definition int64_frame (index : list Value) (columns : dict string (list Value))
    : DataFrame :=
  mkDataFrame index int64 columns
              ((λ nc : string * list Value, (nc.1, int64)) <$> columns).

(** A diff column with a 2 in it. *)
Definition ex_df_bad_diff : DataFrame :=
  int64_frame [VInt 0; VInt 1]
    [("v", [VInt 5; VInt 6]); ("__diff__", [VInt 1; VInt 2])].

(** Times 1 and 4. *)
Definition ex_df_odd : DataFrame :=
  int64_frame [VInt 0; VInt 1]
    [("v", [VInt 5; VInt 6]); ("__time__", [VInt 1; VInt 4])].

(** A diff column of the nullable dtype [Int64] with a missing value
    before the bad diff, and one with the bad diff first. *)
Definition ex_df_missing_diff : DataFrame :=
  int64_frame [VInt 0; VInt 1; VInt 2]
    [("v", [VInt 5; VInt 6; VInt 7]); ("__diff__", [VInt 1; VNone; VInt 2])].
Definition ex_df_diff_missing : DataFrame :=
  int64_frame [VInt 0; VInt 1; VInt 2]
    [("v", [VInt 5; VInt 6; VInt 7]); ("__diff__", [VInt 1; VInt 2; VNone])].

(** Times of dtype [int8], the double of the first of which is not a
    value of the dtype. *)
Definition ex_df_int8 : DataFrame :=
  mkDataFrame [VInt 0; VInt 1] int64
    [("v", [VInt 5; VInt 6]); ("__time__", [VInt 65; VInt 2])]
    [("v", int64); ("__time__", int8)].

(** An odd time next to a negative one. *)
Definition ex_df_odd_negative : DataFrame :=
  int64_frame [VInt 0; VInt 1]
    [("v", [VInt 5; VInt 6]); ("__time__", [VInt (-2); VInt 1])].

(** *** Instances of the stream path's parameters *)

(** Keys taken from integer index labels. *)
Definition ex_ids_from_pandas (df : DataFrame) (unsafe_trusted_ids : bool)
    (id_from : option (list string)) (label : Value) : Pointer :=
  match label with VInt z => Z.to_N z | _ => 0%N end.

Definition ex_denumpify (v : Value) : Value := v.

(** A dataframe without pseudo-columns. *)
Definition ex_df_plain : DataFrame :=
  int64_frame [VInt 0; VInt 1] [("v", [VInt 5; VInt 6])].

(** *** Captured streams *)

Definition ex_print :=
  _compute_and_print_internal python_str python_eq python_lt squash_updates_model.

(** One row whose only value is [None]. *)
Definition ex_captured_none : list CapturedRow :=
  [mkCapturedRow 12345678901%N [VNone] 2 1].

(** The scenario of an insertion at time 2 replaced at time 4. *)
Definition ex_captured_updates : list CapturedRow :=
  [mkCapturedRow k1 [VInt 20] 4 1;
   mkCapturedRow k1 [VInt 10] 4 (-1);
   mkCapturedRow k1 [VInt 10] 2 1].

(** Two rows holding arrays, given in descending order of [b]. *)
Definition ex_captured_arrays : list CapturedRow :=
  [mkCapturedRow k2 [VArray [3; 4]; VInt 9] 2 1;
   mkCapturedRow k1 [VArray [1; 2]; VInt 5] 2 1].

(** The same rows without the arrays. *)
Definition ex_captured_ints : list CapturedRow :=
  [mkCapturedRow k2 [VInt 9] 2 1; mkCapturedRow k1 [VInt 5] 2 1].

(** A column holding an integer and a string. *)
Definition ex_captured_mixed : list CapturedRow :=
  [mkCapturedRow k1 [VInt 3] 2 1; mkCapturedRow k2 [VStr "x"] 2 1].

(** *** Static tables *)

(** One row at time 2, and the same row at time 1. *)
Definition ex_df_time2 : DataFrame :=
  int64_frame [VInt 0] [("v", [VInt 5]); ("__time__", [VInt 2])].
Definition ex_df_time1 : DataFrame :=
  int64_frame [VInt 0] [("v", [VInt 5]); ("__time__", [VInt 1])].

(** Three rows, and a rearrangement of them. *)
Definition ex_df_rows : DataFrame :=
  int64_frame [VInt 0; VInt 1; VInt 2]
    [("v", [VInt 5; VInt 6; VInt 7]); ("__time__", [VInt 2; VInt 2; VInt 4])].
Definition ex_rows : list nat := [2; 0; 1]%nat.

Definition ex_static :=
  table_from_pandas ex_fingerprint ex_schema_from_pandas None false None.

(** ** Further example inputs *)

(** A stand-in for the key function of the engine. *)
Definition ex_ref_scalar (n : N) : Pointer := (n + 100)%N.

Definition ex_named_row (a b : Z) : dict string Value :=
  [("a"%string, VInt a); ("b"%string, VInt b)].

(** Two batches over the workers 0 and 1. *)
Definition ex_worker_batches : list (dict Z (list (dict string Value))) :=
  [ [(0, [ex_named_row 1 2; ex_named_row 3 4]); (1, [ex_named_row 5 6])];
    [(1, [ex_named_row 7 8])] ].

(** The second row lacks the column [b]. *)
Definition ex_incomplete_batches : list (dict Z (list (dict string Value))) :=
  [ [(0, [ex_named_row 1 2; [("a"%string, VInt 3)]])] ].

Definition ex_row_batches : list (list (dict string Value)) :=
  [ [ex_named_row 1 2; ex_named_row 3 4]; [ex_named_row 5 6] ].

(** A dataframe with the three stream columns: two rows of worker 0 at
    time 3, one of worker 1 at time 1. *)
Definition ex_df_stream : DataFrame :=
  int64_frame [VInt 0; VInt 1; VInt 2]
    [("v"%string, [VInt 5; VInt 6; VInt 7]);
     ("_time"%string, [VInt 3; VInt 1; VInt 3]);
     ("_worker"%string, [VInt 0; VInt 1; VInt 0]);
     ("_diff"%string, [VInt 1; VInt 1; VInt (-1)])].

Definition ex_stream_rows : list (Z * Z * Change) :=
  [(3, 0, (1, 0%N, [VInt 5])); (1, 1, (1, 1%N, [VInt 6]));
   (3, 0, (-1, 2%N, [VInt 7]))].

(** [ex_df_odd] after its times were doubled. *)
Definition ex_df_doubled : DataFrame :=
  int64_frame [VInt 0; VInt 1]
    [("v"%string, [VInt 5; VInt 6]); ("__time__"%string, [VInt 2; VInt 8])].

(** A graph whose cache holds one table. *)
Definition ex_cached_table : Table := mkTable ["v"%string] ex_df_plain false 0.
Definition ex_graph_cached : Graph := mkGraph {[ 7 := ex_cached_table ]} 1.

(** The rows of [ex_df_plain] under the index labels 7 and 3, as a
    Parquet file that stores an index gives them back. *)
Definition ex_df_labelled : DataFrame :=
  mkDataFrame [VInt 7; VInt 3] int64
    [("v"%string, [VInt 5; VInt 6])] [("v"%string, int64)].

(** Two Parquet files: one with a stored index, one without. *)
Definition ex_read_parquet (path : string) : DataFrame :=
  if String.eqb path "labelled" then ex_df_labelled else ex_df_plain.

(** * Properties *)

(** ** The monad *)

Section monad_facts.
Context {S : Type}.

Lemma bind_returned {A B} (m : M S A) (k : A → M S B) s a s1 w1 :
  m s = Returned a s1 w1 →
  bind m k s = match k a s1 with
               | Returned b s2 w2 => Returned b s2 (w1 ++ w2)
               | Raised e s2 w2 => Raised e s2 (w1 ++ w2)
               end.
Proof. intros H. unfold bind. by rewrite H. Qed.

Lemma bind_raised {A B} (m : M S A) (k : A → M S B) s e s1 w1 :
  m s = Raised e s1 w1 → bind m k s = Raised e s1 w1.
Proof. intros H. unfold bind. by rewrite H. Qed.

Lemma bind_pure {A B} (m : M S A) (k : A → M S B) s a s1 :
  m s = Returned a s1 [] → bind m k s = k a s1.
Proof. intros H. rewrite (bind_returned _ _ _ _ _ _ H). by destruct (k a s1). Qed.

Lemma res_unit_returned (r : Res S unit) :
  res_value r = inr () → res_warnings r = [] → r = Returned () (res_state r) [].
Proof. destruct r as [[] ? ?|]; simpl; intros; simplify_eq; done. Qed.

Lemma res_raised {A} (r : Res S A) e :
  res_value r = inl e → res_warnings r = [] → r = Raised e (res_state r) [].
Proof. destruct r; simpl; intros; simplify_eq; done. Qed.

Lemma raises_false {T A} (r : Res (S * T) A) :
  raises r = false →
  ∃ a, r = Returned a ((res_state r).1, (res_state r).2) (res_warnings r).
Proof. destruct r as [a [s t] w|]; [by eexists|done]. Qed.
End monad_facts.

(** ** The build loop, piece by piece *)

Module BuildFacts.
Import StreamGenerator BuildSpec.

Section comp.
Variable pid : string.
Variable ws : gset Z.

Lemma extends_present g s s' :
  extends pid ws g s s' → present pid ws s → present pid ws s'.
Proof.
  intros [_ H] Hp w Hw. rewrite H, decide_True by done.
  destruct (Hp w Hw) as [l ->]. by eexists.
Qed.

Lemma extends_refl s : extends pid ws (λ _, []) s s.
Proof.
  split; [done|]. intros p w. case_decide; [|done].
  destruct (events s !! (p, w)); simpl; [by rewrite app_nil_r|done].
Qed.

Lemma extends_trans g1 g2 s1 s2 s3 :
  extends pid ws g1 s1 s2 → extends pid ws g2 s2 s3 →
  extends pid ws (λ w, g1 w ++ g2 w) s1 s3.
Proof.
  intros [Hc1 H1] [Hc2 H2]. split; [congruence|]. intros p w.
  rewrite H2, H1. case_decide; [|done].
  destruct (events s1 !! (p, w)); simpl; [|done].
  by rewrite <- app_assoc.
Qed.

Lemma comp_ok_ret : comp_ok pid ws true (λ _, []) (ret ()).
Proof.
  intros s _. exists (λ _, []). simpl.
  split_and!; [apply extends_refl|done..].
Qed.

Lemma comp_ok_raise : comp_ok pid ws false (λ _, []) (raise ValueError).
Proof.
  intros s _. exists (λ _, []). simpl.
  split_and!; [apply extends_refl|done..].
Qed.

Lemma comp_ok_ext v F F' m :
  (∀ w, w ∈ ws → F w = F' w) → comp_ok pid ws v F m → comp_ok pid ws v F' m.
Proof.
  intros HF Hm s Hs. destruct (Hm s Hs) as (g & Hg & Hw & Hgw & Hv).
  exists g. split_and!; [done..| |done].
  intros w Hin. rewrite <- HF by done. auto.
Qed.

Lemma comp_ok_bind v1 v2 F1 F2 m1 m2 :
  comp_ok pid ws v1 F1 m1 → comp_ok pid ws v2 F2 m2 →
  comp_ok pid ws (v1 && v2) (λ w, F1 w ++ if v1 then F2 w else [])
          (m1 ;;; m2).
Proof.
  intros H1 H2 s Hs. destruct (H1 s Hs) as (g1 & Hg1 & Hw1 & HF1 & Hv1).
  destruct v1; simpl.
  - pose proof (res_unit_returned _ Hv1 Hw1) as E1.
    pose proof (extends_present _ _ _ Hg1 Hs) as Hs1.
    destruct (H2 _ Hs1) as (g2 & Hg2 & Hw2 & HF2 & Hv2).
    rewrite (bind_pure _ _ _ _ _ E1).
    exists (λ w, g1 w ++ g2 w).
    split_and!; [by eapply extends_trans|done| |done].
    intros w Hin. by rewrite HF1, HF2.
  - pose proof (res_raised _ _ Hv1 Hw1) as E1.
    rewrite (bind_raised _ _ _ _ _ _ E1). simpl.
    exists g1. split_and!; [done|done| |done].
    intros w Hin. by rewrite HF1, app_nil_r.
Qed.

Lemma comp_ok_for_each {B} (valid : B → bool) (F : B → Z → list SnapshotEvent)
    (body : B → M state unit) (l : list B) :
  (∀ x, x ∈ l → comp_ok pid ws (valid x) (F x) (body x)) →
  comp_ok pid ws (forallb valid l) (λ w, loop_until valid (λ x, F x w) l)
          (for_each l body).
Proof.
  induction l as [|x l IH]; intros Hb; simpl.
  - apply comp_ok_ret.
  - apply (comp_ok_bind (valid x) (forallb valid l) (F x)
             (λ w, loop_until valid (λ x, F x w) l)).
    + apply Hb. by left.
    + apply IH. intros y Hy. apply Hb. by right.
Qed.

Lemma comp_ok_extend w l :
  w ∈ ws →
  comp_ok pid ws true (λ w', if decide (w' = w) then l else [])
          (events_extend (pid, w) l).
Proof.
  intros Hw s Hs. destruct (Hs w Hw) as [old Hold].
  exists (λ w', if decide (w' = w) then l else []).
  unfold events_extend, bind, get. rewrite Hold. simpl.
  split; [|by repeat split].
  split; [done|]. intros p w'. simpl.
  destruct (decide ((pid, w) = (p, w'))) as [E|NE].
  - simplify_eq. rewrite lookup_insert_eq, decide_True, Hold by done.
    simpl. by rewrite decide_True.
  - rewrite lookup_insert_ne by done. case_decide as Hd; [|done].
    destruct Hd as [-> _]. rewrite decide_False by congruence.
    destruct (events s !! (pid, w')); simpl; [by rewrite app_nil_r|done].
Qed.

Lemma loop_until_guard {B C} (P : Prop) `{Decision P} (ok : B → bool)
    (f : B → list C) l :
  loop_until ok (λ x, if decide P then f x else []) l
  = if decide P then loop_until ok f l else [].
Proof.
  case_decide; [done|]. induction l as [|x l IH]; simpl; [done|].
  by destruct (ok x).
Qed.

Lemma loop_until_valid {B C} (ok : B → bool) (F : B → list C) l :
  forallb ok l = true → loop_until ok F l = flat_map F l.
Proof.
  induction l as [|x l IH]; simpl; [done|].
  intros [-> Hl]%andb_true_iff. by rewrite IH.
Qed.

Lemma loop_until_prefix {B C} (ok : B → bool) (F F' : B → list C) l :
  (∀ x, x ∈ l → ok x = true → F x = F' x) →
  (∀ x, x ∈ l → F x `prefix_of` F' x) →
  loop_until ok F l `prefix_of` flat_map F' l.
Proof.
  induction l as [|x l IH]; intros Heq Hpre; simpl; [done|].
  destruct (ok x) eqn:Hx.
  - rewrite (Heq x) by (done || by left).
    apply prefix_app, IH; intros y Hy; [apply Heq|apply Hpre]; by right.
  - rewrite app_nil_r. apply prefix_app_r, Hpre. by left.
Qed.

Lemma flat_map_guard {B C} (P : Prop) `{Decision P} (f : B → list C) l :
  flat_map (λ x, if decide P then f x else []) l
  = if decide P then flat_map f l else [].
Proof.
  case_decide; [done|]. induction l; simpl; auto.
Qed.

Lemma flat_map_select {C} (w : Z) (a : list C) (l : list Z) :
  NoDup l →
  flat_map (λ x, if decide (w = x) then a else []) l
  = if decide (w ∈ l) then a else [].
Proof.
  induction 1 as [|x l Hx Hl IH]; cbn [flat_map].
  - case_decide as Hin; [by apply elem_of_nil in Hin|done].
  - rewrite IH. destruct (decide (w = x)) as [->|Hne].
    + rewrite (decide_False (P := x ∈ l)) by done.
      rewrite decide_True by (by left). by rewrite app_nil_r.
    + destruct (decide (w ∈ l)) as [Hin|Hin].
      * by rewrite decide_True by (by right).
      * rewrite decide_False; [done|].
        by intros [?|?]%elem_of_cons.
Qed.

Lemma dict_get_None {V} (d : dict Z V) k : k ∉ dict_keys d → dict_get d k = None.
Proof.
  induction d as [|[k' v] d IH]; simpl; [done|].
  intros Hk. apply not_elem_of_cons in Hk as [Hne Hk].
  rewrite decide_False by done. by apply IH.
Qed.

Lemma dict_get_elem_of {V} (d : dict Z V) k v :
  dict_wf d → (k, v) ∈ d → dict_get d k = Some v.
Proof.
  unfold dict_wf, dict_keys. induction d as [|[k' v'] d IH]; simpl.
  - by intros _ ?%elem_of_nil.
  - intros [Hk Hd]%NoDup_cons [E|Hin]%elem_of_cons.
    + simplify_eq. by rewrite decide_True.
    + rewrite decide_False; [by apply IH|].
      intros ->. apply Hk. apply list_elem_of_fmap. by exists (k, v).
Qed.

Lemma dict_get_Some_elem_of {K V} `{EqDecision K} (d : dict K V) k v :
  dict_get d k = Some v → (k, v) ∈ d.
Proof.
  induction d as [|[k' v'] d IH]; simpl; [done|].
  case_decide; intros; simplify_eq; [by left|right; auto].
Qed.

Lemma flat_map_worker_changes (batch : Batch) (w : Z) :
  dict_wf batch →
  flat_map (λ wc : Z * list Change,
              if decide (w = wc.1) then flat_map change_events wc.2 else [])
           batch
  = flat_map change_events (worker_changes batch w).
Proof.
  unfold dict_wf, dict_keys, worker_changes.
  induction batch as [|[w' ch] batch IH]; simpl; [done|].
  intros [Hk Hd]%NoDup_cons. destruct (decide (w = w')) as [->|].
  - rewrite decide_True by done. simpl.
    rewrite IH by done. rewrite dict_get_None by done. simpl.
    by rewrite app_nil_r.
  - rewrite decide_False by done. by apply IH.
Qed.

Lemma append_change_ok w c :
  w ∈ ws →
  comp_ok pid ws (valid_change c)
          (λ w', if decide (w' = w) then change_events c else [])
          (append_change pid w c).
Proof.
  intros Hw. destruct c as [[diff key] values].
  unfold append_change, valid_change, change_events.
  destruct (diff =? 1) eqn:E1; [|destruct (diff =? -1) eqn:E2]; simpl.
  - apply Z.eqb_eq in E1 as ->. by apply comp_ok_extend.
  - apply Z.eqb_eq in E2 as ->. by apply comp_ok_extend.
  - eapply comp_ok_ext; [|apply comp_ok_raise].
    intros w' _. by case_decide.
Qed.

Lemma changes_ok w (changes : list Change) :
  w ∈ ws →
  comp_ok pid ws (forallb valid_change changes)
          (λ w', if decide (w' = w) then changes_until changes else [])
          (for_each changes (append_change pid w)).
Proof.
  intros Hw. eapply comp_ok_ext;
    [|apply (comp_ok_for_each valid_change
               (λ c w', if decide (w' = w) then change_events c else []))].
  - intros w' _. simpl. apply (loop_until_guard (w' = w)).
  - intros c _. by apply append_change_ok.
Qed.

Lemma batch_ok (batch : Batch) :
  (∀ w, w ∈ dict_keys batch → w ∈ ws) →
  comp_ok pid ws (valid_batch batch) (batch_until batch)
          (for_each batch (λ '(worker, changes),
             for_each changes (append_change pid worker))).
Proof.
  intros Hsub.
  apply (comp_ok_for_each (λ wc : Z * list Change, forallb valid_change wc.2)
           (λ wc w, if decide (w = wc.1) then changes_until wc.2 else [])).
  intros [w changes] Hin. simpl. apply changes_ok, Hsub.
  apply list_elem_of_fmap. by exists (w, changes).
Qed.

Lemma advance_ok (timestamp : Z) :
  comp_ok pid ws true (λ _, [AdvanceTime timestamp])
          (_advance_time_for_all_workers pid (elements ws) timestamp).
Proof.
  unfold _advance_time_for_all_workers.
  assert (forallb (λ _ : Z, true) (elements ws) = true) as Hall
    by (by induction (elements ws)).
  rewrite <- Hall at 1.
  eapply comp_ok_ext;
    [|apply (comp_ok_for_each (λ _, true)
               (λ w0 w, if decide (w = w0) then [AdvanceTime timestamp] else []))].
  - intros w Hw. simpl. rewrite (loop_until_valid _ _ _ Hall).
    rewrite flat_map_select by apply NoDup_elements.
    by rewrite decide_True by set_solver.
  - intros w Hw. apply comp_ok_extend. set_solver.
Qed.

Lemma getitem_run {V} (d : dict Z V) k v (s : state) :
  dict_get d k = Some v →
  dict_getitem (S := state) d k s = Returned v s [].
Proof. intros H. unfold dict_getitem. by rewrite H. Qed.

Lemma timestamp_ok (batches : Batches) (timestamp : Z) (batch : Batch) :
  dict_get batches timestamp = Some batch →
  (∀ w, w ∈ dict_keys batch → w ∈ ws) →
  comp_ok pid ws (valid_batch batch) (λ w, block_until batches w timestamp)
    (_advance_time_for_all_workers pid (elements ws) timestamp ;;;
     let* batch := dict_getitem batches timestamp in
     for_each batch (λ '(worker, changes),
       for_each changes (append_change pid worker))).
Proof.
  intros Hget Hsub.
  apply (comp_ok_ext (valid_batch batch)
           (λ w, [AdvanceTime timestamp]
                   ++ if true then batch_until batch w else [])).
  { intros w _. unfold block_until. by rewrite Hget. }
  apply (comp_ok_bind true (valid_batch batch)); [apply advance_ok|].
  intros s Hs.
  rewrite (bind_pure _ _ _ _ _ (getitem_run _ _ _ s Hget)).
  by apply batch_ok.
Qed.

Lemma elem_of_workers_of (batches : Batches) t batch w :
  (t, batch) ∈ batches → w ∈ dict_keys batch → w ∈ workers_of batches.
Proof.
  intros Hb Hw. unfold workers_of. apply elem_of_list_to_set, list_elem_of_In.
  apply in_flat_map. exists batch. split; apply list_elem_of_In; [|done].
  apply list_elem_of_fmap. by exists (t, batch).
Qed.

Lemma elem_of_keys_get {V} (d : dict Z V) k :
  k ∈ dict_keys d → ∃ v, dict_get d k = Some v ∧ (k, v) ∈ d.
Proof.
  intros Hk. destruct (dict_get d k) as [v|] eqn:E.
  - exists v. eauto using dict_get_Some_elem_of.
  - exfalso. revert Hk E. induction d as [|[k' v'] d IH]; simpl.
    + by intros ?%elem_of_nil.
    + intros [->|Hk]%elem_of_cons; [by rewrite decide_True|].
      case_decide; [done|]. by apply IH.
Qed.

Lemma all_valid_sorted (batches : Batches) :
  dict_wf batches →
  forallb (λ t, valid_batch (default [] (dict_get batches t)))
          (merge_sort Z.le (dict_keys batches))
  = all_valid batches.
Proof.
  intros Hwf. apply eq_true_iff_eq. unfold all_valid.
  rewrite !forallb_forall. split.
  - intros H [t b] Hin%list_elem_of_In. simpl.
    specialize (H t). rewrite (dict_get_elem_of _ _ _ Hwf Hin) in H.
    apply H, list_elem_of_In. rewrite merge_sort_Permutation.
    apply list_elem_of_fmap. by exists (t, b).
  - intros H t Hin%list_elem_of_In. rewrite merge_sort_Permutation in Hin.
    destruct (elem_of_keys_get _ _ Hin) as (b & -> & Hb). simpl.
    by apply (H (t, b)), list_elem_of_In.
Qed.

Lemma loop_ok (batches : Batches) :
    dict_wf batches → workers_of batches ⊆ ws →
    comp_ok pid ws (all_valid batches) (registered batches)
      (for_each (merge_sort Z.le (dict_keys batches)) (λ timestamp,
         _advance_time_for_all_workers pid (elements ws) timestamp ;;;
         let* batch := dict_getitem batches timestamp in
         for_each batch (λ '(worker, changes),
           for_each changes (append_change pid worker)))).
Proof.
    intros Hwf Hsub. rewrite <- (all_valid_sorted _ Hwf).
    apply (comp_ok_for_each
             (λ t, valid_batch (default [] (dict_get batches t)))
             (λ t w, block_until batches w t)).
    intros t Hin. rewrite merge_sort_Permutation in Hin.
    destruct (elem_of_keys_get _ _ Hin) as (b & Hget & Hb).
    rewrite Hget. simpl. apply timestamp_ok; [done|].
    intros w Hw. apply Hsub. by eapply elem_of_workers_of.
Qed.
End comp.

(** *** Before the loop *)

Lemma init_events_lookup pid l ev p w :
  init_events pid l ev !! (p, w)
  = if decide (p = pid ∧ w ∈ l) then Some [] else ev !! (p, w).
Proof.
  unfold init_events. revert ev. induction l as [|x l IH]; intros ev; simpl.
  - rewrite decide_False; [done|]. intros [_ ?%elem_of_nil]. done.
  - rewrite IH. destruct (decide (p = pid ∧ w ∈ l)) as [[-> Hin]|Hn].
    + rewrite decide_True; [done|]. split; [done|by right].
    + destruct (decide ((pid, x) = (p, w))) as [E|NE].
      * simplify_eq. rewrite lookup_insert_eq, decide_True; [done|].
        split; [done|by left].
      * rewrite lookup_insert_ne by done. rewrite decide_False; [done|].
        intros [-> [->|?]%elem_of_cons]; [done|]. apply Hn. done.
Qed.

Lemma init_run pid l (s : state) :
  for_each l (λ worker, set_events (<[(pid, worker) := []]>)) s
  = Returned () (mkState (_persistent_id s) (init_events pid l (events s))) [].
Proof.
  revert s. induction l as [|x l IH]; intros [n ev]; simpl.
  - done.
  - erewrite bind_pure; [|reflexivity]. by rewrite IH.
Qed.

Lemma existsb_iff {B} (f g : B → bool) (l k : list B) :
  (∀ x, (x ∈ l ∧ f x = true) ↔ (x ∈ k ∧ g x = true)) → existsb f l = existsb g k.
Proof.
  intros H. apply eq_true_iff_eq. rewrite !existsb_exists.
  split; intros (x & Hin%list_elem_of_In & Hx).
  - destruct (proj1 (H x)) as [Hk Hg]; [done|]. exists x. by rewrite <- list_elem_of_In.
  - destruct (proj2 (H x)) as [Hk Hg]; [done|]. exists x. by rewrite <- list_elem_of_In.
Qed.

Lemma any_truthy_elements (cond : Z → bool) (keys : list Z) :
  (∀ x, cond x = true → x ≠ 0) →
  any_truthy cond (elements (list_to_set keys : gset Z)) = existsb cond keys.
Proof.
  intros Hc. unfold any_truthy. apply existsb_iff. intros x.
  rewrite list_elem_of_filter, elem_of_elements, elem_of_list_to_set.
  split.
  - intros [[? ?] _]. done.
  - intros [? Hx]. split_and!; [done..|]. apply negb_true_iff, Z.eqb_neq. auto.
Qed.

(** The test for a timestamp 0 yields only the value 0, which is false. *)
Lemma any_truthy_zero (l : list Z) : any_truthy (λ t, t =? 0) l = false.
Proof.
  unfold any_truthy. apply not_true_is_false. rewrite existsb_exists.
  intros (x & Hin%list_elem_of_In & Hx).
  apply list_elem_of_filter in Hin as [Hz _].
  rewrite Hz in Hx. done.
Qed.

(** *** Doubling *)

Lemma doubled_keys (batches : Batches) :
  dict_keys (doubled batches) = Z.mul 2 <$> dict_keys batches.
Proof.
  unfold dict_keys, doubled. rewrite <- !list_fmap_compose.
  by apply list_fmap_ext.
Qed.

Lemma doubled_values (batches : Batches) :
  dict_values (doubled batches) = dict_values batches.
Proof.
  unfold dict_values, doubled. rewrite <- !list_fmap_compose.
  by apply list_fmap_ext.
Qed.

Lemma doubled_wf (batches : Batches) :
  batches_wf batches → batches_wf (doubled batches).
Proof.
  intros [Hk Hb]. split.
  - unfold dict_wf. rewrite doubled_keys. apply NoDup_fmap_2; [|done].
    intros x y. lia.
  - unfold doubled. rewrite Forall_fmap. eapply Forall_impl; [done|]. done.
Qed.

Lemma doubled_workers (batches : Batches) :
  workers_of (doubled batches) = workers_of batches.
Proof. unfold workers_of. by rewrite doubled_values. Qed.

Lemma doubled_all_valid (batches : Batches) :
  all_valid (doubled batches) = all_valid batches.
Proof.
  unfold all_valid, doubled. induction batches as [|tb l IH]; [done|].
  cbn [fmap list_fmap forallb]. simpl. by rewrite <- IH.
Qed.

Lemma doubled_get (batches : Batches) t :
  dict_get (doubled batches) (2 * t) = dict_get batches t.
Proof.
  induction batches as [|[t' b] batches IH]; simpl; [done|].
  destruct (decide (t' = t)) as [->|].
  - by rewrite decide_True.
  - rewrite decide_False by lia. done.
Qed.

Lemma doubling_run {S} (dtype : Dtype) (batches : Batches) (s : S) :
  dict_wf batches →
  (∀ t, t ∈ dict_keys batches → fits dtype (2 * t)) →
  map_m (λ timestamp,
           let* batch := dict_getitem batches timestamp in
           ret (wrap dtype (2 * timestamp), batch))
        (dict_keys batches) s
  = Returned (doubled batches) s [].
Proof.
  intros Hwf Hfits.
  assert (∀ l : Batches, (∀ t b, (t, b) ∈ l → dict_get batches t = Some b) →
    (∀ t b, (t, b) ∈ l → wrap dtype (2 * t) = 2 * t) →
    map_m (λ timestamp,
             let* batch := dict_getitem (S := S) batches timestamp in
             ret (wrap dtype (2 * timestamp), batch))
          (dict_keys l) s
    = Returned (doubled l) s []) as H.
  { induction l as [|[t b] l IH]; intros Hl Hf; [done|].
    change (dict_keys ((t, b) :: l)) with (t :: dict_keys l). cbn [map_m].
    assert ((let* batch := dict_getitem (S := S) batches t in
             ret (wrap dtype (2 * t), batch)) s = Returned (2 * t, b) s []) as Hr.
    { unfold bind, dict_getitem. rewrite (Hl t b) by (by left).
      cbn. by rewrite (Hf t b) by (by left). }
    rewrite (bind_pure _ _ _ _ _ Hr).
    rewrite (bind_pure _ _ _ _ _
               (IH (λ t' b' Hin, Hl t' b' (list_elem_of_further _ _ _ Hin))
                   (λ t' b' Hin, Hf t' b' (list_elem_of_further _ _ _ Hin)))).
    done. }
  apply H.
  - intros t b Hin. by apply dict_get_elem_of.
  - intros t b Hin. apply Hfits, list_elem_of_fmap. by exists (t, b).
Qed.

(** *** What the registry holds when the loop stops *)

Lemma flat_map_ext_in {B C} (f g : B → list C) (l : list B) :
  (∀ x, x ∈ l → f x = g x) → flat_map f l = flat_map g l.
Proof.
  induction l as [|x l IH]; intros H; simpl; [done|].
  rewrite (H x) by (by left). f_equal. apply IH. intros y Hy. apply H. by right.
Qed.

Lemma changes_until_prefix (changes : list Change) :
  changes_until changes `prefix_of` flat_map change_events changes.
Proof. by apply loop_until_prefix. Qed.

Lemma batch_until_valid (batch : Batch) (w : Z) :
  dict_wf batch → valid_batch batch = true →
  batch_until batch w = flat_map change_events (worker_changes batch w).
Proof.
  intros Hwf Hok. unfold batch_until. rewrite loop_until_valid by done.
  rewrite <- flat_map_worker_changes by done.
  apply flat_map_ext_in. intros [w' ch] Hin. simpl.
  case_decide; [|done]. apply loop_until_valid.
  unfold valid_batch in Hok. rewrite forallb_forall in Hok.
  by apply (Hok (w', ch)), list_elem_of_In.
Qed.

Lemma batch_until_prefix (batch : Batch) (w : Z) :
  dict_wf batch →
  batch_until batch w `prefix_of` flat_map change_events (worker_changes batch w).
Proof.
  intros Hwf. rewrite <- flat_map_worker_changes by done.
  apply loop_until_prefix.
  - intros [w' ch] _ Hok. simpl in *. case_decide; [|done].
    by apply loop_until_valid.
  - intros [w' ch] _. simpl. case_decide; [apply changes_until_prefix|done].
Qed.

Lemma batch_wf_get (batches : Batches) (t : Z) :
  batches_wf batches → dict_wf (default [] (dict_get batches t)).
Proof.
  intros [_ Hall]. destruct (dict_get batches t) as [b|] eqn:E; simpl.
  - rewrite Forall_forall in Hall.
    apply (Hall (t, b)). by apply dict_get_Some_elem_of.
  - apply NoDup_nil_2.
Qed.

(** When every diff is good the loop runs to its end. *)
Lemma registered_valid (batches : Batches) (w : Z) :
  batches_wf batches → all_valid batches = true →
  registered batches w = worker_events batches w.
Proof.
  intros Hwf Hok. unfold registered, worker_events.
  rewrite <- (all_valid_sorted _ (proj1 Hwf)) in Hok.
  rewrite loop_until_valid by done.
  apply flat_map_ext_in. intros t Hin. unfold block_until, block. f_equal.
  apply batch_until_valid; [by apply batch_wf_get|].
  rewrite forallb_forall in Hok. by apply Hok, list_elem_of_In.
Qed.

(** In any case it has appended a prefix of the whole sequence. *)
Lemma registered_prefix (batches : Batches) (w : Z) :
  batches_wf batches →
  registered batches w `prefix_of` worker_events batches w.
Proof.
  intros Hwf. apply loop_until_prefix.
  - intros t _ Hok. unfold block_until, block. f_equal.
    apply batch_until_valid; [by apply batch_wf_get|done].
  - intros t _. unfold block_until, block.
    apply prefix_cons, batch_until_prefix. by apply batch_wf_get.
Qed.

(** *** The whole of [_table_from_dict] *)

Lemma tail_run pid ws (batches : Batches) (schema : Schema) (s1 : state) :
  dict_wf batches → workers_of batches ⊆ ws → present pid ws s1 →
  ∃ g s', extends pid ws g s1 s' ∧
    (∀ w, w ∈ ws → g w = registered batches w) ∧
    (for_each (merge_sort Z.le (dict_keys batches)) (λ timestamp,
       _advance_time_for_all_workers pid (elements ws) timestamp ;;;
       let* batch := dict_getitem batches timestamp in
       for_each batch (λ '(worker, changes),
         for_each changes (append_change pid worker))) ;;;
     ret (mkStreamTable pid schema)) s1
    = if all_valid batches
      then Returned (mkStreamTable pid schema) s' []
      else Raised ValueError s' [].
Proof.
  intros Hwf Hsub Hs1.
  destruct (loop_ok pid ws batches Hwf Hsub s1 Hs1) as (g & Hg & Hw & HF & Hv).
  exists g. eexists. split; [exact Hg|]. split; [done|].
  destruct (all_valid batches).
  - by rewrite (bind_pure _ _ _ _ _ (res_unit_returned _ Hv Hw)).
  - by rewrite (bind_raised _ _ _ _ _ _ (res_raised _ _ Hv Hw)).
Qed.

Lemma present_init pid ws n ev :
  present pid ws (mkState n (init_events pid (elements ws) ev)).
Proof.
  intros w Hw. simpl. rewrite init_events_lookup, decide_True; [by eexists|].
  split; [done|]. by apply elem_of_elements.
Qed.

Lemma table_from_dict_of_run (dtype : Dtype) (batches : Batches)
    (schema : Schema) (s : state) :
  batches_wf batches → doubles_fit dtype batches →
  let pid := next_id s in
  let ws := workers_of batches in
  let s1 := mkState (_persistent_id s + 1)%N
                    (init_events pid (elements ws) (events s)) in
  let wn := if has_odd batches then [msg_doubled] else [] in
  if has_negative batches
  then _table_from_dict_of dtype batches schema s = Raised ValueError s1 []
  else ∃ g s', extends pid ws g s1 s' ∧
       (∀ w, w ∈ ws → g w = registered (normalized batches) w) ∧
       _table_from_dict_of dtype batches schema s
       = if all_valid batches
         then Returned (mkStreamTable pid schema) s' wn
         else Raised ValueError s' wn.
Proof.
  intros Hwf Hfits pid ws s1 wn. unfold _table_from_dict_of.
  rewrite (bind_pure _ _ s pid (mkState (_persistent_id s + 1)%N (events s)))
    by reflexivity.
  rewrite (bind_pure _ _ _ () s1) by apply init_run.
  rewrite any_truthy_elements by (intros x ?%Z.ltb_lt; lia).
  rewrite any_truthy_zero. fold (has_negative batches).
  destruct (has_negative batches); [by rewrite (bind_raised _ _ _ ValueError s1 [])|].
  rewrite (bind_pure _ _ _ () s1) by reflexivity.
  rewrite any_truthy_elements
    by (intros x Hx%Z.eqb_eq ->; by rewrite Z.mod_0_l in Hx).
  fold (has_odd batches). unfold normalized. subst wn.
  change (list_to_set (flat_map dict_keys (dict_values batches))) with ws.
  unfold doubles_fit in Hfits.
  destruct (has_odd batches).
  - assert (Hd : (warn msg_doubled ;;;
               map_m (λ timestamp,
                        let* batch := dict_getitem batches timestamp in
                        ret (wrap dtype (2 * timestamp), batch))
                     (dict_keys batches)) s1
              = Returned (doubled batches) s1 [msg_doubled]).
    { unfold bind at 1, warn. by rewrite doubling_run by (apply Hwf || auto). }
    rewrite (bind_returned _ _ _ _ _ _ Hd). cbv beta.
    destruct (tail_run pid ws (doubled batches) schema s1)
      as (g & s' & Hg & HF & Hv).
    { by apply doubled_wf. }
    { by rewrite doubled_workers. }
    { apply present_init. }
    exists g, s'. split; [done|]. split; [done|].
    rewrite doubled_all_valid in Hv. rewrite Hv.
    by destruct (all_valid batches).
  - rewrite (bind_pure _ _ _ batches s1) by reflexivity. cbv beta.
    destruct (tail_run pid ws batches schema s1) as (g & s' & Hg & HF & Hv);
      [apply Hwf|done|apply present_init|].
    exists g, s'. split; [done|]. split; [done|]. rewrite Hv.
    by destruct (all_valid batches).
Qed.

Lemma doubles_fit_python (batches : Batches) : doubles_fit OtherDtype batches.
Proof. by intros _ t _. Qed.

(** A negative timestamp: the lists of the stream exist and are empty. *)
Lemma negative_run_of (dtype : Dtype) (batches : Batches) (schema : Schema)
    (s : state) :
  has_negative batches = true →
  _table_from_dict_of dtype batches schema s
  = Raised ValueError
      (mkState (_persistent_id s + 1)%N
         (init_events (next_id s) (elements (workers_of batches)) (events s)))
      [].
Proof.
  intros Hneg. unfold _table_from_dict_of.
  rewrite (bind_pure _ _ s (next_id s)
             (mkState (_persistent_id s + 1)%N (events s))) by reflexivity.
  erewrite bind_pure by apply init_run.
  rewrite any_truthy_elements by (intros x ?%Z.ltb_lt; lia).
  fold (has_negative batches). rewrite Hneg.
  by erewrite bind_raised.
Qed.

Lemma negative_run (batches : Batches) (schema : Schema) (s : state) :
  has_negative batches = true →
  _table_from_dict batches schema s
  = Raised ValueError
      (mkState (_persistent_id s + 1)%N
         (init_events (next_id s) (elements (workers_of batches)) (events s)))
      [].
Proof. apply negative_run_of. Qed.

(** The outcome of [_table_from_dict] read off the registry: what each
    worker of the stream holds, whether the build returned or raised. *)
Lemma table_from_dict_of_exact (dtype : Dtype) (batches : Batches)
    (schema : Schema) (s : state) :
  batches_wf batches → doubles_fit dtype batches →
  has_negative batches = false →
  let r := _table_from_dict_of dtype batches schema s in
  let pid := next_id s in
  res_warnings r = (if has_odd batches then [msg_doubled] else []) ∧
  _persistent_id (res_state r) = (_persistent_id s + 1)%N ∧
  (∀ p w, ¬ (p = pid ∧ w ∈ workers_of batches) →
          events (res_state r) !! (p, w) = events s !! (p, w)) ∧
  (∀ w, w ∈ workers_of batches →
        events (res_state r) !! (pid, w)
        = Some (registered (normalized batches) w)) ∧
  res_value r = if all_valid batches
                then inr (mkStreamTable pid schema) else inl ValueError.
Proof.
  intros Hwf Hfits Hneg r pid. subst r pid.
  pose proof (table_from_dict_of_run dtype batches schema s Hwf Hfits) as H.
  cbv zeta in H. rewrite Hneg in H. destruct H as (g & s' & [Hc He] & HF & H).
  assert (∀ p w, events s' !! (p, w)
                 = if decide (p = next_id s ∧ w ∈ workers_of batches)
                   then Some (g w) else events s !! (p, w)) as Hlook.
  { intros p w. rewrite He. simpl. rewrite init_events_lookup.
    destruct (decide (p = next_id s ∧ w ∈ workers_of batches)) as [[-> Hw]|Hn].
    - rewrite decide_True; [done|]. split; [done|]. by apply elem_of_elements.
    - rewrite decide_False; [done|]. intros [? ?%elem_of_elements]. by apply Hn. }
  simpl in Hc. rewrite H.
  assert (∀ w, w ∈ workers_of batches →
            events s' !! (next_id s, w)
            = Some (registered (normalized batches) w)) as Hreg.
  { intros w Hw. by rewrite Hlook, decide_True, HF. }
  assert (∀ p w, ¬ (p = next_id s ∧ w ∈ workers_of batches) →
            events s' !! (p, w) = events s !! (p, w)) as Hrest.
  { intros p w Hn. by rewrite Hlook, decide_False. }
  destruct (all_valid batches); simpl; done.
Qed.

Lemma normalized_wf (batches : Batches) :
  batches_wf batches → batches_wf (normalized batches).
Proof. unfold normalized. destruct (has_odd batches); auto using doubled_wf. Qed.

Lemma normalized_all_valid (batches : Batches) :
  all_valid (normalized batches) = all_valid batches.
Proof.
  unfold normalized. destruct (has_odd batches); auto using doubled_all_valid.
Qed.

Lemma table_from_dict_of_outcome (dtype : Dtype) (batches : Batches)
    (schema : Schema) (s : state) :
  batches_wf batches → doubles_fit dtype batches →
  has_negative batches = false →
  let r := _table_from_dict_of dtype batches schema s in
  let pid := next_id s in
  res_warnings r = (if has_odd batches then [msg_doubled] else []) ∧
  _persistent_id (res_state r) = (_persistent_id s + 1)%N ∧
  (∀ p w, ¬ (p = pid ∧ w ∈ workers_of batches) →
          events (res_state r) !! (p, w) = events s !! (p, w)) ∧
  if all_valid batches
  then res_value r = inr (mkStreamTable pid schema) ∧
       ∀ w, w ∈ workers_of batches →
         events (res_state r) !! (pid, w)
         = Some (worker_events (normalized batches) w)
  else res_value r = inl ValueError ∧
       ∀ w, w ∈ workers_of batches →
         ∃ l, events (res_state r) !! (pid, w) = Some l ∧
              l `prefix_of` worker_events (normalized batches) w.
Proof.
  intros Hwf Hfits Hneg r pid. subst r pid.
  destruct (table_from_dict_of_exact dtype batches schema s Hwf Hfits Hneg)
    as (Hw & Hid & Hrest & Hreg & Hv).
  split_and!; [done..|].
  pose proof (normalized_wf _ Hwf) as Hnwf.
  destruct (all_valid batches) eqn:Hok; (split; [done|]); intros w Hin.
  - rewrite Hreg by done. f_equal. apply registered_valid; [done|].
    by rewrite normalized_all_valid.
  - exists (registered (normalized batches) w). split; [auto|].
    by apply registered_prefix.
Qed.

Lemma table_from_dict_exact (batches : Batches) (schema : Schema) (s : state) :
  batches_wf batches → has_negative batches = false →
  let r := _table_from_dict batches schema s in
  let pid := next_id s in
  res_warnings r = (if has_odd batches then [msg_doubled] else []) ∧
  _persistent_id (res_state r) = (_persistent_id s + 1)%N ∧
  (∀ p w, ¬ (p = pid ∧ w ∈ workers_of batches) →
          events (res_state r) !! (p, w) = events s !! (p, w)) ∧
  (∀ w, w ∈ workers_of batches →
        events (res_state r) !! (pid, w)
        = Some (registered (normalized batches) w)) ∧
  res_value r = if all_valid batches
                then inr (mkStreamTable pid schema) else inl ValueError.
Proof.
  intros Hwf. apply table_from_dict_of_exact; [done|apply doubles_fit_python].
Qed.

Lemma table_from_dict_outcome (batches : Batches) (schema : Schema) (s : state) :
  batches_wf batches → has_negative batches = false →
  let r := _table_from_dict batches schema s in
  let pid := next_id s in
  res_warnings r = (if has_odd batches then [msg_doubled] else []) ∧
  _persistent_id (res_state r) = (_persistent_id s + 1)%N ∧
  (∀ p w, ¬ (p = pid ∧ w ∈ workers_of batches) →
          events (res_state r) !! (p, w) = events s !! (p, w)) ∧
  if all_valid batches
  then res_value r = inr (mkStreamTable pid schema) ∧
       ∀ w, w ∈ workers_of batches →
         events (res_state r) !! (pid, w)
         = Some (worker_events (normalized batches) w)
  else res_value r = inl ValueError ∧
       ∀ w, w ∈ workers_of batches →
         ∃ l, events (res_state r) !! (pid, w) = Some l ∧
              l `prefix_of` worker_events (normalized batches) w.
Proof.
  intros Hwf. apply table_from_dict_of_outcome; [done|apply doubles_fit_python].
Qed.

(** *** The shape of a worker's sequence *)

Lemma barrier_times_app l1 l2 :
  barrier_times (l1 ++ l2) = barrier_times l1 ++ barrier_times l2.
Proof. apply omap_app. Qed.

Lemma barrier_times_changes (changes : list Change) :
  barrier_times (flat_map change_events changes) = [].
Proof.
  induction changes as [|[[diff key] values] l IH]; [done|].
  cbn [flat_map]. rewrite barrier_times_app, IH. unfold change_events.
  by repeat case_match.
Qed.

Lemma barrier_times_worker_events (batches : Batches) w :
  barrier_times (worker_events batches w) = merge_sort Z.le (dict_keys batches).
Proof.
  unfold worker_events. induction (merge_sort Z.le (dict_keys batches)) as [|t l IH];
    [done|].
  cbn [flat_map]. rewrite barrier_times_app, IH. unfold block.
  change (barrier_times (AdvanceTime t :: ?k)) with (t :: barrier_times k).
  by rewrite barrier_times_changes.
Qed.

Lemma sorted_keys_strict (keys : list Z) :
  NoDup keys → StronglySorted Z.lt (merge_sort Z.le keys).
Proof.
  intros Hnd.
  assert (NoDup (merge_sort Z.le keys)) as Hnd'
    by (by rewrite merge_sort_Permutation).
  pose proof (StronglySorted_merge_sort Z.le keys) as Hs.
  induction Hs as [|x l Hs IH Hx]; [constructor|].
  apply NoDup_cons in Hnd' as [Hin Hnd']. constructor; [auto|].
  rewrite Forall_forall in Hx |- *. intros y Hy.
  specialize (Hx y Hy). assert (x ≠ y) by (intros ->; done). lia.
Qed.

Lemma sorted_doubled (keys : list Z) :
  merge_sort Z.le (Z.mul 2 <$> keys) = Z.mul 2 <$> merge_sort Z.le keys.
Proof.
  apply (Sorted_unique Z.le).
  - apply Sorted_merge_sort; apply _.
  - apply Sorted_fmap with (R1 := Z.le); [intros x y; lia|].
    apply Sorted_merge_sort; apply _.
  - by rewrite !merge_sort_Permutation.
Qed.

Lemma all_valid_false (batches : Batches) t batch w changes c :
  (t, batch) ∈ batches → (w, changes) ∈ batch → c ∈ changes →
  valid_change c = false → all_valid batches = false.
Proof.
  intros Hb Hw Hc Hv. apply not_true_is_false. unfold all_valid, valid_batch.
  rewrite forallb_forall. intros H.
  specialize (H (t, batch) (proj1 (list_elem_of_In _ _) Hb)). simpl in H.
  rewrite forallb_forall in H.
  specialize (H (w, changes) (proj1 (list_elem_of_In _ _) Hw)). simpl in H.
  rewrite forallb_forall in H.
  specialize (H c (proj1 (list_elem_of_In _ _) Hc)). congruence.
Qed.

(** Whatever stops the loop, every worker has got the barrier of the
    smallest timestamp by then. *)
Lemma registered_head (batches : Batches) (w : Z) :
  dict_keys batches ≠ [] →
  ∃ t ts l, merge_sort Z.le (dict_keys batches) = t :: ts ∧
            registered batches w = AdvanceTime t :: l.
Proof.
  intros Hne. unfold registered.
  destruct (merge_sort Z.le (dict_keys batches)) as [|t ts] eqn:E.
  - exfalso. apply Hne. apply Permutation_nil_r.
    by rewrite <- (merge_sort_Permutation Z.le), E.
  - exists t, ts. eexists. split; [done|]. cbn [loop_until]. unfold block_until.
    reflexivity.
Qed.

Lemma normalized_keys_nil (batches : Batches) :
  dict_keys (normalized batches) = [] → dict_keys batches = [].
Proof.
  unfold normalized. destruct (has_odd batches); [|done].
  rewrite doubled_keys. apply fmap_nil_inv.
Qed.

End BuildFacts.

(** ** The static path *)

Module StaticFacts.
Import StaticSpec.

Lemma dict_get_set_eq {V} (d : dict string V) k v :
  dict_get (dict_set d k v) k = Some v.
Proof.
  induction d as [|[k' v'] d IH]; simpl.
  - by rewrite decide_True.
  - destruct (decide (k' = k)) as [->|]; simpl.
    + by rewrite decide_True.
    + by rewrite decide_False.
Qed.

Lemma dict_get_set_ne {V} (d : dict string V) k k' v :
  k ≠ k' → dict_get (dict_set d k v) k' = dict_get d k'.
Proof.
  intros Hne. induction d as [|[k0 v0] d IH]; simpl.
  - by rewrite decide_False.
  - destruct (decide (k0 = k)) as [->|]; simpl.
    + by rewrite !decide_False.
    + destruct (decide (k0 = k')); [done|]. apply IH.
Qed.

Lemma dict_contains_Some {K V} `{EqDecision K} (d : dict K V) k v :
  dict_get d k = Some v → dict_contains d k = true.
Proof.
  intros H. apply bool_decide_eq_true.
  induction d as [|[k' v'] d IH]; simpl in *; [done|].
  case_decide; [subst; by left|right; auto].
Qed.

Lemma dict_contains_None {K V} `{EqDecision K} (d : dict K V) k :
  dict_get d k = None → dict_contains d k = false.
Proof.
  intros H. apply bool_decide_eq_false.
  induction d as [|[k' v'] d IH]; simpl in *; [by intros ?%elem_of_nil|].
  case_decide; [done|]. intros [->|?]%elem_of_cons; [done|]. by apply IH.
Qed.

Ltac run_step :=
  progress (cbv beta iota; cbn [negb andb app df_setitem df_columns];
            repeat match goal with
                   | H : _ = _ |- _ => rewrite H
                   end;
            rewrite ?dict_get_set_ne by done).

Lemma validate_run (df : DataFrame) :
  _validate_dataframe df = validate_outcome df.
Proof.
  unfold _validate_dataframe, validate_outcome, column_ok, diff_check,
    negative_test, odd_test, diff_test, double_times, guard, with_warning,
    any_series.
  cbn [for_each PANDAS_PSEUDOCOLUMNS].
  unfold bind, get, when, ret, raise, warn, put.
  destruct (dict_get (df_columns df) TIME_PSEUDOCOLUMN) as [tcells|] eqn:Ht;
    [pose proof (dict_contains_Some _ _ _ Ht) as Hct
    |pose proof (dict_contains_None _ _ Ht) as Hct];
    (destruct (dict_get (df_columns df) DIFF_PSEUDOCOLUMN) as [dcells|] eqn:Hd;
     [pose proof (dict_contains_Some _ _ _ Hd) as Hcd
     |pose proof (dict_contains_None _ _ Hd) as Hcd]);
    try destruct (is_integer_dtype (df_dtype df TIME_PSEUDOCOLUMN)) eqn:Hti;
    try destruct (is_integer_dtype (df_dtype df DIFF_PSEUDOCOLUMN)) eqn:Hdi;
    try destruct (series_any (series_test (λ t, t <? 0) tcells))
      as [?|[]] eqn:Hneg;
    try destruct (series_any (series_test (λ t, t `mod` 2 =? 1) tcells))
      as [?|[]] eqn:Hodd;
    try destruct (series_any
                    (series_test (λ d, negb (d =? 1) && negb (d =? -1)) dcells))
      as [?|[]] eqn:Hbad;
    repeat run_step; reflexivity.
Qed.

Lemma df_select_run {S} (df : DataFrame) (columns : list string) (st : S) :
  df_select df columns st
  = match select_columns df columns with
    | Some d => Returned d st []
    | None => Raised KeyError st []
    end.
Proof.
  unfold df_select, select_columns.
  assert (map_m (λ column,
                   let* cells := dict_getitem (S := S) (df_columns df) column in
                   ret (column, cells)) columns st
          = match mapM (λ column, (column,.) <$> dict_get (df_columns df) column)
                       columns with
            | Some l => Returned l st []
            | None => Raised KeyError st []
            end) as H.
  { induction columns as [|c columns IH]; [done|].
    cbn [map_m mapM].
    destruct (dict_get (df_columns df) c) as [cells|] eqn:E; cbn.
    - assert ((let* cells := dict_getitem (S := S) (df_columns df) c in
               ret (c, cells)) st = Returned (c, cells) st []) as Hf
        by (unfold bind, dict_getitem; by rewrite E).
      rewrite (bind_pure _ _ _ _ _ Hf).
      destruct (mapM _ columns) as [l|]; cbn.
      + by rewrite (bind_pure _ _ _ _ _ IH).
      + by rewrite (bind_raised _ _ _ _ _ _ IH).
    - assert ((let* cells := dict_getitem (S := S) (df_columns df) c in
               ret (c, cells)) st = Raised KeyError st []) as Hf
        by (unfold bind, dict_getitem; by rewrite E).
      by rewrite (bind_raised _ _ _ _ _ _ Hf). }
  destruct (mapM _ columns) as [l|]; cbn.
  - by rewrite (bind_pure _ _ _ _ _ H).
  - by rewrite (bind_raised _ _ _ _ _ _ H).
Qed.

Lemma ids_df_run (df : DataFrame) (id_from : option (list string))
    (st : DataFrame * Graph) :
  ids_df df id_from st
  = match identity_frame df id_from with
    | Some ids => Returned ids st []
    | None => Raised KeyError st []
    end.
Proof.
  unfold ids_df, identity_frame, bind. destruct id_from as [columns|].
  - rewrite df_select_run. by destruct (select_columns df columns).
  - done.
Qed.

Lemma diff_check_state (df : DataFrame) :
  res_state (diff_check df) = df ∧ res_warnings (diff_check df) = [].
Proof. unfold diff_check, guard. by repeat case_match. Qed.

(** *** The tests of the validation *)

(** On a column without a missing value [any] sees every cell. *)
Lemma series_any_ints (test : Z → bool) (cells : list Value) :
  no_missing cells = true →
  series_any (series_test test cells) = inr (existsb test (column_ints cells)).
Proof.
  unfold no_missing, series_test, column_ints.
  induction cells as [|v cells IH]; [done|]. cbn [forallb].
  intros [Hv Hall]%andb_true_iff. apply bool_decide_eq_true in Hv as [z Hz].
  destruct v; simplify_eq/=. rewrite IH by done. by destruct (test z).
Qed.

(** [any] comes out false only when it has seen every cell. *)
Lemma series_any_false (test : Z → bool) (cells : list Value) :
  series_any (series_test test cells) = inr false →
  no_missing cells = true ∧ existsb test (column_ints cells) = false.
Proof.
  unfold no_missing, series_test, column_ints.
  induction cells as [|v cells IH]; [done|].
  destruct v as [|z| | | | |]; csimpl; try done.
  destruct (test z); [done|]. intros H. by apply IH.
Qed.

Lemma series_any_error (series : list (option bool)) e :
  series_any series = inl e → e = TypeError.
Proof.
  induction series as [|[[]|] l IH]; simpl; intros; simplify_eq; auto.
Qed.

Lemma no_missing_elem_of (cells : list Value) v :
  no_missing cells = true → v ∈ cells →
  ∃ z, v = VInt z ∧ z ∈ column_ints cells.
Proof.
  intros Hall Hv. unfold no_missing in Hall. rewrite forallb_forall in Hall.
  specialize (Hall v (proj1 (list_elem_of_In _ _) Hv)).
  apply bool_decide_eq_true in Hall as [z Hz]. destruct v; simplify_eq/=.
  exists z. split; [done|]. apply list_elem_of_omap. by exists (VInt z).
Qed.

(** With pseudo-columns of integer dtype, no missing and no negative
    time and some odd time, the validation warns and leaves the time
    column doubled in the dataframe it was given, whether or not the
    diff check then raises. *)
Lemma validate_doubles (df : DataFrame) (cells : list Value) :
  column_ok df TIME_PSEUDOCOLUMN = true →
  column_ok df DIFF_PSEUDOCOLUMN = true →
  dict_get (df_columns df) TIME_PSEUDOCOLUMN = Some cells →
  no_missing cells = true →
  has_negative_time cells = false → has_odd_time cells = true →
  res_warnings (_validate_dataframe df) = [StreamGenerator.msg_doubled] ∧
  res_state (_validate_dataframe df) = double_times df cells.
Proof.
  intros Ht Hd Hc Hall Hneg Hodd. rewrite validate_run. unfold validate_outcome.
  rewrite Ht, Hd, Hc. cbn [negb andb]. unfold negative_test, odd_test.
  rewrite !series_any_ints by done.
  fold (has_negative_time cells). fold (has_odd_time cells).
  rewrite Hneg, Hodd. cbn [guard].
  destruct (diff_check_state (double_times df cells)) as [Hs Hw].
  destruct (diff_check _); simpl in *; by subst.
Qed.

(** A negative time without a missing value before it, like a
    pseudo-column that has no integer dtype, makes the validation raise
    [ValueError] with the dataframe as it was and no warning. *)
Lemma validate_negative (df : DataFrame) (cells : list Value) :
  dict_get (df_columns df) TIME_PSEUDOCOLUMN = Some cells →
  no_missing cells = true → has_negative_time cells = true →
  _validate_dataframe df = Raised ValueError df [].
Proof.
  intros Hc Hall Hneg. rewrite validate_run. unfold validate_outcome.
  destruct (negb _); [done|]. rewrite Hc. unfold negative_test.
  rewrite series_any_ints by done. fold (has_negative_time cells).
  by rewrite Hneg.
Qed.

Lemma validate_dtype (df : DataFrame) :
  column_ok df TIME_PSEUDOCOLUMN = false ∨
  column_ok df DIFF_PSEUDOCOLUMN = false →
  _validate_dataframe df = Raised ValueError df [].
Proof.
  intros H. rewrite validate_run. unfold validate_outcome.
  by destruct H as [-> | ->]; rewrite ?andb_false_r.
Qed.

(** The double of an integer is even in every dtype. *)
Lemma wrap_double_even (dtype : Dtype) (z : Z) :
  wrap dtype (2 * z) `mod` 2 = 0.
Proof.
  destruct dtype as [width signed|];
    [|simpl; by rewrite Z.mul_comm, Z.mod_mul].
  unfold wrap.
  assert (∃ k, 0 ≤ k ∧ bits width = k + 2) as (k & Hk & ->)
    by (destruct width; [exists 6|exists 14|exists 30|exists 62]; done).
  replace (k + 2 - 1) with (k + 1) by lia.
  rewrite !Z.pow_add_r by lia.
  change (2 ^ 2) with 4. change (2 ^ 1) with 2.
  assert (0 < 2 ^ k) as Hpos by (apply Z.pow_pos_nonneg; lia).
  destruct signed.
  - rewrite (Z.mod_eq (2 * z + 2 ^ k * 2)) by lia.
    match goal with |- (?a - ?q * ?d - ?h) `mod` 2 = 0 =>
      replace (a - q * d - h) with ((z - 2 ^ k * 2 * ((2 * z + 2 ^ k * 2) `div` (2 ^ k * 4))) * 2)
        by lia
    end.
    apply Z.mod_mul. done.
  - rewrite (Z.mod_eq (2 * z)) by lia.
    match goal with |- (?a - ?d * ?q) `mod` 2 = 0 =>
      replace (a - d * q) with ((z - 2 ^ k * 2 * q) * 2) by lia
    end.
    apply Z.mod_mul. done.
Qed.

Lemma column_double_ints (dtype : Dtype) (cells : list Value) :
  column_ints (column_double dtype cells)
  = (λ z, wrap dtype (2 * z)) <$> column_ints cells.
Proof.
  unfold column_ints, column_double.
  induction cells as [|v cells IH]; [done|].
  destruct v; cbn [fmap list_fmap omap list_omap value_int]; by rewrite IH.
Qed.

Lemma column_double_lookup (dtype : Dtype) (cells : list Value) i z :
  cells !! i = Some (VInt z) →
  column_double dtype cells !! i = Some (VInt (wrap dtype (2 * z))).
Proof. intros H. unfold column_double. by rewrite list_lookup_fmap, H. Qed.

Lemma diff_test_bad (cells : list Value) :
  (∃ v, v ∈ cells ∧ bad_diff v) → diff_test cells ≠ inr false.
Proof.
  intros (v & Hv & Hbad1 & Hbad2) [Hall Hex]%series_any_false.
  destruct (no_missing_elem_of _ _ Hall Hv) as (z & -> & Hz).
  apply not_true_iff_false in Hex. apply Hex, existsb_exists.
  exists z. split; [by apply list_elem_of_In|].
  apply andb_true_iff. split; apply negb_true_iff, Z.eqb_neq; congruence.
Qed.

(** A diff cell other than 1 and -1 makes the validation raise, be it at
    the dtype check, at the check of the times or at the check of the
    diffs. *)
Lemma validate_bad_diff (df : DataFrame) (cells : list Value) :
  dict_get (df_columns df) DIFF_PSEUDOCOLUMN = Some cells →
  (∃ v, v ∈ cells ∧ bad_diff v) →
  raises (_validate_dataframe df) = true.
Proof.
  intros Hd Hbad%diff_test_bad. rewrite validate_run.
  assert (∀ df', dict_get (df_columns df') DIFF_PSEUDOCOLUMN = Some cells →
                 raises (diff_check df') = true) as Hcheck.
  { intros df' Hd'. unfold diff_check. rewrite Hd'.
    by destruct (diff_test cells) as [e|[]]. }
  unfold validate_outcome. destruct (negb _); [done|].
  destruct (dict_get (df_columns df) TIME_PSEUDOCOLUMN) as [tcells|]; [|auto].
  destruct (negative_test tcells) as [e|[]]; [done..|]. cbn [guard].
  destruct (odd_test tcells) as [e|[]]; [done| |auto].
  specialize (Hcheck (double_times df tcells)).
  destruct (diff_check _); simpl in *; apply Hcheck;
    by rewrite dict_get_set_ne.
Qed.

(** The validation raises [ValueError], or [TypeError] when [any] meets
    a missing value. *)
Lemma validate_raises_kinds (df : DataFrame) e :
  res_value (_validate_dataframe df) = inl e →
  e = ValueError ∨ e = TypeError.
Proof.
  rewrite validate_run.
  assert (∀ df', res_value (diff_check df') = inl e →
                 e = ValueError ∨ e = TypeError) as Hcheck.
  { intros df'. unfold diff_check, diff_test.
    destruct (dict_get _ _) as [cells|]; [|done].
    destruct (series_any _) as [e'|[]] eqn:E; simpl; intros; simplify_eq;
      eauto using series_any_error. }
  unfold validate_outcome. destruct (negb _); [simpl; intros; simplify_eq; auto|].
  destruct (dict_get (df_columns df) TIME_PSEUDOCOLUMN) as [tcells|];
    [|apply Hcheck].
  unfold negative_test, odd_test.
  destruct (series_any _) as [e'|[]] eqn:E; simpl;
    [intros; simplify_eq; eauto using series_any_error
    |intros; simplify_eq; auto|].
  destruct (series_any (series_test (λ t, t `mod` 2 =? 1) tcells))
    as [e'|[]] eqn:E'; simpl;
    [intros; simplify_eq; eauto using series_any_error| |apply Hcheck].
  specialize (Hcheck (double_times df tcells)).
  destruct (diff_check _); simpl in *; auto.
Qed.

(** Without a missing value in the pseudo-columns it is [ValueError]. *)
Lemma validate_raises_ValueError (df : DataFrame) e :
  (∀ cells, dict_get (df_columns df) TIME_PSEUDOCOLUMN = Some cells →
            no_missing cells = true) →
  (∀ cells, dict_get (df_columns df) DIFF_PSEUDOCOLUMN = Some cells →
            no_missing cells = true) →
  res_value (_validate_dataframe df) = inl e → e = ValueError.
Proof.
  intros Htime Hdiff. rewrite validate_run.
  assert (∀ df', dict_get (df_columns df') DIFF_PSEUDOCOLUMN
                 = dict_get (df_columns df) DIFF_PSEUDOCOLUMN →
                 res_value (diff_check df') = inl e → e = ValueError) as Hcheck.
  { intros df' Heq. unfold diff_check, diff_test. rewrite Heq.
    destruct (dict_get (df_columns df) DIFF_PSEUDOCOLUMN) as [cells|] eqn:Hd;
      [|done].
    rewrite series_any_ints by auto.
    destruct (existsb _ _); simpl; intros; simplify_eq; done. }
  unfold validate_outcome. destruct (negb _); [simpl; intros; simplify_eq; auto|].
  destruct (dict_get (df_columns df) TIME_PSEUDOCOLUMN) as [tcells|] eqn:Ht;
    [|by apply Hcheck].
  unfold negative_test, odd_test. rewrite !series_any_ints by auto.
  destruct (existsb _ _); simpl; [intros; simplify_eq; auto|].
  destruct (existsb _ _); [|by apply Hcheck].
  specialize (Hcheck (double_times df tcells)).
  destruct (diff_check _); simpl in *; intros; apply Hcheck;
    try done; by rewrite dict_get_set_ne.
Qed.

(** *** [StreamGenerator.table_from_pandas] and the caller's dataframe *)

Lemma stateless_ret {S A} (a : A) : stateless (ret (S := S) a).
Proof. done. Qed.

Lemma stateless_raise {S A} e : stateless (raise (S := S) (A := A) e).
Proof. done. Qed.

Lemma stateless_bind {S A B} (m : M S A) (k : A → M S B) :
  stateless m → (∀ a, stateless (k a)) → stateless (bind m k).
Proof.
  intros Hm Hk s. unfold bind. specialize (Hm s).
  destruct (m s) as [a s1 w1|e s1 w1]; simpl in Hm; subst; [|done].
  specialize (Hk a s). by destruct (k a s).
Qed.

Lemma stateless_getitem {S V} (d : dict string V) k :
  stateless (dict_getitem (S := S) d k).
Proof. intros s. unfold dict_getitem. by destruct (dict_get d k). Qed.

Lemma stateless_map_m {S B C} (f : B → M S C) (l : list B) :
  (∀ x, stateless (f x)) → stateless (map_m f l).
Proof.
  intros Hf. induction l as [|x l IH]; [done|]. cbn [map_m].
  apply stateless_bind; [done|]. intros y.
  apply stateless_bind; [done|]. intros ys. done.
Qed.

Lemma stateless_row_cell {S} df i c : stateless (StreamGenerator.row_cell (S := S) df i c).
Proof.
  apply stateless_bind; [apply stateless_getitem|].
  intros cells s. by destruct (cells !! i).
Qed.

Lemma stateless_int_cell {S} df i c : stateless (StreamGenerator.int_cell (S := S) df i c).
Proof.
  apply stateless_bind; [apply stateless_row_cell|].
  intros v s. by destruct (value_int v).
Qed.

Lemma stateless_add_rows {S} denumpify df ids fields batches rows :
  stateless (StreamGenerator.add_rows (S := S) denumpify df ids fields batches rows).
Proof.
  revert batches. induction rows as [|i rows IH]; intros batches; [done|].
  cbn [StreamGenerator.add_rows]. apply stateless_bind; [|done].
  unfold StreamGenerator.add_row.
  apply stateless_bind; [apply stateless_int_cell|]. intros time.
  apply stateless_bind; [apply stateless_int_cell|]. intros worker.
  apply stateless_bind.
  { apply stateless_map_m. intros c.
    apply stateless_bind; [apply stateless_row_cell|done]. }
  intros values.
  apply stateless_bind; [apply stateless_int_cell|done].
Qed.

Lemma add_missing_column_run (df : DataFrame) c v :
  StreamGenerator.add_missing_column c v df = Returned () (add_default df c v) [].
Proof.
  unfold StreamGenerator.add_missing_column, add_default, bind, get, put, ret.
  by destruct (dict_contains (df_columns df) c).
Qed.

Lemma table_from_pandas_frame schema_from_pandas ids_from_pandas denumpify
    id_from unsafe_trusted_ids schema (df : DataFrame) (s : StreamGenerator.state) :
  (res_state (StreamGenerator.table_from_pandas
                schema_from_pandas ids_from_pandas denumpify
                id_from unsafe_trusted_ids schema (df, s))).1
  = with_stream_columns df.
Proof.
  unfold StreamGenerator.table_from_pandas.
  rewrite (bind_pure _ _ _ (df, s) (df, s)) by reflexivity. cbv beta.
  rewrite (bind_pure _ _ _ () (add_default df "_time" (VInt 2), s))
    by (unfold on_fst; by rewrite add_missing_column_run).
  rewrite (bind_pure _ _ _ ()
             (add_default (add_default df "_time" (VInt 2)) "_worker" (VInt 0), s))
    by (unfold on_fst; by rewrite add_missing_column_run).
  rewrite (bind_pure _ _ _ () (with_stream_columns df, s))
    by (unfold on_fst; by rewrite add_missing_column_run).
  rewrite (bind_pure _ _ _ (with_stream_columns df, s) (with_stream_columns df, s))
    by reflexivity.
  cbv beta. cbn [fst]. unfold bind.
  match goal with
  | |- context [StreamGenerator.add_rows ?d ?df ?ids ?f ?b ?rows ?st] =>
      pose proof (stateless_add_rows (S := DataFrame * StreamGenerator.state)
                    d df ids f b rows st) as Hst;
      destruct (StreamGenerator.add_rows d df ids f b rows st) as [b' st' w'|]
  end; simpl in Hst; subst; [|done].
  unfold on_snd. by destruct (StreamGenerator._table_from_dict_of _ _ _ _).
Qed.

Lemma dict_contains_get {V} (d : dict string V) k :
  dict_contains d k = bool_decide (is_Some (dict_get d k)).
Proof.
  unfold dict_contains, dict_keys. apply bool_decide_ext.
  induction d as [|[k' v] d IH]; simpl.
  - split; [by intros ?%elem_of_nil|by intros [? ?]].
  - destruct (decide (k' = k)) as [->|].
    + split; [by eexists|by left].
    + rewrite <- IH, elem_of_cons. split; [intros [->|?]; done|by right].
Qed.

Lemma add_default_get (df : DataFrame) c v :
  dict_get (df_columns (add_default df c v)) c
  = Some (default (replicate (df_len df) v) (dict_get (df_columns df) c)).
Proof.
  unfold add_default. rewrite dict_contains_get.
  destruct (dict_get (df_columns df) c) as [cells|] eqn:E.
  - rewrite bool_decide_eq_true_2 by eauto. by rewrite E.
  - rewrite bool_decide_eq_false_2 by (by intros [? ?]).
    apply dict_get_set_eq.
Qed.

Lemma add_default_get_ne (df : DataFrame) c c' v :
  c ≠ c' →
  dict_get (df_columns (add_default df c v)) c' = dict_get (df_columns df) c'.
Proof.
  intros Hne. unfold add_default. case_match; [done|].
  by apply dict_get_set_ne.
Qed.

Lemma add_default_index (df : DataFrame) c v :
  df_index (add_default df c v) = df_index df.
Proof. unfold add_default. by case_match. Qed.

Lemma with_stream_columns_get (df : DataFrame) c v :
  (c, v) ∈ stream_defaults →
  dict_get (df_columns (with_stream_columns df)) c
  = Some (default (replicate (df_len df) v) (dict_get (df_columns df) c)).
Proof.
  unfold stream_defaults, with_stream_columns, df_len.
  rewrite !elem_of_cons, elem_of_nil.
  intros [E|[E|[E|[]]]]; simplify_eq.
  - rewrite !add_default_get_ne by done. apply add_default_get.
  - rewrite add_default_get_ne by done. rewrite add_default_get.
    unfold df_len. by rewrite add_default_index, add_default_get_ne.
  - rewrite add_default_get. unfold df_len.
    by rewrite !add_default_index, !add_default_get_ne.
Qed.

Lemma with_stream_columns_get_ne (df : DataFrame) c :
  c ∉ stream_defaults.*1 →
  dict_get (df_columns (with_stream_columns df)) c = dict_get (df_columns df) c.
Proof.
  unfold stream_defaults, with_stream_columns. cbn [fmap list_fmap fst].
  rewrite !not_elem_of_cons. intros (? & ? & ? & _).
  by rewrite !add_default_get_ne.
Qed.

Section static_run.
Context (fingerprint : FingerprintArg → Z).
Context (schema_from_pandas : DataFrame → option (list string) → list string → Schema).

Lemma static_run id_from unsafe_trusted_ids schema (df : DataFrame) (g : Graph) :
  table_from_pandas fingerprint schema_from_pandas
    id_from unsafe_trusted_ids schema (df, g)
  = static_outcome fingerprint schema_from_pandas
      id_from unsafe_trusted_ids schema df g.
Proof.
  unfold table_from_pandas, static_outcome, schema_check.
  destruct (bool_decide (is_Some id_from ∧ is_Some schema)); [done|].
  cbn [when]. rewrite (bind_pure _ _ _ () (df, g)) by reflexivity.
  rewrite (bind_pure _ _ _ (df, g) (df, g)) by reflexivity. cbn [fst].
  assert (∀ (k : Schema → M (DataFrame * Graph) Table) (r : Res _ Table) o,
            (∀ sch, o = Some sch → k sch (df, g) = r) →
            (o = None → r = Raised ValueError (df, g) []) →
            ∀ m : M (DataFrame * Graph) Schema,
              m (df, g) = match o with
                          | Some sch => Returned sch (df, g) []
                          | None => Raised ValueError (df, g) []
                          end →
              bind m k (df, g) = r) as Hstep.
  { intros k r [sch|] Hs Hn m Hm.
    - rewrite (bind_pure _ _ _ _ _ Hm). by apply Hs.
    - rewrite (bind_raised _ _ _ _ _ _ Hm). symmetry. by apply Hn. }
  apply (Hstep _ _ (schema_check schema_from_pandas df id_from schema)).
  - intros sch Hsch. unfold schema_check in Hsch. rewrite Hsch.
    unfold on_fst at 1. unfold bind at 1. rewrite validate_run.
    destruct (validate_outcome df) as [[] df' w|e df' w]; [|done].
    unfold bind at 1, get at 1. cbn [fst]. unfold bind at 1.
    rewrite ids_df_run.
    destruct (identity_frame df' id_from) as [ids|]; [|by rewrite !app_nil_r].
    unfold bind at 1, on_snd, table_from_datasource. unfold bind at 1, get. cbn [snd fst].
    cbn [static_tables_cache universes].
    destruct (static_tables_cache g !! cache_key fingerprint ids unsafe_trusted_ids);
      unfold bind, ret, put; cbn [app static_tables_cache universes];
      by rewrite ?app_nil_r.
  - unfold schema_check. intros ->. done.
  - unfold schema_check. destruct schema as [sch|]; [|done].
    by destruct (bool_decide _).
Qed.
End static_run.

End StaticFacts.

(** ** The static cache *)

Module CacheFacts.
Import BuildFacts StaticSpec StaticFacts.

Lemma existsb_Permutation {B} (f : B → bool) (l k : list B) :
  l ≡ₚ k → existsb f l = existsb f k.
Proof.
  induction 1 as [|x l k _ IH|x y l|l k m _ IH1 _ IH2]; simpl.
  - done.
  - by rewrite IH.
  - by destruct (f x), (f y).
  - congruence.
Qed.

Lemma forallb_Permutation {B} (f : B → bool) (l k : list B) :
  l ≡ₚ k → forallb f l = forallb f k.
Proof.
  induction 1 as [|x l k _ IH|x y l|l k m _ IH1 _ IH2]; simpl.
  - done.
  - by rewrite IH.
  - by destruct (f x), (f y).
  - congruence.
Qed.

Lemma take_cells_seq (cells : list Value) :
  take_cells (seq 0 (length cells)) cells = cells.
Proof.
  apply list_eq. intros i. unfold take_cells. rewrite list_lookup_fmap.
  destruct (decide (i < length cells)%nat) as [Hlt|Hge].
  - rewrite lookup_seq_lt by done. simpl.
    destruct (lookup_lt_is_Some_2 cells i) as [v Hv]; [done|]. by rewrite Hv.
  - rewrite lookup_seq_ge by lia. simpl. symmetry. apply lookup_ge_None. lia.
Qed.

Lemma take_cells_perm (rows : list nat) (cells : list Value) :
  rows ≡ₚ seq 0 (length cells) → take_cells rows cells ≡ₚ cells.
Proof.
  intros H. rewrite <- (take_cells_seq cells) at 2. unfold take_cells.
  by rewrite H.
Qed.

Lemma take_cells_length rows cells : length (take_cells rows cells) = length rows.
Proof. unfold take_cells. by rewrite length_fmap. Qed.

Lemma take_cells_double dtype rows cells :
  column_double dtype (take_cells rows cells)
  = take_cells rows (column_double dtype cells).
Proof.
  unfold column_double, take_cells. rewrite <- !list_fmap_compose.
  apply list_fmap_ext. intros _ i _. simpl. rewrite list_lookup_fmap.
  by destruct (cells !! i).
Qed.

Lemma df_take_get (df : DataFrame) rows c :
  dict_get (df_columns (df_take df rows)) c
  = take_cells rows <$> dict_get (df_columns df) c.
Proof.
  unfold df_take. cbn [df_columns].
  induction (df_columns df) as [|[c' cells] cols IH]; [done|].
  cbn [fmap list_fmap dict_get fst snd].
  destruct (decide (c' = c)); [done|]. apply IH.
Qed.

Lemma df_take_keys (df : DataFrame) rows :
  dict_keys (df_columns (df_take df rows)) = dict_keys (df_columns df).
Proof.
  unfold df_take, dict_keys. cbn [df_columns].
  rewrite <- list_fmap_compose. by apply list_fmap_ext.
Qed.

Lemma df_take_len (df : DataFrame) rows : df_len (df_take df rows) = length rows.
Proof. unfold df_len, df_take. cbn [df_index]. apply take_cells_length. Qed.

Lemma take_cells_set (cols : dict string (list Value)) rows c x :
  dict_set ((λ nc : string * list Value, (nc.1, take_cells rows nc.2)) <$> cols)
           c (take_cells rows x)
  = (λ nc : string * list Value, (nc.1, take_cells rows nc.2))
      <$> dict_set cols c x.
Proof.
  induction cols as [|[c' cells] cols IH]; [done|].
  cbn [fmap list_fmap dict_set fst snd].
  destruct (decide (c' = c)); [done|].
  cbn [fmap list_fmap fst snd]. f_equal. apply IH.
Qed.

Lemma df_take_setitem (df : DataFrame) rows c x :
  df_setitem (df_take df rows) c (take_cells rows x)
  = df_take (df_setitem df c x) rows.
Proof.
  unfold df_setitem, df_take.
  cbn [df_index df_columns df_index_dtype df_dtypes]. f_equal.
  apply take_cells_set.
Qed.

Lemma df_take_assign (df : DataFrame) rows c dtype x :
  df_assign (df_take df rows) c dtype (take_cells rows x)
  = df_take (df_assign df c dtype x) rows.
Proof.
  unfold df_assign, df_take.
  cbn [df_index df_columns df_index_dtype df_dtypes]. f_equal.
  apply take_cells_set.
Qed.

Lemma df_take_dtype (df : DataFrame) rows c :
  df_dtype (df_take df rows) c = df_dtype df c.
Proof. done. Qed.

Lemma df_wf_get (df : DataFrame) c cells :
  df_wf df → dict_get (df_columns df) c = Some cells → length cells = df_len df.
Proof.
  unfold df_wf. rewrite Forall_forall. intros Hwf Hget.
  apply (Hwf (c, cells)), dict_get_Some_elem_of. done.
Qed.

Lemma dict_set_elem_of {V} (d : dict string V) c x kv :
  kv ∈ dict_set d c x → kv ∈ d ∨ kv = (c, x).
Proof.
  induction d as [|[c' v] d IH]; simpl.
  - intros ?%list_elem_of_singleton. by right.
  - destruct (decide (c' = c)) as [->|].
    + intros [->|?]%elem_of_cons; [by right|left; by right].
    + intros [->|?]%elem_of_cons; [left; by left|].
      destruct IH as [?|?]; [done|left; by right|by right].
Qed.

Lemma df_wf_setitem (df : DataFrame) c x :
  df_wf df → length x = df_len df → df_wf (df_setitem df c x).
Proof.
  unfold df_wf. rewrite !Forall_forall. intros Hwf Hlen kv Hin.
  apply dict_set_elem_of in Hin as [Hin| ->]; [by apply Hwf|done].
Qed.

Lemma df_wf_assign (df : DataFrame) c dtype x :
  df_wf df → length x = df_len df → df_wf (df_assign df c dtype x).
Proof.
  unfold df_wf. rewrite !Forall_forall. intros Hwf Hlen kv Hin.
  apply dict_set_elem_of in Hin as [Hin| ->]; [by apply Hwf|done].
Qed.

Section take.
Context (df : DataFrame) (rows : list nat).
Context (Hwf : df_wf df) (Hrows : rows ≡ₚ seq 0 (df_len df)).

Lemma rows_perm_cells c cells :
  dict_get (df_columns df) c = Some cells → take_cells rows cells ≡ₚ cells.
Proof.
  intros Hget. apply take_cells_perm.
  by rewrite (df_wf_get df c cells Hwf Hget).
Qed.

Lemma column_ok_take c : column_ok (df_take df rows) c = column_ok df c.
Proof.
  unfold column_ok. rewrite df_take_get.
  by destruct (dict_get (df_columns df) c).
Qed.

Lemma column_ints_take c cells :
  dict_get (df_columns df) c = Some cells →
  column_ints (take_cells rows cells) ≡ₚ column_ints cells.
Proof.
  intros Hget. unfold column_ints. by rewrite (rows_perm_cells c cells Hget).
Qed.

Lemma no_missing_take c cells :
  dict_get (df_columns df) c = Some cells →
  no_missing (take_cells rows cells) = no_missing cells.
Proof.
  intros Hget. unfold no_missing. apply forallb_Permutation.
  by eapply rows_perm_cells.
Qed.

(** A test that saw every cell comes out the same on the rearranged
    column. *)
Lemma series_any_take (test : Z → bool) c cells b :
  dict_get (df_columns df) c = Some cells →
  no_missing cells = true →
  series_any (series_test test cells) = inr b →
  series_any (series_test test (take_cells rows cells)) = inr b.
Proof.
  intros Hget Hall. rewrite !series_any_ints
    by (done || by erewrite no_missing_take).
  by rewrite (existsb_Permutation _ _ _ (column_ints_take _ _ Hget)).
Qed.

Lemma diff_check_take :
  raises (diff_check df) = false →
  diff_check (df_take df rows)
  = res_map_state (λ d, df_take d rows) (diff_check df).
Proof.
  unfold diff_check, diff_test. rewrite df_take_get.
  destruct (dict_get (df_columns df) DIFF_PSEUDOCOLUMN) as [cells|] eqn:Hget;
    [|done].
  cbn [fmap option_fmap option_map].
  destruct (series_any (series_test _ cells)) as [e|[]] eqn:E; [done..|].
  intros _. destruct (series_any_false _ _ E) as [Hall _].
  by rewrite (series_any_take _ _ _ _ Hget Hall E).
Qed.
End take.

Lemma with_warning_raises {S A} msg (r : Res S A) :
  raises (with_warning msg r) = raises r.
Proof. by destruct r. Qed.

(** A dataframe the validation accepts is accepted with its rows in any
    other order, and comes out the same but for the order. *)
Lemma validate_take (df : DataFrame) (rows : list nat) :
  df_wf df → rows ≡ₚ seq 0 (df_len df) →
  raises (validate_outcome df) = false →
  validate_outcome (df_take df rows)
  = res_map_state (λ d, df_take d rows) (validate_outcome df).
Proof.
  intros Hwf Hrows. unfold validate_outcome.
  rewrite !column_ok_take by done.
  destruct (negb _); [done|]. rewrite df_take_get.
  destruct (dict_get (df_columns df) TIME_PSEUDOCOLUMN) as [cells|] eqn:Hget;
    cbn [fmap option_fmap option_map]; [|by apply diff_check_take].
  unfold negative_test, odd_test.
  destruct (series_any (series_test (λ t, t <? 0) cells)) as [e|[]] eqn:Eneg;
    [done..|].
  destruct (series_any_false _ _ Eneg) as [Hall _].
  rewrite (series_any_take df rows Hwf Hrows _ _ _ _ Hget Hall Eneg).
  cbn [guard].
  destruct (series_any (series_test (λ t, t `mod` 2 =? 1) cells))
    as [e|b] eqn:Eodd; [done|].
  rewrite (series_any_take df rows Hwf Hrows _ _ _ _ Hget Hall Eodd).
  destruct b; [|by apply diff_check_take].
  rewrite with_warning_raises. intros Hok.
  unfold double_times. rewrite df_take_dtype, take_cells_double, df_take_setitem.
  rewrite diff_check_take.
  - by destruct (diff_check _).
  - apply df_wf_setitem; [done|].
    unfold column_double. rewrite length_fmap. by eapply df_wf_get.
  - done.
  - done.
Qed.

Lemma validate_wf (df : DataFrame) :
  df_wf df →
  df_wf (res_state (validate_outcome df)) ∧
  df_len (res_state (validate_outcome df)) = df_len df.
Proof.
  intros Hwf. unfold validate_outcome.
  assert (∀ d, res_state (diff_check d) = d) as Hd
    by (intros d; apply diff_check_state).
  destruct (negb _); [done|].
  destruct (dict_get (df_columns df) TIME_PSEUDOCOLUMN) as [cells|] eqn:Hget;
    [|by rewrite Hd].
  destruct (negative_test cells) as [e|[]]; [done..|]. cbn [guard].
  destruct (odd_test cells) as [e|[]]; [done| |by rewrite Hd].
  assert (res_state (with_warning StreamGenerator.msg_doubled
            (diff_check (double_times df cells)))
          = double_times df cells) as ->.
  { specialize (Hd (double_times df cells)).
    by destruct (diff_check _). }
  split; [|done]. apply df_wf_setitem; [done|].
  unfold column_double. rewrite length_fmap. by eapply df_wf_get.
Qed.

Lemma validate_index (df : DataFrame) :
  df_index (res_state (validate_outcome df)) = df_index df.
Proof.
  unfold validate_outcome.
  assert (∀ d, res_state (diff_check d) = d) as Hd
    by (intros d; apply diff_check_state).
  destruct (negb _); [done|].
  destruct (dict_get (df_columns df) TIME_PSEUDOCOLUMN) as [cells|] eqn:Hget;
    [|by rewrite Hd].
  destruct (negative_test cells) as [e|[]]; [done..|]. cbn [guard].
  destruct (odd_test cells) as [e|[]]; [done| |by rewrite Hd].
  specialize (Hd (double_times df cells)).
  by destruct (diff_check _); simpl in *; subst.
Qed.

(** Without [id_from] the identity frame has the column [id], holding
    the index labels, and the pseudo-columns that are present. *)
Lemma identity_frame_None (df : DataFrame) :
  ∃ ids, identity_frame df None = Some ids ∧
         df_index ids = df_index df ∧
         dict_get (df_columns ids) "id" = Some (df_index df) ∧
         ∀ c, c ∈ dict_keys (df_columns ids) →
              c = "id" ∨ c ∈ PANDAS_PSEUDOCOLUMNS.
Proof.
  assert (∀ (d : dict string (list Value)) k v c,
            c ∈ dict_keys (dict_set d k v) → c ∈ dict_keys d ∨ c = k) as Hset.
  { intros d k v c [kv [-> Hin]]%list_elem_of_fmap.
    apply dict_set_elem_of in Hin as [Hin| ->]; [left|by right].
    apply list_elem_of_fmap. by exists kv. }
  eexists. split; [reflexivity|].
  unfold PANDAS_PSEUDOCOLUMNS. cbn [foldl].
  destruct (dict_get (df_columns df) TIME_PSEUDOCOLUMN),
           (dict_get (df_columns df) DIFF_PSEUDOCOLUMN);
    (split_and!; [done|done|]); intros c; cbn [df_assign df_columns];
    intros Hc; repeat (apply Hset in Hc as [Hc| ->];
                       [|rewrite !elem_of_cons; by auto]);
    apply list_elem_of_singleton in Hc as ->; by left.
Qed.

Lemma select_columns_take (df : DataFrame) rows columns :
  select_columns (df_take df rows) columns
  = (λ d, df_take d rows) <$> select_columns df columns.
Proof.
  unfold select_columns.
  assert (mapM (λ column, (column,.) <$> dict_get (df_columns (df_take df rows)) column)
               columns
          = fmap (M := list) (λ nc : string * list Value, (nc.1, take_cells rows nc.2))
              <$> mapM (λ column, (column,.) <$> dict_get (df_columns df) column)
                       columns) as ->.
  { induction columns as [|c columns IH]; [done|].
    cbn [mapM]. rewrite IH, df_take_get. clear IH.
    destruct (dict_get (df_columns df) c); [|done]. cbn.
    by destruct (mapM _ columns). }
  by destruct (mapM _ columns).
Qed.

Lemma identity_frame_base_take (df : DataFrame) rows id_from :
  match id_from with
  | None => Some (mkDataFrame (df_index (df_take df rows))
                    (df_index_dtype (df_take df rows))
                    [("id", df_index (df_take df rows))]
                    [("id", df_index_dtype (df_take df rows))])
  | Some columns => select_columns (df_take df rows) columns
  end
  = (λ ids, df_take ids rows)
      <$> match id_from with
          | None => Some (mkDataFrame (df_index df) (df_index_dtype df)
                            [("id", df_index df)] [("id", df_index_dtype df)])
          | Some columns => select_columns df columns
          end.
Proof. destruct id_from; [apply select_columns_take|done]. Qed.

Lemma identity_frame_take (df : DataFrame) rows id_from :
  identity_frame (df_take df rows) id_from
  = (λ ids, df_take ids rows) <$> identity_frame df id_from.
Proof.
  unfold identity_frame. rewrite identity_frame_base_take.
  destruct (match id_from with
            | None => Some _
            | Some columns => select_columns df columns
            end) as [ids|]; [|done].
  cbn [fmap option_fmap option_map]. f_equal.
  unfold PANDAS_PSEUDOCOLUMNS. cbn [foldl]. rewrite !df_take_get, !df_take_dtype.
  destruct (dict_get (df_columns df) TIME_PSEUDOCOLUMN),
           (dict_get (df_columns df) DIFF_PSEUDOCOLUMN);
    cbn [fmap option_fmap option_map]; by rewrite ?df_take_assign.
Qed.

Lemma select_columns_wf (df : DataFrame) columns ids :
  df_wf df → select_columns df columns = Some ids →
  df_wf ids ∧ df_len ids = df_len df.
Proof.
  unfold select_columns. intros Hwf Hsel.
  destruct (mapM _ columns) as [l|] eqn:Hl; simplify_eq/=.
  split; [|done]. unfold df_wf, df_len. cbn [df_columns df_index].
  revert l Hl. induction columns as [|c columns IH]; intros l Hl.
  - injection Hl as <-. constructor.
  - cbn [mapM] in Hl.
    destruct (dict_get (df_columns df) c) as [cells|] eqn:Hget; simplify_eq/=.
    destruct (mapM _ columns) as [l'|]; simplify_eq/=.
    injection Hl as <-.
    constructor; [by eapply df_wf_get|by apply IH].
Qed.

Lemma identity_frame_wf (df : DataFrame) id_from ids :
  df_wf df → identity_frame df id_from = Some ids →
  df_wf ids ∧ df_len ids = df_len df.
Proof.
  intros Hwf. unfold identity_frame.
  destruct (match id_from with
            | None => Some _
            | Some columns => select_columns df columns
            end) as [base|] eqn:Hbase; [|done].
  assert (df_wf base ∧ df_len base = df_len df) as [Hb Hlen].
  { destruct id_from; [by eapply select_columns_wf|]. simplify_eq.
    split; [|done]. by repeat constructor. }
  cbn [fmap option_fmap option_map]. intros [= <-].
  unfold PANDAS_PSEUDOCOLUMNS. cbn [foldl].
  destruct (dict_get (df_columns df) TIME_PSEUDOCOLUMN) as [tc|] eqn:Ht;
    destruct (dict_get (df_columns df) DIFF_PSEUDOCOLUMN) as [dc|] eqn:Hd;
    (split; [|done]);
    repeat (apply df_wf_assign; [|unfold df_assign, df_len; cbn [df_index];
                                  fold (df_len base); rewrite Hlen;
                                  by eapply df_wf_get]);
    done.
Qed.

Lemma record_at_take (ids : DataFrame) rows j r :
  df_wf ids → rows !! j = Some r → (r < df_len ids)%nat →
  record_at (df_take ids rows) j = record_at ids r.
Proof.
  unfold df_wf, record_at, df_take. cbn [df_columns].
  intros Hwf Hj Hr.
  induction Hwf as [|[name cells] cols Hlen _ IH]; [done|].
  cbn [fmap list_fmap omap list_omap fst snd] in *.
  unfold take_cells at 1. rewrite list_lookup_fmap, Hj. cbn.
  destruct (lookup_lt_is_Some_2 cells r) as [v Hv]; [lia|].
  rewrite Hv. cbn. f_equal. apply IH.
Qed.

Lemma df_records_take (ids : DataFrame) rows :
  df_wf ids → rows ≡ₚ seq 0 (df_len ids) →
  df_records (df_take ids rows) ≡ₚ df_records ids.
Proof.
  intros Hwf Hrows.
  change (df_records ids) with (record_at ids <$> seq 0 (df_len ids)).
  change (df_records (df_take ids rows))
    with (record_at (df_take ids rows) <$> seq 0 (df_len (df_take ids rows))).
  rewrite df_take_len, <- Hrows.
  assert (record_at (df_take ids rows) <$> seq 0 (length rows)
          = record_at ids <$> rows) as ->; [|done].
  apply list_eq. intros j. rewrite !list_lookup_fmap.
  destruct (rows !! j) as [r|] eqn:Hj.
  - rewrite lookup_seq_lt by (by eapply lookup_lt_Some). cbn. f_equal.
    apply record_at_take; [done..|].
    assert (r ∈ seq 0 (df_len ids)) as Hin
      by (rewrite <- Hrows; by eapply list_elem_of_lookup_2).
    apply elem_of_seq in Hin. lia.
  - rewrite lookup_seq_ge; [done|]. by apply lookup_ge_None.
Qed.

Lemma merge_sort_perm (l k : list Z) :
  l ≡ₚ k → merge_sort Z.le l = merge_sort Z.le k.
Proof.
  intros H. apply (Sorted_unique Z.le).
  - apply Sorted_merge_sort; apply _.
  - apply Sorted_merge_sort; apply _.
  - by rewrite !merge_sort_Permutation.
Qed.

Lemma fmap_perm_inj {B C} (f : B → C) (l k : list B) :
  (∀ x y, f x = f y → x = y) → f <$> l ≡ₚ f <$> k → l ≡ₚ k.
Proof.
  intros Hinj Hp. apply Permutation_map_inv in Hp as (k' & Heq & Hk').
  assert (l = k') as ->; [|by symmetry].
  clear Hk'. revert k' Heq. induction l as [|x l IH]; intros [|y k'] Heq;
    simplify_eq/=; [done|].
  f_equal; [by apply Hinj|by apply IH].
Qed.

Section keys.
Context (fingerprint : FingerprintArg → Z).

Lemma cache_key_perm (ids1 ids2 : DataFrame) b :
  df_records ids1 ≡ₚ df_records ids2 →
  cache_key fingerprint ids1 b = cache_key fingerprint ids2 b.
Proof.
  intros H. unfold cache_key. f_equal. f_equal. apply merge_sort_perm.
  by rewrite H.
Qed.

Lemma cache_key_inj (ids1 ids2 : DataFrame) b1 b2 :
  (∀ x y, fingerprint x = fingerprint y → x = y) →
  cache_key fingerprint ids1 b1 = cache_key fingerprint ids2 b2 →
  b1 = b2 ∧ df_records ids1 ≡ₚ df_records ids2.
Proof.
  intros Hinj Hkey. unfold cache_key in Hkey. apply Hinj in Hkey.
  injection Hkey as -> Hsorted. split; [done|].
  apply (fmap_perm_inj (λ x, fingerprint (FRecord x))).
  - intros x y Hxy. apply Hinj in Hxy. by injection Hxy.
  - rewrite <- (merge_sort_Permutation Z.le (_ <$> df_records ids1)),
            <- (merge_sort_Permutation Z.le (_ <$> df_records ids2)).
    by rewrite Hsorted.
Qed.
End keys.

Section builds.
Context (fingerprint : FingerprintArg → Z).
Context (schema_from_pandas : DataFrame → option (list string) → list string → Schema).

(** What a build that returned went through. *)
Lemma static_returned id_from b schema (df df' : DataFrame) (g g' : Graph) t w :
  table_from_pandas fingerprint schema_from_pandas id_from b schema (df, g)
    = Returned t (df', g') w →
  ∃ sch ids,
    bool_decide (is_Some id_from ∧ is_Some schema) = false ∧
    schema_check schema_from_pandas df id_from schema = Some sch ∧
    validate_outcome df = Returned () df' w ∧
    identity_frame df' id_from = Some ids ∧
    match static_tables_cache g !! cache_key fingerprint ids b with
    | Some cached =>
        t = with_universe_of (mkTable sch df' b (universes g)) cached ∧
        g' = mkGraph (static_tables_cache g) (universes g + 1)%N
    | None =>
        t = mkTable sch df' b (universes g) ∧
        g' = mkGraph (<[cache_key fingerprint ids b
                        := mkTable sch df' b (universes g)]>
                        (static_tables_cache g))
                     (universes g + 1)%N
    end.
Proof.
  rewrite static_run. unfold static_outcome.
  destruct (bool_decide _); [done|].
  destruct (schema_check _ _ _ _) as [sch|]; [|done].
  destruct (validate_outcome df) as [[] d w'|]; [|done].
  destruct (identity_frame d id_from) as [ids|] eqn:Hids; [|done].
  intros Hrun. exists sch, ids.
  destruct (static_tables_cache g !! _) eqn:Hc; simplify_eq;
    rewrite Hids; split_and!; try done; by rewrite Hc.
Qed.

Lemma schema_check_take (df : DataFrame) rows id_from schema sch :
  schema_check schema_from_pandas df id_from schema = Some sch →
  ∃ sch', schema_check schema_from_pandas (df_take df rows) id_from schema
          = Some sch'.
Proof.
  unfold schema_check. destruct schema as [given|]; [|by eexists].
  rewrite df_take_keys. intros ->. by eexists.
Qed.

(** A second build from the same rows in another order hits the cache. *)
Lemma rebuild_hits id_from b schema (df df1 : DataFrame) rows (g g1 : Graph) t1 w1 :
  df_wf df → rows ≡ₚ seq 0 (df_len df) →
  table_from_pandas fingerprint schema_from_pandas id_from b schema (df, g)
    = Returned t1 (df1, g1) w1 →
  ∃ t2,
    table_from_pandas fingerprint schema_from_pandas id_from b schema
      (df_take df rows, g1)
    = Returned t2 (df_take df1 rows,
                   mkGraph (static_tables_cache g1) (universes g1 + 1)%N) w1 ∧
    table_universe t2 = table_universe t1.
Proof.
  intros Hwf Hrows Hrun.
  apply static_returned in Hrun as (sch & ids & Hguard & Hsch & Hval & Hids & Hc).
  destruct (schema_check_take df rows _ _ _ Hsch) as [sch' Hsch'].
  pose proof (validate_wf df Hwf) as [Hwf1 Hlen1]. rewrite Hval in Hwf1, Hlen1.
  simpl in Hwf1, Hlen1.
  pose proof (identity_frame_wf df1 id_from ids Hwf1 Hids) as [Hwfi Hleni].
  assert (cache_key fingerprint (df_take ids rows) b = cache_key fingerprint ids b)
    as Hkey.
  { apply cache_key_perm, df_records_take; [done|]. by rewrite Hleni, Hlen1. }
  rewrite static_run. unfold static_outcome.
  rewrite Hguard, Hsch', (validate_take df rows Hwf Hrows), Hval
    by (by rewrite Hval).
  cbn [res_map_state]. rewrite identity_frame_take, Hids.
  cbn [fmap option_fmap option_map]. rewrite Hkey.
  destruct (static_tables_cache g !! cache_key fingerprint ids b) as [cached|]
    eqn:Hlook; destruct Hc as [-> ->]; cbn [static_tables_cache universes].
  - rewrite Hlook. by eexists.
  - rewrite lookup_insert_eq. by eexists.
Qed.

(** What the cache does to a build that returned. *)
Lemma build_universe id_from b schema (df df' : DataFrame) (g g' : Graph) t w :
  graph_wf g →
  table_from_pandas fingerprint schema_from_pandas id_from b schema (df, g)
    = Returned t (df', g') w →
  graph_wf g' ∧
  ∃ ids, identity_frame df' id_from = Some ids ∧
    match static_tables_cache g !! cache_key fingerprint ids b with
    | Some cached =>
        table_universe t = table_universe cached ∧
        static_tables_cache g' = static_tables_cache g
    | None =>
        table_universe t = universes g ∧
        (∀ key c, static_tables_cache g !! key = Some c →
                  table_universe c ≠ table_universe t) ∧
        static_tables_cache g'
        = <[cache_key fingerprint ids b := t]> (static_tables_cache g)
    end.
Proof.
  intros Hg Hrun.
  apply static_returned in Hrun as (sch & ids & _ & _ & _ & Hids & Hc).
  destruct (static_tables_cache g !! cache_key fingerprint ids b) as [cached|]
    eqn:Hlook; destruct Hc as [-> ->].
  - split.
    + intros key c Hkc. cbn in *. specialize (Hg key c Hkc). lia.
    + exists ids. by rewrite Hlook.
  - split.
    + intros key c. cbn. intros Hkc.
      apply lookup_insert_Some in Hkc as [[_ <-]|[_ Hkc]]; cbn; [lia|].
      specialize (Hg key c Hkc). lia.
    + exists ids. rewrite Hlook. split; [done|]. split_and!; [done| |done].
      intros key c Hkc. cbn. specialize (Hg key c Hkc). lia.
Qed.
End builds.

End CacheFacts.

(** ** Printing *)

Module PrintFacts.

Lemma map_e_ok {B C} (f : B → exn + C) (l : list B) :
  (∀ x, x ∈ l → ∃ y, f x = inr y) →
  ∃ ys, map_e f l = inr ys ∧ length ys = length l.
Proof.
  induction l as [|x l IH]; intros Hf; simpl; [by eexists|].
  destruct (Hf x) as [y ->]; [by left|].
  destruct IH as (ys & -> & Hlen); [intros; apply Hf; by right|].
  exists (y :: ys). simpl. by rewrite Hlen.
Qed.

Lemma max_lens_ok (header : list string) (rest : list (list string)) :
  header ≠ [] →
  Forall (λ row, length row = length header) rest →
  ∃ lens, max_lens (header :: rest) = inr lens.
Proof.
  intros Hne Hrows. unfold max_lens.
  change (default [] (head (header :: rest))) with header.
  destruct (map_e_ok
    (λ i, match map_e (λ row : list string,
                         match row !! i with
                         | Some cell => inr (String.length cell)
                         | None => inl IndexError
                         end) (header :: rest) with
          | inl e => inl e
          | inr lens => max_of lens
          end)
    (seq 0 (length header))) as (lens & -> & Hlen).
  - intros i Hi%elem_of_seq.
    destruct (map_e_ok
      (λ row : list string,
         match row !! i with
         | Some cell => inr (String.length cell)
         | None => inl IndexError
         end) (header :: rest)) as (ls & -> & Hls).
    + intros row Hrow.
      assert (length row = length header) as Hrl.
      { apply elem_of_cons in Hrow as [->|Hrow]; [done|].
        rewrite Forall_forall in Hrows. by apply Hrows. }
      destruct (lookup_lt_is_Some_2 row i) as [cell ->]; [lia|]. by eexists.
    + destruct ls; simpl in *; [lia|]. by eexists.
  - rewrite length_seq in Hlen. destruct lens; [|by eexists].
    destruct header; simpl in *; [done|lia].
Qed.

Lemma map_e_length {B C} (f : B → exn + C) (l : list B) ys :
  map_e f l = inr ys → length ys = length l.
Proof.
  revert ys. induction l as [|x l IH]; intros ys; simpl.
  - by intros [= <-].
  - destruct (f x) as [e|y]; [done|].
    destruct (map_e f l) as [e|ys']; [done|].
    intros [= <-]. simpl. by rewrite (IH ys').
Qed.

(** There is one width per cell of the header. *)
Lemma max_lens_length (data : list (list string)) lens :
  max_lens data = inr lens → length lens = length (default [] (head data)).
Proof.
  unfold max_lens. destruct (map_e _ _) as [e|lens0] eqn:E; [done|].
  apply map_e_length in E. rewrite length_seq in E.
  destruct lens0 as [|n lens0]; [done|]. intros [= <-].
  by rewrite length_insert.
Qed.

Section printing_facts.
Context (py_str : Value → string).
Context (py_eq py_lt : Value → Value → exn + bool).
Context (squash_updates : list CapturedRow → dict Pointer (list Value)).

Lemma format_data_lookup columns include_id short_pointers
    (rows : list OutputRow) i key values :
  rows !! i = Some (key, values) →
  format_data py_str columns include_id short_pointers rows !! S i
  = Some ((if include_id
           then [_format py_str (none_string include_id columns) short_pointers
                   (VPointer key)]
           else [])
          ++ (_format py_str (none_string include_id columns) short_pointers
                <$> values)).
Proof.
  intros Hi. unfold format_data.
  match goal with
  | |- (?h :: ?t) !! S i = _ => change ((h :: t) !! S i) with (t !! i)
  end.
  rewrite list_lookup_fmap. unfold OutputRow in *. by rewrite Hi.
Qed.

Lemma print_rows_ok columns include_id short_pointers n_rows
    (output_data : list OutputRow) :
  bool_decide (columns = []) && negb include_id = false →
  Forall (λ row : OutputRow, length row.2 = length columns) output_data →
  ∃ lines, print_rows py_str columns include_id short_pointers n_rows output_data
           = inr lines.
Proof.
  intros Hguard Hrows. unfold print_rows.
  set (rows := match n_rows with None => output_data | Some n => take n output_data end).
  assert (Forall (λ row : OutputRow, length row.2 = length columns) rows) as Hr.
  { subst rows. destruct n_rows; [by apply Forall_take|done]. }
  unfold format_data.
  edestruct max_lens_ok as [lens ->]; [| |by eexists].
  - destruct include_id; [done|]. destruct columns; [done|done].
  - rewrite Forall_fmap. eapply Forall_impl; [exact Hr|].
    intros [key values] Hlen. simpl in *.
    destruct include_id; simpl; rewrite ?length_fmap; by rewrite Hlen.
Qed.
Lemma sorted_insert_perm (key : OutputRow → list KeyItem) x l l' :
  sorted_insert py_eq py_lt key x l = inr l' → l' ≡ₚ x :: l.
Proof.
  revert l'. induction l as [|y l IH]; intros l'; cbn [sorted_insert].
  - by intros [= <-].
  - destruct (tuple_lt py_eq py_lt (key x) (key y)) as [e|[]]; [done| |].
    + by intros [= <-].
    + destruct (sorted_insert py_eq py_lt key x l) as [e|r]; [done|].
      intros [= <-]. rewrite (IH r eq_refl). apply perm_swap.
Qed.

Lemma sorted_perm (key : OutputRow → list KeyItem) l l' :
  sorted py_eq py_lt key l = inr l' → l' ≡ₚ l.
Proof.
  unfold sorted.
  assert (∀ acc : list OutputRow,
            foldl (λ acc x,
                     match acc with
                     | inl e => inl e
                     | inr done => sorted_insert py_eq py_lt key x done
                     end) (inr acc) l = inr l' → l' ≡ₚ acc ++ l) as H.
  { induction l as [|x l IH]; intros acc; cbn [foldl].
    - intros [= <-]. by rewrite app_nil_r.
    - destruct (sorted_insert py_eq py_lt key x acc) as [e|acc'] eqn:E.
      + intros Hf. exfalso. clear IH E. induction l; simpl in Hf; auto. done.
      + intros Hf%IH. rewrite Hf, (sorted_insert_perm key x acc acc' E).
        simpl. apply Permutation_middle. }
  intros Hf. by apply (H []).
Qed.

Lemma try_sorted_perm (key : OutputRow → list KeyItem) l l' :
  try_sorted py_eq py_lt key l = inr l' → l' ≡ₚ l.
Proof.
  unfold try_sorted.
  destruct (sorted py_eq py_lt key l) as [[]|r] eqn:E; try done.
  - by intros [= <-].
  - intros [= <-]. by apply (sorted_perm key).
Qed.

End printing_facts.

End PrintFacts.

(** * The claims *)

Section stream_claims.
Import StreamGenerator BuildSpec BuildFacts.

  (** C1.  For every batch mapping, the sequence registered for a worker
      is built timestamp by timestamp in ascending order: for each
      timestamp the barrier [AdvanceTime timestamp] comes first, for every
      worker of the batch set whether or not it has rows there, and the
      worker's insertions and deletions follow in row order.  A
      construction that returns has registered exactly that sequence; one
      that raises has registered a prefix of it.  In every case the
      barrier times of the sequence increase and the sequence, when not
      empty, starts with a barrier. *)
Theorem C1_build_order (batches : Batches) (schema : Schema) (s : state) :
  batches_wf batches →
  let r := _table_from_dict batches schema s in
  let pid := next_id s in
  (has_negative batches = false → all_valid batches = true →
     res_value r = inr (mkStreamTable pid schema)) ∧
  ∀ w, w ∈ workers_of batches →
    ∃ l, events (res_state r) !! (pid, w) = Some l ∧
      l `prefix_of` worker_events (normalized batches) w ∧
      (res_value r = inr (mkStreamTable pid schema) →
         l = worker_events (normalized batches) w) ∧
      barrier_times (worker_events (normalized batches) w)
        = merge_sort Z.le (dict_keys (normalized batches)) ∧
      StronglySorted Z.lt (barrier_times l) ∧
      (∀ e, head l = Some e → ∃ t, e = AdvanceTime t).
Proof.
  intros Hwf r pid.
  assert (∀ w l, l `prefix_of` worker_events (normalized batches) w →
            StronglySorted Z.lt (barrier_times l) ∧
            (∀ e, head l = Some e → ∃ t, e = AdvanceTime t)) as Hshape.
  { intros w l [k Hk]. split.
    - pose proof (barrier_times_worker_events (normalized batches) w) as Hb.
      rewrite Hk, barrier_times_app in Hb.
      eapply StronglySorted_app_1_l. rewrite Hb.
      apply sorted_keys_strict, normalized_wf, Hwf.
    - intros e He. destruct l as [|e' l]; simplify_eq/=.
      unfold worker_events in Hk.
      destruct (merge_sort Z.le (dict_keys (normalized batches))); simplify_eq/=.
      by eexists. }
  destruct (has_negative batches) eqn:Hneg.
  - split; [done|]. intros w Hw. subst r.
    rewrite (negative_run _ _ _ Hneg). simpl. exists [].
    rewrite init_events_lookup, decide_True
      by (split; [done|by apply elem_of_elements]).
    split_and!; [done|apply prefix_nil|done|
                 apply barrier_times_worker_events|constructor|done].
  - destruct (table_from_dict_outcome batches schema s Hwf Hneg)
      as (_ & _ & _ & H).
    fold r pid in H. destruct (all_valid batches).
    + destruct H as [Hr He]. split; [done|]. intros w Hw.
      exists (worker_events (normalized batches) w).
      destruct (Hshape w (worker_events (normalized batches) w)) as [? ?];
        [done|].
      split_and!; auto using barrier_times_worker_events.
    + destruct H as [Hr He]. split; [done|]. intros w Hw.
      destruct (He w Hw) as (l & Hl & Hp). exists l.
      destruct (Hshape w l Hp) as [? ?].
      split_and!; auto using barrier_times_worker_events.
      rewrite Hr. done.
Qed.

  (** C5.  A batch set with a negative timestamp makes [_table_from_dict]
      raise [ValueError] without a warning, and before any event is
      appended: the lists of the new stream are empty and every other
      list of the registry is as it was. *)
Theorem C5_negative_timestamp (batches : Batches) (schema : Schema) (s : state) :
  has_negative batches = true →
  let r := _table_from_dict batches schema s in
  res_value r = inl ValueError ∧
  res_warnings r = [] ∧
  ∀ p w, events (res_state r) !! (p, w)
         = if decide (p = next_id s ∧ w ∈ workers_of batches)
           then Some [] else events s !! (p, w).
Proof.
  intros Hneg r. subst r. rewrite (negative_run _ _ _ Hneg). simpl.
  split_and!; [done..|]. intros p w. rewrite init_events_lookup.
  destruct (decide (p = next_id s ∧ w ∈ workers_of batches)) as [[-> Hw]|Hn].
  - rewrite decide_True; [done|]. split; [done|]. by apply elem_of_elements.
  - rewrite decide_False; [done|]. intros [? ?%elem_of_elements]. by apply Hn.
Qed.

Lemma C1_build_order_witness :
  batches_wf ex_batches ∧
  ∃ l, events (res_state (_table_from_dict ex_batches [] ex_state))
         !! ("_stream_generator_0", 1) = Some l ∧
       l = [AdvanceTime 2; Insert k2 [VInt 7]; AdvanceTime 4].
Proof.
  assert (batches_wf ex_batches) as Hwf
    by (apply (bool_decide_unpack _); vm_compute; exact I).
  split; [exact Hwf|].
  destruct (C1_build_order ex_batches [] ex_state Hwf) as [Hret Hw].
  destruct (Hw 1) as (l & Hl & _ & Heq & _).
  { apply (bool_decide_unpack _). vm_compute. exact I. }
  exists l. split; [exact Hl|].
  rewrite Heq; [|apply Hret]; vm_compute; reflexivity.
Defined.

Lemma C5_negative_timestamp_witness :
  has_negative ex_negative_batches = true ∧
  res_value (_table_from_dict ex_negative_batches [] ex_state) = inl ValueError ∧
  events (res_state (_table_from_dict ex_negative_batches [] ex_state))
    !! ("_stream_generator_0", 1) = Some [].
Proof.
  assert (has_negative ex_negative_batches = true) as Hneg by reflexivity.
  split; [exact Hneg|].
  destruct (C5_negative_timestamp ex_negative_batches [] ex_state Hneg)
    as (Hr & _ & He).
  split; [exact Hr|]. rewrite He. vm_compute. reflexivity.
Defined.

  (** C4.  At a batch set whose only timestamp is 0 the construction
      returns and the rows are built untransformed, but no warning is
      emitted: the guard [any(timestamp for timestamp in timestamps if
      timestamp == 0)] tests the truth value of the timestamp 0 itself. *)
Theorem C4_zero_timestamp_no_warning :
  let r := _table_from_dict ex_backfill_batches [] ex_state in
  res_value r = inr (mkStreamTable "_stream_generator_0" []) ∧
  res_warnings r = [] ∧
  events (res_state r) !! ("_stream_generator_0", 0)
    = Some [AdvanceTime 0; Insert k1 [VInt 10]].
Proof. vm_compute. done. Qed.

  (** The warning of timestamp 0 is emitted for no batch set at all. *)
Lemma backfill_warning_never (batches : Batches) (schema : Schema) (s : state) :
    batches_wf batches →
    msg_backfill ∉ res_warnings (_table_from_dict batches schema s).
Proof.
    intros Hwf. destruct (has_negative batches) eqn:Hneg.
    - rewrite (negative_run _ _ _ Hneg). simpl. by intros ?%elem_of_nil.
    - destruct (table_from_dict_outcome batches schema s Hwf Hneg) as (-> & _).
      case_match; [|by intros ?%elem_of_nil].
      intros ?%list_elem_of_singleton. done.
Qed.
End stream_claims.

Section mixed_claims.
Import BuildSpec BuildFacts StaticSpec StaticFacts.

(** C3, as stated, fails in the stream builder: a row of diff 2 after a
    row of diff 1 makes [StreamGenerator._table_from_dict] raise, and the registry holds
    the barrier and the first row of the failed stream. *)
Lemma C3_counterexample :
  let r := StreamGenerator._table_from_dict ex_bad_diff_batches [] ex_state in
  res_value r = inl ValueError ∧
  StreamGenerator.events (res_state r) !! ("_stream_generator_0", 0)
    = Some [AdvanceTime 2; Insert k1 [VInt 10]].
Proof. vm_compute. done. Qed.

(** C3, amended.  A row whose diff is neither 1 nor -1 makes the
    construction raise.  In the stream builder the error, [ValueError],
    is raised when the loop reaches the row and nothing is rolled back:
    the registry holds for every worker of the failed stream exactly
    what the loop had appended by then, which is a prefix of the
    worker's sequence and begins with the barrier of the smallest
    timestamp; only next to a negative timestamp, which raises before
    the loop, are the lists left empty.  In the static path the
    validation raises before a table is built, so the graph, and with it
    the table cache, is as it was; the error is [ValueError], also
    [TypeError] when [any] meets a missing value first. *)
Theorem C3_bad_diff_raises (fingerprint : FingerprintArg → Z)
    (schema_from_pandas : DataFrame → option (list string) → list string → Schema) :
  (∀ (batches : Batches) schema s t batch w changes c,
     batches_wf batches →
     (t, batch) ∈ batches → (w, changes) ∈ batch → c ∈ changes →
     valid_change c = false →
     let r := StreamGenerator._table_from_dict batches schema s in
     res_value r = inl ValueError ∧
     ∀ w, w ∈ workers_of batches →
       StreamGenerator.events (res_state r) !! (next_id s, w)
       = Some (if has_negative batches then []
               else registered (normalized batches) w) ∧
       registered (normalized batches) w
         `prefix_of` worker_events (normalized batches) w ∧
       ∃ t0 ts l,
         merge_sort Z.le (dict_keys (normalized batches)) = t0 :: ts ∧
         registered (normalized batches) w = AdvanceTime t0 :: l) ∧
  (∀ (df : DataFrame) (g : Graph) id_from unsafe_trusted_ids schema cells v,
     dict_get (df_columns df) DIFF_PSEUDOCOLUMN = Some cells →
     v ∈ cells → bad_diff v →
     let r := table_from_pandas fingerprint schema_from_pandas
                id_from unsafe_trusted_ids schema (df, g) in
     raises r = true ∧ (res_state r).2 = g ∧
     (res_value r = inl ValueError ∨ res_value r = inl TypeError) ∧
     ((∀ c column, c ∈ PANDAS_PSEUDOCOLUMNS →
         dict_get (df_columns df) c = Some column → no_missing column = true) →
      res_value r = inl ValueError)).
Proof.
  split.
  - intros batches schema s t batch w changes c Hwf Hb Hw Hc Hv r.
    pose proof (all_valid_false _ _ _ _ _ _ Hb Hw Hc Hv) as Hall.
    assert (∀ w', registered (normalized batches) w'
                    `prefix_of` worker_events (normalized batches) w' ∧
                  ∃ t0 ts l,
                    merge_sort Z.le (dict_keys (normalized batches)) = t0 :: ts ∧
                    registered (normalized batches) w' = AdvanceTime t0 :: l)
      as Hreg.
    { intros w'. split; [by apply registered_prefix, normalized_wf|].
      apply registered_head. intros Hnil%normalized_keys_nil.
      assert (t ∈ dict_keys batches) as Hin
        by (apply list_elem_of_fmap; by exists (t, batch)).
      rewrite Hnil in Hin. by apply elem_of_nil in Hin. }
    destruct (has_negative batches) eqn:Hneg.
    + subst r. rewrite (negative_run _ _ _ Hneg). simpl. split; [done|].
      intros w' Hw'. split; [|apply Hreg].
      rewrite init_events_lookup, decide_True; [done|].
      split; [done|by apply elem_of_elements].
    + destruct (table_from_dict_exact batches schema s Hwf Hneg)
        as (_ & _ & _ & He & Hr).
      rewrite Hall in Hr. split; [exact Hr|].
      intros w' Hw'. split; [by apply He|apply Hreg].
  - intros df g id_from trusted schema cells v Hd Hv Hbad r. subst r.
    rewrite static_run. unfold static_outcome.
    destruct (bool_decide _); [by auto|].
    destruct (schema_check _ _ _ _); [|by auto].
    pose proof (validate_bad_diff df cells Hd (ex_intro _ v (conj Hv Hbad))) as Hr.
    pose proof (validate_raises_kinds df) as Hkinds.
    pose proof (validate_raises_ValueError df) as Hvalue.
    rewrite validate_run in Hr, Hkinds, Hvalue.
    destruct (validate_outcome df) as [|e df' w']; [done|]. simpl in *.
    split_and!; [done|done| |].
    + destruct (Hkinds e eq_refl) as [-> | ->]; auto.
    + intros Hall. f_equal. apply Hvalue; [| |done].
      * intros column. apply Hall. by left.
      * intros column. apply Hall. by right; left.
Qed.

Lemma C3_bad_diff_raises_witness :
  batches_wf ex_bad_diff_batches ∧
  StreamGenerator.events
    (res_state (StreamGenerator._table_from_dict ex_bad_diff_batches [] ex_state))
    !! ("_stream_generator_0", 0)
  = Some (if has_negative ex_bad_diff_batches then []
          else registered (normalized ex_bad_diff_batches) 0) ∧
  raises (table_from_pandas ex_fingerprint ex_schema_from_pandas
            None false None (ex_df_bad_diff, ex_graph)) = true.
Proof.
  assert (batches_wf ex_bad_diff_batches) as Hwf
    by (apply (bool_decide_unpack _); vm_compute; exact I).
  split; [exact Hwf|].
  destruct (C3_bad_diff_raises ex_fingerprint ex_schema_from_pandas) as [Hs Hd].
  split.
  - refine (proj1 (proj2 (Hs ex_bad_diff_batches [] ex_state 2
                      [(0, [(1, k1, [VInt 10]); (2, k2, [VInt 20])])]
                      0 [(1, k1, [VInt 10]); (2, k2, [VInt 20])]
                      (2, k2, [VInt 20]) Hwf _ _ _ _) 0 _));
      [by left|by left|by right; left|reflexivity|].
    apply (bool_decide_unpack _). vm_compute. exact I.
  - refine (proj1 (Hd ex_df_bad_diff ex_graph None false None
                      [VInt 1; VInt 2] (VInt 2) _ _ _));
      [reflexivity|by right; left|by split].
Defined.

(** [any] stops at the first bad diff or at the first missing value,
    whichever comes first. *)
Example missing_diff :
  res_value (_validate_dataframe ex_df_missing_diff) = inl TypeError ∧
  res_value (_validate_dataframe ex_df_diff_missing) = inl ValueError.
Proof. vm_compute. done. Qed.

(** What the registry holds of the failed stream of the example. *)
Example bad_diff_registered :
  registered (normalized ex_bad_diff_batches) 0
  = [AdvanceTime 2; Insert k1 [VInt 10]].
Proof. vm_compute. reflexivity. Qed.

(** C2, as stated, fails next to a negative timestamp: the batch set has
    the odd timestamp 1, yet the construction raises at the test for
    negative timestamps and no warning is emitted. *)
Lemma C2_counterexample :
  let r := StreamGenerator._table_from_dict ex_odd_negative_batches [] ex_state in
  has_odd ex_odd_negative_batches = true ∧
  res_value r = inl ValueError ∧
  res_warnings r = [].
Proof. vm_compute. done. Qed.

(** C2, amended.  For a batch set with an odd timestamp and no negative
    one, [_table_from_dict] emits the doubling warning and builds from
    the batch set with every timestamp doubled; doubling keeps the order
    of the batches, and each worker's barriers are the doubled
    timestamps in ascending order, all of them when the construction
    returns.  A negative timestamp raises first: no warning, and no
    barrier in the lists of the stream.  For a dataframe whose
    pseudo-columns have an integer dtype and whose time column has no
    missing value, an odd and no negative entry, [_validate_dataframe]
    emits the warning and doubles every entry of the time column in the
    dtype of the column: an entry [z] becomes [2 * z] when that is a
    value of the dtype and wraps around otherwise.  A negative time or a
    pseudo-column of another dtype raises first, with no warning and the
    dataframe as it was. *)
Theorem C2_odd_timestamps_doubled :
  (∀ (batches : Batches) schema s,
     batches_wf batches → has_negative batches = false → has_odd batches = true →
     let r := StreamGenerator._table_from_dict batches schema s in
     res_warnings r = [StreamGenerator.msg_doubled] ∧
     normalized batches = (λ tb : Z * Batch, (2 * tb.1, tb.2)) <$> batches ∧
     merge_sort Z.le (dict_keys (normalized batches))
       = Z.mul 2 <$> merge_sort Z.le (dict_keys batches) ∧
     ∀ w, w ∈ workers_of batches →
       ∃ l, StreamGenerator.events (res_state r) !! (next_id s, w) = Some l ∧
            barrier_times l `prefix_of`
              (Z.mul 2 <$> merge_sort Z.le (dict_keys batches)) ∧
            (all_valid batches = true →
               barrier_times l = Z.mul 2 <$> merge_sort Z.le (dict_keys batches))) ∧
  (∀ (batches : Batches) schema s,
     has_negative batches = true →
     let r := StreamGenerator._table_from_dict batches schema s in
     res_value r = inl ValueError ∧
     res_warnings r = [] ∧
     ∀ w, w ∈ workers_of batches →
       StreamGenerator.events (res_state r) !! (next_id s, w) = Some []) ∧
  (∀ (df : DataFrame) cells,
     column_ok df TIME_PSEUDOCOLUMN = true →
     column_ok df DIFF_PSEUDOCOLUMN = true →
     dict_get (df_columns df) TIME_PSEUDOCOLUMN = Some cells →
     no_missing cells = true →
     has_negative_time cells = false → has_odd_time cells = true →
     let r := _validate_dataframe df in
     let dtype := df_dtype df TIME_PSEUDOCOLUMN in
     res_warnings r = [StreamGenerator.msg_doubled] ∧
     dict_get (df_columns (res_state r)) TIME_PSEUDOCOLUMN
       = Some (column_double dtype cells) ∧
     (∀ i z, cells !! i = Some (VInt z) →
        column_double dtype cells !! i = Some (VInt (wrap dtype (2 * z))) ∧
        (fits dtype (2 * z) →
           column_double dtype cells !! i = Some (VInt (2 * z))))) ∧
  (∀ (df : DataFrame),
     (column_ok df TIME_PSEUDOCOLUMN = false ∨
      column_ok df DIFF_PSEUDOCOLUMN = false ∨
      ∃ cells, dict_get (df_columns df) TIME_PSEUDOCOLUMN = Some cells ∧
               no_missing cells = true ∧ has_negative_time cells = true) →
     _validate_dataframe df = Raised ValueError df []).
Proof.
  split_and!.
  - intros batches schema s Hwf Hneg Hodd r.
    destruct (table_from_dict_outcome batches schema s Hwf Hneg)
      as (Hw & _ & _ & H).
    fold r in Hw, H. rewrite Hodd in Hw.
    assert (merge_sort Z.le (dict_keys (normalized batches))
            = Z.mul 2 <$> merge_sort Z.le (dict_keys batches)) as Hsorted.
    { unfold normalized. rewrite Hodd, doubled_keys. apply sorted_doubled. }
    split_and!; [done|by unfold normalized; rewrite Hodd|done|].
    intros w Hin. rewrite <- Hsorted.
    rewrite <- (barrier_times_worker_events (normalized batches) w).
    destruct (all_valid batches); destruct H as [_ He].
    + eexists. split; [by apply He|]. done.
    + destruct (He w Hin) as (l & Hl & [k Hk]). exists l.
      split; [done|]. split; [|done]. exists (barrier_times k).
      by rewrite Hk, barrier_times_app.
  - intros batches schema s Hneg r. subst r.
    rewrite (negative_run _ _ _ Hneg). simpl. split_and!; [done..|].
    intros w Hw. rewrite init_events_lookup, decide_True; [done|].
    split; [done|by apply elem_of_elements].
  - intros df cells Ht Hd Hc Hall Hneg Hodd r dtype.
    destruct (validate_doubles df cells Ht Hd Hc Hall Hneg Hodd) as [Hw Hs].
    fold r in Hw, Hs. rewrite Hs. split_and!; [done|apply dict_get_set_eq|].
    intros i z Hi. pose proof (column_double_lookup dtype cells i z Hi) as Hl.
    split; [done|]. intros Hfits. by rewrite Hl, Hfits.
  - intros df [H|[H|(cells & Hc & Hall & Hneg)]].
    + apply validate_dtype. by left.
    + apply validate_dtype. by right.
    + by eapply validate_negative.
Qed.

Lemma C2_odd_timestamps_doubled_witness :
  batches_wf ex_odd_batches ∧
  res_warnings (StreamGenerator._table_from_dict ex_odd_batches [] ex_state)
    = [StreamGenerator.msg_doubled] ∧
  dict_get (df_columns (res_state (_validate_dataframe ex_df_odd))) TIME_PSEUDOCOLUMN
    = Some [VInt 2; VInt 8].
Proof.
  assert (batches_wf ex_odd_batches) as Hwf
    by (apply (bool_decide_unpack _); vm_compute; exact I).
  split; [exact Hwf|].
  destruct C2_odd_timestamps_doubled as (Hs & _ & Hd & _). split.
  - refine (proj1 (Hs ex_odd_batches [] ex_state Hwf _ _)); reflexivity.
  - refine (proj1 (proj2 (Hd ex_df_odd [VInt 1; VInt 4] _ _ _ _ _ _)));
      reflexivity.
Defined.

(** Doubling in the dtype of the column: the [int8] time 65 becomes
    -126, and a second validation of the dataframe raises. *)
Example validate_wraps :
  let r := _validate_dataframe ex_df_int8 in
  res_value r = inr () ∧
  dict_get (df_columns (res_state r)) TIME_PSEUDOCOLUMN
    = Some [VInt (-126); VInt 4] ∧
  res_value (_validate_dataframe (res_state r)) = inl ValueError.
Proof. vm_compute. done. Qed.

(** The full sequences of the example with timestamps 1 and 3. *)
Example odd_batches_events :
  let r := StreamGenerator._table_from_dict ex_odd_batches [] ex_state in
  StreamGenerator.events (res_state r) !! ("_stream_generator_0", 0)
    = Some [AdvanceTime 2; Insert k1 [VInt 10];
            AdvanceTime 6; Delete k1 [VInt 10]] ∧
  StreamGenerator.events (res_state r) !! ("_stream_generator_0", 1)
    = Some [AdvanceTime 2; Insert k2 [VInt 7]; AdvanceTime 6].
Proof. vm_compute. done. Qed.

(** C10, as stated, fails next to a negative time: the time column has
    the odd entry 1, yet the validation raises at the test for negative
    times and the dataframe is left as it was. *)
Lemma C10_counterexample :
  let r := _validate_dataframe ex_df_odd_negative in
  has_odd_time [VInt (-2); VInt 1] = true ∧
  res_value r = inl ValueError ∧
  res_state r = ex_df_odd_negative.
Proof. vm_compute. done. Qed.

(** C10, amended.  [StreamGenerator.table_from_pandas] leaves the
    caller's dataframe with the columns [_time], [_worker] and [_diff]:
    one that was missing is added, filled with 2, 0 or 1, and the
    dataframe is then no longer what was passed in; nothing else of it
    changes.  [_validate_dataframe], given pseudo-columns of integer
    dtype and a time column with no missing value, an odd and no
    negative entry, leaves every entry of the time column of the
    caller's dataframe doubled in the dtype of the column, [2 * z] for
    the entry [z] when that is a value of the dtype, and the dataframe is
    no longer what was passed in.  With a negative time or a
    pseudo-column of another dtype it raises before the doubling and
    leaves the dataframe as it was. *)
Theorem C10_dataframe_mutated_in_place
    (schema_from_pandas : DataFrame → option (list string) → list string → Schema)
    (ids_from_pandas : DataFrame → bool → option (list string) → Value → Pointer)
    (denumpify : Value → Value) :
  (∀ (df : DataFrame) (s : StreamGenerator.state) id_from unsafe_trusted_ids schema,
     let r := StreamGenerator.table_from_pandas
                schema_from_pandas ids_from_pandas denumpify
                id_from unsafe_trusted_ids schema (df, s) in
     let df' := (res_state r).1 in
     df_index df' = df_index df ∧
     (∀ c v, (c, v) ∈ stream_defaults →
        dict_get (df_columns df') c
        = Some (default (replicate (df_len df) v) (dict_get (df_columns df) c))) ∧
     (∀ c, c ∉ stream_defaults.*1 →
        dict_get (df_columns df') c = dict_get (df_columns df) c) ∧
     (∀ c v, (c, v) ∈ stream_defaults →
        dict_get (df_columns df) c = None → df' ≠ df)) ∧
  (∀ (df : DataFrame) cells,
     column_ok df TIME_PSEUDOCOLUMN = true →
     column_ok df DIFF_PSEUDOCOLUMN = true →
     dict_get (df_columns df) TIME_PSEUDOCOLUMN = Some cells →
     no_missing cells = true →
     has_negative_time cells = false → has_odd_time cells = true →
     let df' := res_state (_validate_dataframe df) in
     let dtype := df_dtype df TIME_PSEUDOCOLUMN in
     dict_get (df_columns df') TIME_PSEUDOCOLUMN
       = Some (column_double dtype cells) ∧
     (∀ i z, cells !! i = Some (VInt z) →
        column_double dtype cells !! i = Some (VInt (wrap dtype (2 * z))) ∧
        (fits dtype (2 * z) →
           column_double dtype cells !! i = Some (VInt (2 * z)))) ∧
     df' ≠ df) ∧
  (∀ (df : DataFrame),
     (column_ok df TIME_PSEUDOCOLUMN = false ∨
      column_ok df DIFF_PSEUDOCOLUMN = false ∨
      ∃ cells, dict_get (df_columns df) TIME_PSEUDOCOLUMN = Some cells ∧
               no_missing cells = true ∧ has_negative_time cells = true) →
     res_value (_validate_dataframe df) = inl ValueError ∧
     res_state (_validate_dataframe df) = df).
Proof.
  split_and!.
  - intros df s id_from trusted schema r df'. subst r df'.
    rewrite table_from_pandas_frame.
    split_and!.
    + unfold with_stream_columns. by rewrite !add_default_index.
    + intros c v Hin. by apply with_stream_columns_get.
    + intros c Hc. by apply with_stream_columns_get_ne.
    + intros c v Hin Hnone Heq.
      pose proof (with_stream_columns_get df c v Hin) as Hget.
      rewrite Heq, Hnone in Hget. done.
  - intros df cells Ht Hd Hc Hall Hneg Hodd df' dtype. subst df'.
    destruct (validate_doubles df cells Ht Hd Hc Hall Hneg Hodd) as [_ ->].
    split_and!.
    + apply dict_get_set_eq.
    + intros i z Hi. pose proof (column_double_lookup dtype cells i z Hi) as Hl.
      split; [done|]. intros Hfits. by rewrite Hl, Hfits.
    + intros Heq.
      pose proof (dict_get_set_eq (df_columns df) TIME_PSEUDOCOLUMN
                    (column_double dtype cells)) as Hget.
      change (dict_set (df_columns df) TIME_PSEUDOCOLUMN (column_double dtype cells))
        with (df_columns (double_times df cells)) in Hget.
      rewrite Heq, Hc in Hget. simplify_eq.
      unfold has_odd_time in Hodd. apply existsb_exists in Hodd as (z & Hz & Hm).
      apply list_elem_of_In in Hz.
      assert (column_ints cells = column_ints (column_double dtype cells)) as Hints
        by congruence.
      (* every doubled entry is even, the odd one is not *)
      rewrite Hints, column_double_ints in Hz.
      apply list_elem_of_fmap in Hz as (y & -> & _).
      apply Z.eqb_eq in Hm.
      by rewrite (wrap_double_even dtype y) in Hm.
  - intros df H.
    assert (_validate_dataframe df = Raised ValueError df []) as ->; [|done].
    destruct H as [H|[H|(cells & Hc & Hall & Hneg)]].
    + apply validate_dtype. by left.
    + apply validate_dtype. by right.
    + by eapply validate_negative.
Qed.

Lemma C10_dataframe_mutated_in_place_witness :
  dict_get (df_columns
              (res_state (StreamGenerator.table_from_pandas
                            ex_schema_from_pandas ex_ids_from_pandas ex_denumpify
                            None false None (ex_df_plain, ex_state))).1) "_worker"
    = Some [VInt 0; VInt 0] ∧
  dict_get (df_columns (res_state (_validate_dataframe ex_df_odd))) TIME_PSEUDOCOLUMN
    = Some [VInt 2; VInt 8].
Proof.
  destruct (C10_dataframe_mutated_in_place
              ex_schema_from_pandas ex_ids_from_pandas ex_denumpify)
    as (Hs & Hv & _).
  split.
  - destruct (Hs ex_df_plain ex_state None false None) as (_ & Hget & _).
    refine (Hget "_worker" (VInt 0) _). by right; left.
  - refine (proj1 (Hv ex_df_odd [VInt 1; VInt 4] _ _ _ _ _ _)); reflexivity.
Defined.

(** The stream built from the plain dataframe, and the dataframe after. *)
Example plain_dataframe_stream :
  let r := StreamGenerator.table_from_pandas
             ex_schema_from_pandas ex_ids_from_pandas ex_denumpify
             None false None (ex_df_plain, ex_state) in
  (res_state r).1
    = int64_frame [VInt 0; VInt 1]
        [("v", [VInt 5; VInt 6]); ("_time", [VInt 2; VInt 2]);
         ("_worker", [VInt 0; VInt 0]); ("_diff", [VInt 1; VInt 1])] ∧
  StreamGenerator.events (res_state r).2 !! ("_stream_generator_0", 0)
    = Some [AdvanceTime 2; Insert 0%N [VInt 5]; Insert 1%N [VInt 6]].
Proof. vm_compute. done. Qed.
End mixed_claims.

Section printing_examples.

(** A single column, one row valued [None], identifiers hidden. *)
Example print_none_hidden :
  ex_print ex_captured_none ["a"] true false true None = inr ["a"; "None"].
Proof. vm_compute. reflexivity. Qed.

(** The same table with identifiers shown: an empty cell. *)
Example print_none_shown :
  ex_print ex_captured_none ["a"] true true true None
  = inr ["            | a"; "^1234567... |"].
Proof. vm_compute. reflexivity. Qed.

(** The update stream is sorted by time and diff first. *)
Example print_update_stream :
  ex_print ex_captured_updates ["a"] false false true None
  = inr ["a  | __time__ | __diff__"; "10 | 2        | 1";
         "10 | 4        | -1"; "20 | 4        | 1"].
Proof. vm_compute. reflexivity. Qed.

(** Rows that can be ordered are sorted... *)
Example print_sorted :
  ex_print ex_captured_ints ["b"] true false true None = inr ["b"; "5"; "9"].
Proof. vm_compute. reflexivity. Qed.

(** ...rows with arrays stay as they arrived... *)
Example print_arrays_unsorted :
  ex_print ex_captured_arrays ["a"; "b"] true false true None
  = inr ["a     | b"; "[3 4] | 9"; "[1 2] | 5"].
Proof. vm_compute. reflexivity. Qed.

(** ...and a [TypeError] from the comparison is not caught. *)
Example print_mixed_fails :
  ex_print ex_captured_mixed ["a"] true false true None = inl TypeError.
Proof. vm_compute. reflexivity. Qed.
End printing_examples.

Section printing_claims.
Import PrintFacts.
Context (py_str : Value → string).
Context (py_eq py_lt : Value → Value → exn + bool).
Context (squash_updates : list CapturedRow → dict Pointer (list Value)).

(** C7.  [_compute_and_print_internal] prints a [None] value as
    ["None"] exactly when identifiers are hidden and one column is
    shown, and as the empty string otherwise; the update stream, which
    shows two more columns, always gets the empty string.  Unless it
    returns at once, for a table without columns whose identifiers are
    hidden, the rows printed are the rows of the output, sorted and cut
    to [n_rows]; the line of a row is made of its cells, the identifier
    first when shown, each padded to the width of its column and joined
    by [" | "], and the cell of every [None] value is that string. *)
Theorem C7_none_rendering (captured : list CapturedRow)
    (table_columns : list string) (squash include_id short_pointers : bool)
    (n_rows : option nat) (lines : list string) :
  let columns := shown_columns table_columns squash in
  let none :=
    if negb include_id && bool_decide (length columns = 1%nat)
    then "None" else "" in
  let offset := if include_id then 1%nat else 0%nat in
  _compute_and_print_internal py_str py_eq py_lt squash_updates
    captured table_columns squash include_id short_pointers n_rows = inr lines →
  (squash = false → none = "") ∧
  (lines = [] ∧ columns = [] ∧ include_id = false ∨
   ∃ (sorted_rows : list OutputRow) (lens : list nat),
     sorted_rows ≡ₚ output_rows squash_updates captured squash ∧
     length lens = (offset + length columns)%nat ∧
     let rows :=
       match n_rows with
       | None => sorted_rows
       | Some n => take n sorted_rows
       end in
     length lines = S (length rows) ∧
     ∀ i key values,
       rows !! i = Some (key, values) →
       ∃ cells,
         lines !! S i
         = Some (string_rstrip
                   (string_join " | "
                      ((λ '(value, max_len), string_ljust value max_len)
                         <$> zip cells lens))) ∧
         length cells = (offset + length values)%nat ∧
         ∀ j, values !! j = Some VNone →
              cells !! (offset + j)%nat = Some none).
Proof.
  intros columns none offset Hrun. split.
  { intros ->. subst none columns. unfold shown_columns.
    rewrite (bool_decide_eq_false_2 (length _ = 1%nat)), andb_false_r; [done|].
    rewrite length_app. simpl. lia. }
  unfold _compute_and_print_internal in Hrun. fold columns in Hrun.
  destruct (bool_decide (columns = []) && negb include_id) eqn:Hguard.
  { left. apply andb_true_iff in Hguard as [Hc%bool_decide_eq_true Hi].
    destruct include_id; [done|]. by simplify_eq. }
  right.
  destruct (try_sorted _ _ _ _) as [e|sorted_rows] eqn:Hs; [done|].
  apply try_sorted_perm in Hs.
  unfold print_rows in Hrun. cbv zeta in Hrun.
  set (rows := match n_rows with
               | None => sorted_rows
               | Some n => take n sorted_rows
               end) in *.
  destruct (max_lens _) as [e|lens] eqn:Hlens; [done|].
  apply (inj inr) in Hrun. subst lines.
  apply max_lens_length in Hlens.
  assert (none_string include_id columns = none) as Hnone.
  { subst none. unfold none_string. destruct include_id; [done|].
    cbn [orb negb andb]. rewrite andb_true_r in Hguard.
    apply bool_decide_eq_false in Hguard.
    destruct columns as [|c [|c' l]]; [done|done|].
    rewrite bool_decide_eq_true_2 by (simpl; lia).
    by rewrite bool_decide_eq_false_2 by (simpl; lia). }
  exists sorted_rows, lens. split; [done|]. split.
  { rewrite Hlens. unfold format_data. cbn [head default]. subst offset.
    by destruct include_id. }
  cbv zeta. split.
  { rewrite length_fmap. unfold format_data. cbn [length].
    by rewrite length_fmap. }
  intros i key values Hi.
  eexists. split; [|split].
  - rewrite list_lookup_fmap.
    by rewrite (format_data_lookup py_str columns include_id short_pointers
                  rows i key values Hi).
  - rewrite length_app, length_fmap. subst offset. by destruct include_id.
  - intros j Hj. rewrite Hnone. subst offset. destruct include_id.
    + rewrite lookup_app_r by (simpl; lia). simpl length.
      replace (1 + j - 1)%nat with j by lia.
      by rewrite list_lookup_fmap, Hj.
    + change (0 + j)%nat with j. cbn [app].
      by rewrite list_lookup_fmap, Hj.
Qed.

(** C8, amended.  When the sort raises, what happens depends on the
    exception.  [ValueError], which the comparison of arrays raises, is
    caught and the sort abandoned: what is printed is what [print_rows]
    makes of the rows in their arrival order, and with rows as wide as
    the columns shown the operation returns its lines instead of
    failing.  Any other exception, such as the [TypeError] of values
    that have no ordering, is not caught: the whole operation fails
    with it and prints nothing. *)
Theorem C8_unsortable_rows_keep_arrival_order (captured : list CapturedRow)
    (table_columns : list string) (squash include_id short_pointers : bool)
    (n_rows : option nat) (e : exn) :
  let columns := shown_columns table_columns squash in
  let output_data := output_rows squash_updates captured squash in
  let run :=
    _compute_and_print_internal py_str py_eq py_lt squash_updates
      captured table_columns squash include_id short_pointers n_rows in
  bool_decide (columns = []) && negb include_id = false →
  sorted py_eq py_lt (_key py_str squash) output_data = inl e →
  (e = ValueError →
   run = print_rows py_str columns include_id short_pointers n_rows output_data ∧
   (Forall (λ row : OutputRow, length row.2 = length columns) output_data →
    ∃ lines, run = inr lines)) ∧
  (e ≠ ValueError → run = inl e).
Proof.
  intros columns output_data run Hguard Hsort. subst run.
  unfold _compute_and_print_internal. fold columns output_data.
  rewrite Hguard. unfold try_sorted. rewrite Hsort. split.
  - intros ->. split; [done|]. intros Hrows. by apply print_rows_ok.
  - intros Hne. by destruct e.
Qed.
End printing_claims.

Section printing_witness.

Lemma C7_none_rendering_witness :
  ex_print ex_captured_none ["a"] true false true None = inr ["a"; "None"] ∧
  ∃ cells lens,
    ["a"; "None"] !! 1%nat
    = Some (string_rstrip
              (string_join " | "
                 ((λ '(value, max_len), string_ljust value max_len)
                    <$> zip cells lens))) ∧
    length lens = 1%nat ∧
    cells !! 0%nat = Some "None".
Proof.
  assert (ex_print ex_captured_none ["a"] true false true None
          = inr ["a"; "None"]) as Hrun by (vm_compute; reflexivity).
  split; [exact Hrun|].
  destruct (proj2 (C7_none_rendering python_str python_eq python_lt
                     squash_updates_model ex_captured_none ["a"]
                     true false true None ["a"; "None"] Hrun))
    as [(Hnil & _)|(sorted_rows & lens & Hperm & Hlen & _ & Hrows)];
    [discriminate|].
  assert (sorted_rows = [(12345678901%N, [VNone])]) as ->.
  { apply Permutation_singleton_r. rewrite Hperm. vm_compute. reflexivity. }
  destruct (Hrows 0%nat _ _ eq_refl) as (cells & Hline & _ & Hnone).
  exists cells, lens. split; [exact Hline|]. split; [exact Hlen|].
  exact (Hnone 0%nat eq_refl).
Defined.

Lemma C8_unsortable_rows_keep_arrival_order_witness :
  ex_print ex_captured_arrays ["a"; "b"] true false true None
  = print_rows python_str ["a"; "b"] false true None
      (output_rows squash_updates_model ex_captured_arrays true).
Proof.
  refine (proj1 (proj1 (C8_unsortable_rows_keep_arrival_order
                   python_str python_eq python_lt squash_updates_model
                   ex_captured_arrays ["a"; "b"] true false true None
                   ValueError _ _) eq_refl)).
  - reflexivity.
  - vm_compute. reflexivity.
Defined.

(** C8, as stated, fails for values that have no ordering: comparing an
    integer with a string raises [TypeError], which the [except
    ValueError] around the sort lets through, and the whole print
    operation fails. *)
Lemma C8_counterexample :
  sorted python_eq python_lt (_key python_str true)
    (output_rows squash_updates_model ex_captured_mixed true) = inl TypeError ∧
  ex_print ex_captured_mixed ["a"] true false true None = inl TypeError.
Proof. vm_compute. done. Qed.
End printing_witness.

Section parquet_claim.
Import StaticSpec StaticFacts.
Context (fingerprint : FingerprintArg → Z).
Context (schema_from_pandas : DataFrame → option (list string) → list string → Schema).
Context (read_parquet : string → DataFrame).

(** C9, amended.  [table_from_parquet] does not use the [id_from] and
    [unsafe_trusted_ids] it is given: what it does is what the static
    [table_from_pandas] does on the dataframe read, with [id_from=None]
    and [unsafe_trusted_ids=False], so any two choices of the arguments
    give the same result.  A table it returns is not trusted and is
    built from the dataframe read, validated; the frame hashed for its
    identity has, next to the pseudo-columns, the one column [id], which
    holds the index labels of the dataframe read: the row positions only
    when the file stores no index. *)
Theorem C9_parquet_ignores_arguments (path : string)
    (id_from : option (list string)) (unsafe_trusted_ids : bool) (g : Graph) :
  let df := read_parquet path in
  let r := table_from_parquet fingerprint schema_from_pandas read_parquet
             path id_from unsafe_trusted_ids g in
  r = res_map_state snd
        (static_outcome fingerprint schema_from_pandas None false None df g) ∧
  (∀ id_from' unsafe_trusted_ids',
     table_from_parquet fingerprint schema_from_pandas read_parquet
       path id_from' unsafe_trusted_ids' g = r) ∧
  (∀ t g' w, r = Returned t g' w →
     table_trusted t = false ∧
     ∃ df' ids,
       _validate_dataframe df = Returned () df' w ∧
       table_data t = df' ∧
       identity_frame df' None = Some ids ∧
       df_index ids = df_index df ∧
       dict_get (df_columns ids) "id" = Some (df_index df) ∧
       (∀ c, c ∈ dict_keys (df_columns ids) →
             c = "id" ∨ c ∈ PANDAS_PSEUDOCOLUMNS) ∧
       is_Some (static_tables_cache g' !! cache_key fingerprint ids false)).
Proof.
  intros df r.
  assert (r = res_map_state snd
                (static_outcome fingerprint schema_from_pandas
                   None false None df g)) as Hr.
  { subst r. unfold table_from_parquet, with_local. fold df.
    rewrite static_run. by destruct (static_outcome _ _ _ _ _ _ _). }
  split_and!; [exact Hr|done|].
  intros t g' w Hrun. rewrite Hr in Hrun. clear Hr r.
  unfold static_outcome in Hrun.
  rewrite bool_decide_eq_false_2 in Hrun by (by intros [[? ?] _]).
  cbn [schema_check] in Hrun. rewrite validate_run.
  destruct (validate_outcome df) as [[] df' w'|] eqn:Hval; [|done].
  pose proof (CacheFacts.validate_index df) as Hindex.
  rewrite Hval in Hindex. simpl in Hindex.
  destruct (CacheFacts.identity_frame_None df')
    as (ids & Hids & Hidx & Hid & Hcols).
  rewrite Hids in Hrun. cbv zeta in Hrun.
  assert (table_trusted t = false ∧ table_data t = df' ∧ w = w' ∧
          is_Some (static_tables_cache g' !! cache_key fingerprint ids false))
    as (Htrust & Hdata & -> & Hkey).
  { destruct (static_tables_cache g !! cache_key fingerprint ids false)
      as [cached|] eqn:Hc; simpl in Hrun; simplify_eq; simpl.
    - by rewrite Hc.
    - by rewrite lookup_insert_eq. }
  split; [done|]. exists df', ids.
  rewrite Hindex in Hidx, Hid. done.
Qed.
End parquet_claim.

Lemma C9_parquet_ignores_arguments_witness :
  ∃ t g' w,
    table_from_parquet ex_fingerprint ex_schema_from_pandas ex_read_parquet
      "labelled" (Some ["v"]) true ex_graph = Returned t g' w ∧
    table_trusted t = false.
Proof.
  assert (raises (table_from_parquet ex_fingerprint ex_schema_from_pandas
                    ex_read_parquet "labelled" (Some ["v"]) true ex_graph)
          = false) as Hok by (vm_compute; reflexivity).
  destruct (table_from_parquet ex_fingerprint ex_schema_from_pandas
              ex_read_parquet "labelled" (Some ["v"]) true ex_graph)
    as [t g' w|] eqn:Hrun; [|discriminate].
  exists t, g', w. split; [reflexivity|].
  pose proof (C9_parquet_ignores_arguments ex_fingerprint ex_schema_from_pandas
                ex_read_parquet "labelled" (Some ["v"]) true ex_graph) as H.
  cbv zeta in H. rewrite Hrun in H.
  exact (proj1 (proj2 (proj2 H) t g' w eq_refl)).
Defined.

(** C9, as stated, fails for a file that stores an index: the rows of
    the two files are the same at the same positions, yet the frame
    hashed for the second holds the labels 7 and 3, the build misses the
    cache entry of the first and its table lives in a universe of its
    own. *)
Lemma C9_counterexample :
  let build := table_from_parquet ex_fingerprint ex_schema_from_pandas
                 ex_read_parquet in
  let r1 := build "plain" None false ex_graph in
  let r2 := build "labelled" None false (res_state r1) in
  df_columns (ex_read_parquet "labelled") = df_columns (ex_read_parquet "plain") ∧
  dict_get (df_columns
              (default ex_df_plain
                 (StaticSpec.identity_frame (ex_read_parquet "labelled") None)))
           "id" = Some [VInt 7; VInt 3] ∧
  table_universe <$> StaticSpec.returned r1 = Some 0%N ∧
  table_universe <$> StaticSpec.returned r2 = Some 1%N.
Proof. vm_compute. done. Qed.


Section cache_claim.
Import StaticSpec StaticFacts CacheFacts.

(** C6, as stated, fails for the time column: a frame with the time 1
    differs from the frame with the time 2 in an identity-defining
    value, but the validation doubles the 1 before the key is computed,
    so both have the same identity frame and the second build gets the
    universe of the first. *)
Lemma C6_counterexample :
  ex_df_time1 ≠ ex_df_time2 ∧
  identity_frame (res_state (_validate_dataframe ex_df_time1)) None
    = identity_frame (res_state (_validate_dataframe ex_df_time2)) None ∧
  table_universe <$> returned (ex_static (ex_df_time2, ex_graph)) = Some 0%N ∧
  table_universe
    <$> returned (ex_static (ex_df_time1,
                             (res_state (ex_static (ex_df_time2, ex_graph))).2))
    = Some 0%N ∧
  size (static_tables_cache
          (res_state (ex_static (ex_df_time1,
                        (res_state (ex_static (ex_df_time2, ex_graph))).2))).2)
    = 1%nat.
Proof. split_and!; [discriminate|vm_compute; reflexivity..]. Qed.

(** C6, amended.  A second build of a static table from the same rows
    in another order, with the same arguments, hits the cache: its
    handle has the universe of the first and the cache is unchanged.
    The cache key is the fingerprint of the trust flag and the sorted
    fingerprints of the identity records, taken after the validation
    has normalised the time column: frames whose identity records agree
    up to order get the same key, and with a fingerprint free of
    collisions two keys are equal only when the trust flags are equal
    and the identity records agree up to order.  A build whose key is
    not in the cache gets a newly minted universe, that of no cached
    table, and enters the cache; one whose key is cached gets the
    universe of the cached table. *)
Theorem C6_static_cache (fingerprint : FingerprintArg → Z)
    (schema_from_pandas : DataFrame → option (list string) → list string → Schema) :
  (∀ id_from b schema (df df1 : DataFrame) rows (g g1 : Graph) t1 w1,
     df_wf df → rows ≡ₚ seq 0 (df_len df) →
     table_from_pandas fingerprint schema_from_pandas id_from b schema (df, g)
       = Returned t1 (df1, g1) w1 →
     ∃ t2 st2 w2,
       table_from_pandas fingerprint schema_from_pandas id_from b schema
         (df_take df rows, g1) = Returned t2 st2 w2 ∧
       table_universe t2 = table_universe t1 ∧
       static_tables_cache st2.2 = static_tables_cache g1) ∧
  (∀ (ids1 ids2 : DataFrame) b,
     df_records ids1 ≡ₚ df_records ids2 →
     cache_key fingerprint ids1 b = cache_key fingerprint ids2 b) ∧
  ((∀ x y, fingerprint x = fingerprint y → x = y) →
   ∀ (ids1 ids2 : DataFrame) b1 b2,
     cache_key fingerprint ids1 b1 = cache_key fingerprint ids2 b2 →
     b1 = b2 ∧ df_records ids1 ≡ₚ df_records ids2) ∧
  (∀ id_from b schema (df df' : DataFrame) (g g' : Graph) t w,
     graph_wf g →
     table_from_pandas fingerprint schema_from_pandas id_from b schema (df, g)
       = Returned t (df', g') w →
     graph_wf g' ∧
     ∃ ids, identity_frame df' id_from = Some ids ∧
       match static_tables_cache g !! cache_key fingerprint ids b with
       | Some cached =>
           table_universe t = table_universe cached ∧
           static_tables_cache g' = static_tables_cache g
       | None =>
           table_universe t = universes g ∧
           (∀ key c, static_tables_cache g !! key = Some c →
                     table_universe c ≠ table_universe t) ∧
           static_tables_cache g'
           = <[cache_key fingerprint ids b := t]> (static_tables_cache g)
       end).
Proof.
  split_and!.
  - intros id_from b schema df df1 rows g g1 t1 w1 Hwf Hrows Hrun.
    destruct (rebuild_hits fingerprint schema_from_pandas
                id_from b schema df df1 rows g g1 t1 w1 Hwf Hrows Hrun)
      as (t2 & Hrun2 & Hu).
    exists t2. eexists. exists w1. split; [exact Hrun2|]. by split.
  - intros ids1 ids2 b. apply cache_key_perm.
  - intros Hinj ids1 ids2 b1 b2. by apply cache_key_inj.
  - intros id_from b schema df df' g g' t w. apply build_universe.
Qed.

Lemma ex_fingerprint_inj x y : ex_fingerprint x = ex_fingerprint y → x = y.
Proof. unfold ex_fingerprint. intros [= H]. by apply (inj encode). Qed.

Lemma ex_graph_wf : graph_wf ex_graph.
Proof. intros key t Hk. unfold ex_graph in Hk. simpl in Hk. by apply lookup_empty_Some in Hk. Qed.

Lemma C6_static_cache_witness :
  df_wf ex_df_rows ∧ ex_rows ≡ₚ seq 0 (df_len ex_df_rows) ∧
  raises (ex_static (ex_df_rows, ex_graph)) = false ∧
  (∃ t1 t2 st2 w2,
     returned (ex_static (ex_df_rows, ex_graph)) = Some t1 ∧
     ex_static (df_take ex_df_rows ex_rows,
                (res_state (ex_static (ex_df_rows, ex_graph))).2)
       = Returned t2 st2 w2 ∧
     table_universe t2 = table_universe t1) ∧
  graph_wf (res_state (ex_static (ex_df_rows, ex_graph))).2 ∧
  (cache_key ex_fingerprint ex_df_rows false
     = cache_key ex_fingerprint ex_df_rows false →
   false = false ∧ df_records ex_df_rows ≡ₚ df_records ex_df_rows).
Proof.
  assert (df_wf ex_df_rows) as Hwf
    by (apply (bool_decide_unpack _); vm_compute; exact I).
  assert (ex_rows ≡ₚ seq 0 (df_len ex_df_rows)) as Hrows.
  { unfold ex_rows. simpl.
    apply (Permutation_trans (l' := [0; 2; 1]%nat));
      [apply perm_swap|apply perm_skip, perm_swap]. }
  assert (raises (ex_static (ex_df_rows, ex_graph)) = false) as Hok
    by (vm_compute; reflexivity).
  destruct (raises_false _ Hok) as [t1 Hrun].
  destruct (C6_static_cache ex_fingerprint ex_schema_from_pandas)
    as (Hhit & _ & Hinj & Hcache).
  split_and!; [exact Hwf|exact Hrows|exact Hok| | |].
  - destruct (Hhit None false None ex_df_rows _ ex_rows ex_graph _ t1 _
                Hwf Hrows Hrun) as (t2 & st2 & w2 & Hrun2 & Hu & _).
    exists t1, t2, st2, w2. split_and!; [|exact Hrun2|exact Hu].
    exact (f_equal returned Hrun).
  - exact (proj1 (Hcache None false None ex_df_rows _ ex_graph _ t1 _
                    ex_graph_wf Hrun)).
  - exact (Hinj ex_fingerprint_inj ex_df_rows ex_df_rows false false).
Defined.
End cache_claim.

(** * Further properties of the stream builder *)

Module StreamMore.
Import StreamGenerator StreamGeneratorMethods BuildSpec BuildFacts MoreSpec.

(** Whatever the outcome, [_table_from_dict] uses up one identifier and
    touches only the lists of the new stream. *)
Lemma table_from_dict_frame (batches : Batches) (schema : Schema) (s : state) :
  batches_wf batches →
  let r := _table_from_dict batches schema s in
  _persistent_id (res_state r) = (_persistent_id s + 1)%N ∧
  (∀ p w, ¬ (p = next_id s ∧ w ∈ workers_of batches) →
          events (res_state r) !! (p, w) = events s !! (p, w)) ∧
  (∀ w, w ∈ workers_of batches →
        is_Some (events (res_state r) !! (next_id s, w))).
Proof.
  intros Hwf r. subst r. destruct (has_negative batches) eqn:Hneg.
  - rewrite (negative_run _ _ _ Hneg). simpl. split_and!; [done| |].
    + intros p w Hn. rewrite init_events_lookup, decide_False; [done|].
      intros [? ?%elem_of_elements]. by apply Hn.
    + intros w Hw. rewrite init_events_lookup, decide_True; [by eexists|].
      split; [done|by apply elem_of_elements].
  - destruct (table_from_dict_outcome batches schema s Hwf Hneg)
      as (_ & Hc & Hf & H).
    split_and!; [done|done|]. intros w Hw.
    destruct (all_valid batches); destruct H as [_ He].
    + rewrite He by done. by eexists.
    + destruct (He w Hw) as (l & -> & _). by eexists.
Qed.

Lemma next_id_inj (n m : N) :
  "_stream_generator_" +:+ pretty n = "_stream_generator_" +:+ pretty m → n = m.
Proof. intros H. apply (inj (String.app _)) in H. by apply (inj pretty) in H. Qed.

(** X1.  When every list of the registry belongs to a stream whose
    identifier was handed out before, a construction, whatever its
    outcome, leaves every list registered before as it was and keeps
    the registry in that state: streams never collide. *)
Theorem X1_streams_do_not_collide (batches : Batches) (schema : Schema) (s : state) :
  batches_wf batches → registry_wf s →
  let r := _table_from_dict batches schema s in
  registry_wf (res_state r) ∧
  ∀ p w l, events s !! (p, w) = Some l → events (res_state r) !! (p, w) = Some l.
Proof.
  intros Hwf Hs r.
  destruct (table_from_dict_frame batches schema s Hwf) as (Hc & Hf & _).
  fold r in Hc, Hf.
  assert (∀ p w l, events s !! (p, w) = Some l → p ≠ next_id s) as Hfresh.
  { intros p w l Hl Hp. destruct (Hs p w l Hl) as (n & Hn & ->).
    apply next_id_inj in Hp. lia. }
  split.
  - intros p w l Hl. rewrite Hc.
    destruct (decide (p = next_id s)) as [->|Hp].
    + exists (_persistent_id s). split; [lia|done].
    + rewrite Hf in Hl by (by intros [? _]).
      destruct (Hs p w l Hl) as (n & Hn & ->). exists n. split; [lia|done].
  - intros p w l Hl. rewrite Hf; [done|]. intros [-> _].
    by eapply Hfresh.
Qed.

Lemma registry_wf_empty n : registry_wf (mkState n ∅).
Proof. intros p w l Hl. simpl in Hl. by apply lookup_empty_Some in Hl. Qed.

Lemma X1_streams_do_not_collide_witness :
  batches_wf ex_batches ∧ registry_wf ex_state ∧
  registry_wf (res_state (_table_from_dict ex_batches [] ex_state)).
Proof.
  assert (batches_wf ex_batches) as Hwf
    by (apply (bool_decide_unpack _); vm_compute; exact I).
  split; [exact Hwf|]. split; [apply registry_wf_empty|].
  exact (proj1 (X1_streams_do_not_collide ex_batches [] ex_state Hwf
                  (registry_wf_empty 0))).
Defined.

(** X2.  From an empty batch mapping the construction returns a table
    and uses up an identifier, but registers nothing: the registry is as
    it was, and [persistence_config] answers as before the call. *)
Theorem X2_empty_batches (schema : Schema) (s : state) :
  let r := _table_from_dict [] schema s in
  r = Returned (mkStreamTable (next_id s) schema)
               (mkState (_persistent_id s + 1)%N (events s)) [] ∧
  persistence_config (res_state r) = persistence_config s.
Proof.
  assert (_table_from_dict [] schema s
          = Returned (mkStreamTable (next_id s) schema)
                     (mkState (_persistent_id s + 1)%N (events s)) []) as Hrun.
  { destruct s as [n ev]. reflexivity. }
  cbv zeta. rewrite Hrun. done.
Qed.

(** X3.  Once a construction was started for a batch mapping with at
    least one worker, [persistence_config] returns a configuration over
    the registry, also when the construction raised. *)
Theorem X3_persistence_config_after_build (batches : Batches) (schema : Schema)
    (s : state) (w : Z) :
  batches_wf batches → w ∈ workers_of batches →
  let s' := res_state (_table_from_dict batches schema s) in
  persistence_config s' = Some (mkConfig (events s') REPLAY SPEEDRUN_REPLAY).
Proof.
  intros Hwf Hw s'.
  destruct (table_from_dict_frame batches schema s Hwf) as (_ & _ & Hsome).
  destruct (Hsome w Hw) as [l Hl]. fold s' in Hl.
  unfold persistence_config. rewrite bool_decide_eq_false_2; [done|].
  intros Hsize%map_size_empty_iff. rewrite Hsize in Hl.
  by apply lookup_empty_Some in Hl.
Qed.

Lemma X3_persistence_config_after_build_witness :
  batches_wf ex_negative_batches ∧
  raises (_table_from_dict ex_negative_batches [] ex_state) = true ∧
  is_Some (persistence_config
             (res_state (_table_from_dict ex_negative_batches [] ex_state))).
Proof.
  assert (batches_wf ex_negative_batches) as Hwf
    by (apply (bool_decide_unpack _); vm_compute; exact I).
  split; [exact Hwf|]. split; [vm_compute; reflexivity|].
  rewrite (X3_persistence_config_after_build ex_negative_batches [] ex_state 1 Hwf).
  - by eexists.
  - apply (bool_decide_unpack _). vm_compute. exact I.
Defined.

(** X4.  Without a negative timestamp every barrier registered for the
    new stream has an even timestamp that is not negative, whatever the
    timestamps given and whether or not the construction returns. *)
Theorem X4_barriers_even (batches : Batches) (schema : Schema) (s : state)
    (w : Z) (l : list SnapshotEvent) :
  batches_wf batches → has_negative batches = false →
  events (res_state (_table_from_dict batches schema s)) !! (next_id s, w) = Some l →
  w ∈ workers_of batches →
  Forall (λ t, 0 ≤ t ∧ t `mod` 2 = 0) (barrier_times l).
Proof.
  intros Hwf Hneg Hl Hw.
  assert (Forall (λ t, 0 ≤ t ∧ t `mod` 2 = 0)
                 (merge_sort Z.le (dict_keys (normalized batches)))) as Hkeys.
  { rewrite merge_sort_Permutation. unfold normalized.
    assert (Forall (λ t, 0 ≤ t) (dict_keys batches)) as Hpos.
    { rewrite Forall_forall. intros t Ht. unfold has_negative in Hneg.
      destruct (decide (0 ≤ t)); [done|]. exfalso.
      apply not_true_iff_false in Hneg. apply Hneg, existsb_exists.
      exists t. split; [by apply list_elem_of_In|]. apply Z.ltb_lt. lia. }
    destruct (has_odd batches) eqn:Hodd.
    - rewrite doubled_keys, Forall_fmap. eapply Forall_impl; [exact Hpos|].
      intros t Ht. cbv beta in Ht.
      change (0 ≤ 2 * t ∧ (2 * t) `mod` 2 = 0). split; [lia|].
      by rewrite Z.mul_comm, Z.mod_mul.
    - rewrite Forall_forall in Hpos |- *. intros t Ht. split; [by apply Hpos|].
      unfold has_odd in Hodd. apply not_true_iff_false in Hodd.
      pose proof (Z.mod_pos_bound t 2 ltac:(lia)) as Hb.
      destruct (decide (t `mod` 2 = 0)); [done|]. exfalso. apply Hodd.
      apply existsb_exists. exists t. split; [by apply list_elem_of_In|].
      apply Z.eqb_eq. lia. }
  destruct (table_from_dict_outcome batches schema s Hwf Hneg) as (_ & _ & _ & H).
  assert (l `prefix_of` worker_events (normalized batches) w) as [k Hk].
  { destruct (all_valid batches); destruct H as [_ He].
    - rewrite He in Hl by done. by simplify_eq.
    - destruct (He w Hw) as (l' & Hl' & Hp). rewrite Hl' in Hl. by simplify_eq. }
  rewrite <- (barrier_times_worker_events (normalized batches) w), Hk,
    barrier_times_app in Hkeys.
  by apply Forall_app in Hkeys as [? _].
Qed.

Lemma X4_barriers_even_witness :
  Forall (λ t, 0 ≤ t ∧ t `mod` 2 = 0)
         (barrier_times [AdvanceTime 2; Insert k1 [VInt 10];
                         AdvanceTime 6; Delete k1 [VInt 10]]).
Proof.
  apply (X4_barriers_even ex_odd_batches [] ex_state 0).
  - apply (bool_decide_unpack _). vm_compute. exact I.
  - reflexivity.
  - vm_compute. reflexivity.
  - apply (bool_decide_unpack _). vm_compute. exact I.
Defined.

(** *** Batches given as lists of named rows *)

Lemma dict_set_fresh {K V} `{EqDecision K} (d : dict K V) k v :
  k ∉ dict_keys d → dict_set d k v = d ++ [(k, v)].
Proof.
  induction d as [|[k' v'] d IH]; [done|]. simpl.
  intros [Hne Hk]%not_elem_of_cons.
  rewrite decide_False by done. by rewrite IH.
Qed.

(** With timestamps given in ascending order the events follow the
    order of the mapping. *)
Lemma worker_events_in_order (batches : Batches) (w : Z) :
  dict_wf batches → Sorted Z.le (dict_keys batches) →
  worker_events batches w = events_in_order batches w.
Proof.
  intros Hwf Hsorted. unfold worker_events, events_in_order.
  assert (merge_sort Z.le (dict_keys batches) = dict_keys batches) as ->.
  { apply (Sorted_unique Z.le); [apply Sorted_merge_sort; apply _|done|].
    apply merge_sort_Permutation. }
  assert (∀ l : Batches, (∀ t b, (t, b) ∈ l → dict_get batches t = Some b) →
            flat_map (block batches w) (dict_keys l)
            = flat_map (λ tb : Z * Batch,
                          AdvanceTime tb.1
                            :: flat_map change_events (worker_changes tb.2 w)) l)
    as H.
  { induction l as [|[t b] l IH]; intros Hl; [done|].
    change (dict_keys ((t, b) :: l)) with (t :: dict_keys l).
    cbn [flat_map]. rewrite IH by (intros; apply Hl; by right).
    unfold block at 1. by rewrite (Hl t b) by (by left). }
  apply H. intros t b Hin. by apply dict_get_elem_of.
Qed.

Section keyed_facts.
Context (ref_scalar : N → Pointer).

Lemma row_values_run fields row :
  row_values fields row
  = if complete_row fields row then inr (named_values fields row)
    else inl KeyError.
Proof.
  unfold row_values, complete_row, named_values.
  induction fields as [|f fields IH]; [done|]. cbn [map_e forallb fmap list_fmap].
  destruct (dict_get row f) as [v|] eqn:Hf.
  - rewrite bool_decide_eq_true_2 by eauto. rewrite IH. cbn.
    by destruct (forallb _ fields).
  - by rewrite bool_decide_eq_false_2 by (by intros [? ?]).
Qed.

Lemma add_diffs_and_keys_run fields key rows :
  add_diffs_and_keys ref_scalar fields key rows
  = if forallb (complete_row fields) rows
    then inr (keyed_changes ref_scalar fields key rows,
              (key + N.of_nat (length rows))%N)
    else inl KeyError.
Proof.
  revert key. induction rows as [|row rows IH]; intros key.
  - cbn. by rewrite N.add_0_r.
  - cbn [add_diffs_and_keys forallb keyed_changes length].
    rewrite row_values_run. destruct (complete_row fields row); [|done].
    rewrite IH. cbn [andb]. destruct (forallb _ rows); [|done].
    do 2 f_equal. lia.
Qed.

Lemma format_batch_run fields (batch items : dict Z (list (dict string Value)))
    (acc : Batch) key :
  (∀ w rows, (w, rows) ∈ items → dict_get batch w = Some rows) →
  NoDup (dict_keys acc ++ dict_keys items) →
  format_batch ref_scalar fields batch (dict_keys items) acc key
  = if complete_batch fields items
    then inr (acc ++ keyed_batch ref_scalar fields key items,
              (key + N.of_nat (batch_rows items))%N)
    else inl KeyError.
Proof.
  revert acc key. induction items as [|[w rows] items IH]; intros acc key Hget Hnd.
  - cbn. by rewrite app_nil_r, N.add_0_r.
  - change (dict_keys ((w, rows) :: items)) with (w :: dict_keys items) in *.
    cbn [format_batch]. rewrite (Hget w rows) by (by left).
    rewrite add_diffs_and_keys_run. unfold complete_batch. cbn [forallb snd].
    destruct (forallb (complete_row fields) rows); [|done]. cbn [andb].
    assert (w ∉ dict_keys acc) as Hw.
    { apply NoDup_app in Hnd as (_ & Hd & _). intros Hin.
      apply (Hd w Hin). by left. }
    rewrite dict_set_fresh by done.
    rewrite IH.
    + fold (complete_batch fields items).
      destruct (complete_batch fields items); [|done].
      cbn [keyed_batch]. rewrite <- app_assoc. cbn [app].
      f_equal. f_equal. unfold batch_rows, dict_values. cbn [fmap list_fmap snd sum_list sum_list_with].
      unfold id. lia.
    + intros. apply Hget. by right.
    + unfold dict_keys in *. rewrite fmap_app. cbn. rewrite <- app_assoc. cbn.
      done.
Qed.

Lemma format_batches_run fields (batches : list (dict Z (list (dict string Value))))
    (acc : Batches) timestamp key :
  Forall dict_wf batches →
  (∀ t, t ∈ dict_keys acc → t < timestamp) →
  format_batches ref_scalar fields batches acc timestamp key
  = if forallb (complete_batch fields) batches
    then inr (acc ++ keyed_batches ref_scalar fields timestamp key batches)
    else inl KeyError.
Proof.
  intros Hwf. revert acc timestamp key.
  induction Hwf as [|batch batches Hb _ IH]; intros acc timestamp key Hacc.
  - cbn. by rewrite app_nil_r.
  - cbn [format_batches forallb keyed_batches].
    rewrite (format_batch_run fields batch batch [] key).
    + destruct (complete_batch fields batch); [|done]. cbn [andb app].
      rewrite dict_set_fresh by (intros Hin%Hacc; lia).
      rewrite IH.
      * destruct (forallb _ batches); [|done]. by rewrite <- app_assoc.
      * intros t. unfold dict_keys. rewrite fmap_app, elem_of_app. cbn.
        intros [Hin%Hacc|Hin%list_elem_of_singleton]; lia.
    + intros w rows Hin. by apply dict_get_elem_of.
    + done.
Qed.

(** The whole of [table_from_list_of_batches_by_workers]. *)
Lemma by_workers_run batches (schema : Schema) (s : state) :
  Forall dict_wf batches →
  table_from_list_of_batches_by_workers ref_scalar batches schema s
  = if forallb (complete_batch schema) batches
    then _table_from_dict (keyed_batches ref_scalar schema 2 0 batches) schema s
    else Raised KeyError s [].
Proof.
  intros Hwf. unfold table_from_list_of_batches_by_workers.
  rewrite format_batches_run by (done || by intros t ?%elem_of_nil).
  by destruct (forallb _ batches).
Qed.

Lemma keyed_batches_keys fields t key batches :
  dict_keys (keyed_batches ref_scalar fields t key batches)
  = (λ i : nat, t + 2 * Z.of_nat i) <$> seq 0 (length batches).
Proof.
  revert t key. induction batches as [|b batches IH]; intros t key; [done|].
  cbn [keyed_batches length seq fmap list_fmap].
  change (dict_keys ((?a, ?b) :: ?l)) with (a :: dict_keys l).
  rewrite IH. f_equal; [lia|]. rewrite <- fmap_S_seq, <- list_fmap_compose.
  apply list_fmap_ext. intros _ i _. simpl. lia.
Qed.

Lemma keyed_batches_sorted fields t key batches :
  StronglySorted Z.lt (dict_keys (keyed_batches ref_scalar fields t key batches)).
Proof.
  revert t key. induction batches as [|b batches IH]; intros t key; [constructor|].
  cbn [keyed_batches].
  change (dict_keys ((?a, ?b) :: ?l)) with (a :: dict_keys l).
  constructor; [apply IH|]. rewrite keyed_batches_keys.
  apply Forall_fmap, Forall_forall. intros i _. simpl. lia.
Qed.

Lemma keyed_batch_keys fields key batch :
  dict_keys (keyed_batch ref_scalar fields key batch) = dict_keys batch.
Proof.
  revert key. induction batch as [|[w rows] batch IH]; intros key; [done|].
  cbn [keyed_batch].
  change (dict_keys ((?a, ?b) :: ?l)) with (a :: dict_keys l).
  by rewrite IH.
Qed.

Lemma keyed_batches_wf fields t key batches :
  Forall dict_wf batches →
  batches_wf (keyed_batches ref_scalar fields t key batches).
Proof.
  intros Hwf. split.
  - unfold dict_wf. pose proof (keyed_batches_sorted fields t key batches) as Hs.
    induction Hs as [|x l _ IH Hx]; constructor; [|done].
    intros Hin. rewrite Forall_forall in Hx. specialize (Hx x Hin). lia.
  - revert t key. induction Hwf as [|b batches Hb _ IH]; intros t key;
      cbn [keyed_batches]; constructor; [|apply IH].
    unfold dict_wf. simpl. by rewrite keyed_batch_keys.
Qed.

Lemma keyed_changes_valid fields key rows :
  forallb valid_change (keyed_changes ref_scalar fields key rows) = true.
Proof. revert key. induction rows as [|row rows IH]; intros key; simpl; auto. Qed.

Lemma keyed_batches_valid fields t key batches :
  all_valid (keyed_batches ref_scalar fields t key batches) = true.
Proof.
  unfold all_valid. revert t key.
  induction batches as [|b batches IH]; intros t key; [done|].
  cbn [keyed_batches forallb snd]. rewrite IH, andb_true_r.
  unfold valid_batch. clear IH. revert key.
  induction b as [|[w rows] b IH]; intros key; [done|].
  cbn [keyed_batch forallb snd]. by rewrite keyed_changes_valid, IH.
Qed.

Lemma keyed_batches_no_negative fields t key batches :
  0 ≤ t → has_negative (keyed_batches ref_scalar fields t key batches) = false.
Proof.
  intros Ht. unfold has_negative. rewrite keyed_batches_keys.
  apply not_true_is_false. intros (x & Hx%list_elem_of_In & Hneg)%existsb_exists.
  apply list_elem_of_fmap in Hx as (i & -> & _). apply Z.ltb_lt in Hneg. lia.
Qed.

Lemma keyed_batches_no_odd fields t key batches :
  t `mod` 2 = 0 → has_odd (keyed_batches ref_scalar fields t key batches) = false.
Proof.
  intros Ht. unfold has_odd. rewrite keyed_batches_keys.
  apply not_true_is_false. intros (x & Hx%list_elem_of_In & Hodd)%existsb_exists.
  apply list_elem_of_fmap in Hx as (i & -> & _). apply Z.eqb_eq in Hodd.
  rewrite Z.mul_comm, Z.mod_add in Hodd by lia. lia.
Qed.

Lemma keyed_batches_workers fields t key batches w :
  w ∈ workers_of (keyed_batches ref_scalar fields t key batches)
  ↔ ∃ batch, batch ∈ batches ∧ w ∈ dict_keys batch.
Proof.
  unfold workers_of. rewrite elem_of_list_to_set. revert t key.
  induction batches as [|b batches IH]; intros t key.
  - simpl. split; [by intros ?%elem_of_nil|by intros (? & ?%elem_of_nil & _)].
  - cbn [keyed_batches]. unfold dict_values in *. cbn [fmap list_fmap flat_map snd].
    rewrite elem_of_app, keyed_batch_keys, IH. split.
    + intros [Hw|(batch & Hin & Hw)]; [exists b|exists batch]; split; try done;
        by constructor.
    + intros (batch & [->|Hin]%elem_of_cons & Hw); [by left|right; eauto].
Qed.

(** The outcome of [table_from_list_of_batches_by_workers] on complete
    rows. *)
Lemma by_workers_outcome batches (schema : Schema) (s : state) :
  Forall dict_wf batches →
  forallb (complete_batch schema) batches = true →
  let fb := keyed_batches ref_scalar schema 2 0 batches in
  let r := table_from_list_of_batches_by_workers ref_scalar batches schema s in
  res_value r = inr (mkStreamTable (next_id s) schema) ∧
  res_warnings r = [] ∧
  _persistent_id (res_state r) = (_persistent_id s + 1)%N ∧
  (∀ p w, ¬ (p = next_id s ∧ w ∈ workers_of fb) →
          events (res_state r) !! (p, w) = events s !! (p, w)) ∧
  (∀ w, w ∈ workers_of fb →
        events (res_state r) !! (next_id s, w) = Some (events_in_order fb w)).
Proof.
  intros Hwf Hc fb r. subst r. rewrite by_workers_run, Hc by done.
  pose proof (table_from_dict_outcome fb schema s
                (keyed_batches_wf schema 2 0 batches Hwf)
                (keyed_batches_no_negative schema 2 0 batches ltac:(lia))) as H.
  cbv zeta in H. subst fb.
  rewrite keyed_batches_no_odd, keyed_batches_valid in H by done.
  destruct H as (Hw & Hid & Hframe & Hv & Hev). split_and!; try done.
  intros w Hin. rewrite (Hev w Hin). f_equal. unfold normalized.
  rewrite keyed_batches_no_odd by done.
  apply worker_events_in_order; [apply keyed_batches_wf; done|].
  apply StronglySorted_Sorted.
  pose proof (keyed_batches_sorted schema 2 0 batches) as Hs.
  induction Hs as [|x l _ IH Hx]; constructor; [done|].
  eapply Forall_impl; [exact Hx|]. intros y. simpl. lia.
Qed.
End keyed_facts.

Lemma barrier_times_in_order (batches : Batches) (w : Z) :
  barrier_times (events_in_order batches w) = dict_keys batches.
Proof.
  unfold events_in_order. induction batches as [|[t b] batches IH]; [done|].
  cbn [flat_map]. rewrite barrier_times_app, IH.
  change (barrier_times (AdvanceTime ?t :: ?k)) with (t :: barrier_times k).
  by rewrite barrier_times_changes.
Qed.

Lemma incomplete_batches (schema : Schema)
    (batches : list (dict Z (list (dict string Value)))) batch w rows row field :
  batch ∈ batches → (w, rows) ∈ batch → row ∈ rows → field ∈ schema →
  dict_get row field = None →
  forallb (complete_batch schema) batches = false.
Proof.
  intros Hb Hw Hr Hf Hget. apply not_true_is_false. rewrite forallb_forall.
  intros H. specialize (H batch (proj1 (list_elem_of_In _ _) Hb)).
  unfold complete_batch in H. rewrite forallb_forall in H.
  specialize (H (w, rows) (proj1 (list_elem_of_In _ _) Hw)). simpl in H.
  rewrite forallb_forall in H.
  specialize (H row (proj1 (list_elem_of_In _ _) Hr)).
  unfold complete_row in H. rewrite forallb_forall in H.
  specialize (H field (proj1 (list_elem_of_In _ _) Hf)).
  apply bool_decide_eq_true in H. rewrite Hget in H. by destruct H.
Qed.

Lemma keyed_changes_events (ref_scalar : N → Pointer) fields key rows :
  flat_map change_events (keyed_changes ref_scalar fields key rows)
  = (λ c : Change, Insert c.1.2 c.2) <$> keyed_changes ref_scalar fields key rows.
Proof.
  revert key. induction rows as [|row rows IH]; intros key; [done|].
  cbn [keyed_changes flat_map fmap list_fmap]. rewrite IH. done.
Qed.

Lemma single_worker_in_order (ref_scalar : N → Pointer) fields t key
    (batches : list (list (dict string Value))) :
  events_in_order
    (keyed_batches ref_scalar fields t key ((λ batch, [(0, batch)]) <$> batches)) 0
  = single_worker_events ref_scalar fields t key batches.
Proof.
  unfold events_in_order. revert t key.
  induction batches as [|rows batches IH]; intros t key; [done|].
  cbn [fmap list_fmap keyed_batches keyed_batch flat_map single_worker_events fst snd].
  assert (batch_rows [(0, rows)] = length rows) as ->
    by (unfold batch_rows; cbn; unfold id; lia).
  specialize (IH (t + 2) (key + N.of_nat (length rows))%N).
  cbn [fmap list_fmap] in IH. rewrite IH.
  unfold worker_changes. cbn [dict_get]. rewrite decide_True by done.
  cbn [default]. unfold id. by rewrite keyed_changes_events.
Qed.

(** X5.  When every row has every column of the schema,
    [table_from_list_of_batches_by_workers] returns the table of a new
    stream without a warning.  Every worker named in some batch receives,
    for the batches in the order given, a barrier at 2, 4, ..., 2n, also
    for the batches it has no rows in, each followed by its rows of that
    batch as insertions whose keys count the rows of all workers from 0. *)
Theorem X5_batches_by_workers (ref_scalar : N → Pointer)
    (batches : list (dict Z (list (dict string Value)))) (schema : Schema)
    (s : state) :
  Forall dict_wf batches →
  forallb (complete_batch schema) batches = true →
  let fb := keyed_batches ref_scalar schema 2 0 batches in
  let r := table_from_list_of_batches_by_workers ref_scalar batches schema s in
  res_value r = inr (mkStreamTable (next_id s) schema) ∧
  res_warnings r = [] ∧
  ∀ batch w, batch ∈ batches → w ∈ dict_keys batch →
    events (res_state r) !! (next_id s, w) = Some (events_in_order fb w) ∧
    barrier_times (events_in_order fb w)
    = (λ i : nat, 2 * (Z.of_nat i + 1)) <$> seq 0 (length batches).
Proof.
  intros Hwf Hc fb r.
  destruct (by_workers_outcome ref_scalar batches schema s Hwf Hc)
    as (Hv & Hw & _ & _ & Hev).
  split_and!; [done|done|]. intros batch w Hb Hin. split.
  - apply Hev. apply keyed_batches_workers. eauto.
  - rewrite barrier_times_in_order. subst fb. rewrite keyed_batches_keys.
    apply list_fmap_ext. intros _ i _. lia.
Qed.

Lemma X5_batches_by_workers_witness :
  let r := table_from_list_of_batches_by_workers ex_ref_scalar ex_worker_batches
             ["a"; "b"]%string ex_state in
  events (res_state r) !! ("_stream_generator_0"%string, 1)
  = Some [AdvanceTime 2; Insert 102%N [VInt 5; VInt 6];
          AdvanceTime 4; Insert 103%N [VInt 7; VInt 8]].
Proof.
  intros r.
  assert (Forall dict_wf ex_worker_batches) as Hwf
    by (apply (bool_decide_unpack _); vm_compute; exact I).
  destruct (X5_batches_by_workers ex_ref_scalar ex_worker_batches
              ["a"; "b"]%string ex_state Hwf eq_refl) as (_ & _ & H).
  destruct (H [(1, [ex_named_row 7 8])] 1) as [Hev _].
  - unfold ex_worker_batches. apply elem_of_cons. right. apply elem_of_cons. by left.
  - apply elem_of_cons. by left.
  - exact Hev.
Defined.

(** X6.  A row that lacks a column of the schema makes
    [table_from_list_of_batches_by_workers] raise [KeyError] before the
    generator is touched: no identifier is used up and nothing is
    registered or warned of. *)
Theorem X6_missing_field (ref_scalar : N → Pointer)
    (batches : list (dict Z (list (dict string Value)))) (schema : Schema)
    (s : state) batch w rows row field :
  Forall dict_wf batches →
  batch ∈ batches → (w, rows) ∈ batch → row ∈ rows → field ∈ schema →
  dict_get row field = None →
  table_from_list_of_batches_by_workers ref_scalar batches schema s
  = Raised KeyError s [].
Proof.
  intros Hwf Hb Hw Hr Hf Hget. rewrite by_workers_run by done.
  by rewrite (incomplete_batches schema batches batch w rows row field).
Qed.

Lemma X6_missing_field_witness :
  table_from_list_of_batches_by_workers ex_ref_scalar ex_incomplete_batches
    ["a"; "b"]%string ex_state
  = Raised KeyError ex_state [].
Proof.
  apply (X6_missing_field ex_ref_scalar ex_incomplete_batches ["a"; "b"]%string
           ex_state [(0, [ex_named_row 1 2; [("a"%string, VInt 3)]])] 0
           [ex_named_row 1 2; [("a"%string, VInt 3)]] [("a"%string, VInt 3)]
           "b"%string).
  - apply (bool_decide_unpack _). vm_compute. exact I.
  - apply elem_of_cons. by left.
  - apply elem_of_cons. by left.
  - apply elem_of_cons. right. apply elem_of_cons. by left.
  - apply elem_of_cons. right. apply elem_of_cons. by left.
  - reflexivity.
Defined.

(** X7.  [table_from_list_of_batches] on rows that have every column of
    the schema returns without a warning and touches one entry of the
    registry only, that of worker 0 of the new stream, which holds for
    the batches in order a barrier at 2, 4, ... followed by the rows of
    the batch as insertions with keys counted from 0. *)
Theorem X7_single_worker (ref_scalar : N → Pointer)
    (batches : list (list (dict string Value))) (schema : Schema) (s : state) :
  forallb (forallb (complete_row schema)) batches = true →
  let r := table_from_list_of_batches ref_scalar batches schema s in
  res_value r = inr (mkStreamTable (next_id s) schema) ∧
  res_warnings r = [] ∧
  (∀ p w, (p, w) ≠ (next_id s, 0) →
          events (res_state r) !! (p, w) = events s !! (p, w)) ∧
  (batches ≠ [] →
   events (res_state r) !! (next_id s, 0)
   = Some (single_worker_events ref_scalar schema 2 0 batches)).
Proof.
  intros Hc r. subst r. unfold table_from_list_of_batches.
  set (bw := (λ batch, [(0, batch)]) <$> batches).
  assert (Forall dict_wf bw) as Hwf.
  { apply Forall_fmap, Forall_forall. intros b _. unfold dict_wf. simpl.
    apply NoDup_singleton. }
  assert (forallb (complete_batch schema) bw = true) as Hcb.
  { apply forallb_forall. intros b (rows & <- & Hin)%in_map_iff.
    unfold complete_batch. cbn [forallb snd]. rewrite andb_true_r.
    rewrite forallb_forall in Hc. by apply Hc. }
  destruct (by_workers_outcome ref_scalar bw schema s Hwf Hcb)
    as (Hv & Hw & _ & Hframe & Hev).
  split_and!; [done|done| |].
  - intros p w Hne. apply Hframe. intros [-> Hin]. apply Hne. f_equal.
    apply keyed_batches_workers in Hin as (b & Hb & Hin).
    apply list_elem_of_fmap in Hb as (rows & -> & _).
    by apply list_elem_of_singleton in Hin.
  - intros Hne. rewrite Hev.
    + subst bw. by rewrite single_worker_in_order.
    + apply keyed_batches_workers. destruct batches as [|rows batches]; [done|].
      exists [(0, rows)]. split; [by left|by left].
Qed.

Lemma X7_single_worker_witness :
  events (res_state (table_from_list_of_batches ex_ref_scalar ex_row_batches
                       ["a"; "b"]%string ex_state))
    !! ("_stream_generator_0"%string, 0)
  = Some [AdvanceTime 2; Insert 100%N [VInt 1; VInt 2];
          Insert 101%N [VInt 3; VInt 4];
          AdvanceTime 4; Insert 102%N [VInt 5; VInt 6]].
Proof.
  destruct (X7_single_worker ex_ref_scalar ex_row_batches ["a"; "b"]%string
              ex_state eq_refl) as (_ & _ & _ & H).
  by apply H.
Defined.

End StreamMore.

(** ** Streams from dataframes *)

Module FrameMore.
Import StreamGenerator BuildSpec BuildFacts StaticSpec StaticFacts MoreSpec.

Lemma gdict_get_set_eq {K V} `{EqDecision K} (d : dict K V) k v :
  dict_get (dict_set d k v) k = Some v.
Proof.
  induction d as [|[k' v'] d IH]; simpl.
  - by rewrite decide_True.
  - destruct (decide (k' = k)) as [->|]; simpl.
    + by rewrite decide_True.
    + by rewrite decide_False.
Qed.

Lemma gdict_get_set_ne {K V} `{EqDecision K} (d : dict K V) k k' v :
  k ≠ k' → dict_get (dict_set d k v) k' = dict_get d k'.
Proof.
  intros Hne. induction d as [|[k0 v0] d IH]; simpl.
  - by rewrite decide_False.
  - destruct (decide (k0 = k)) as [->|]; simpl.
    + by rewrite !decide_False.
    + destruct (decide (k0 = k')); [done|]. apply IH.
Qed.

Lemma gdict_set_set {K V} `{EqDecision K} (d : dict K V) k v0 v :
  dict_set (dict_set d k v0) k v = dict_set d k v.
Proof.
  induction d as [|[k' v'] d IH]; simpl.
  - by rewrite decide_True.
  - destruct (decide (k' = k)) as [->|]; simpl.
    + by rewrite decide_True.
    + by rewrite decide_False, IH.
Qed.

Lemma gdict_keys_set {K V} `{EqDecision K} (d : dict K V) k v :
  dict_keys (dict_set d k v)
  = if dict_contains d k then dict_keys d else dict_keys d ++ [k].
Proof.
  unfold dict_contains. induction d as [|[k' v'] d IH]; cbn [dict_set].
  - rewrite bool_decide_eq_false_2; [done|]. by intros ?%elem_of_nil.
  - change (dict_keys ((k', v') :: d)) with (k' :: dict_keys d).
    destruct (decide (k' = k)) as [->|].
    + rewrite bool_decide_eq_true_2 by (by left). done.
    + change (dict_keys ((k', v') :: ?l)) with (k' :: dict_keys l). rewrite IH.
      destruct (bool_decide (k ∈ dict_keys d)) eqn:E.
      * apply bool_decide_eq_true in E.
        rewrite bool_decide_eq_true_2 by (by right). done.
      * apply bool_decide_eq_false in E.
        rewrite bool_decide_eq_false_2; [done|].
        intros [?|?]%elem_of_cons; congruence.
Qed.

Lemma gdict_set_wf {K V} `{EqDecision K} (d : dict K V) k v :
  dict_wf d → dict_wf (dict_set d k v).
Proof.
  unfold dict_wf. rewrite gdict_keys_set. unfold dict_contains.
  intros Hnd. case_bool_decide as Hin; [done|].
  apply NoDup_app. split_and!; [done| |apply NoDup_singleton].
  intros x Hx ->%list_elem_of_singleton. done.
Qed.

Lemma gdict_elem_of_keys_set {K V} `{EqDecision K} (d : dict K V) k v k' :
  k' ∈ dict_keys (dict_set d k v) ↔ k' = k ∨ k' ∈ dict_keys d.
Proof.
  rewrite gdict_keys_set. unfold dict_contains. case_bool_decide as Hin.
  - split; [auto|]. by intros [->|?].
  - rewrite elem_of_app, list_elem_of_singleton. tauto.
Qed.

Lemma gdict_get_keys {K V} `{EqDecision K} (d : dict K V) k :
  k ∈ dict_keys d ↔ is_Some (dict_get d k).
Proof.
  induction d as [|[k' v] d IH]; simpl.
  - split; [by intros ?%elem_of_nil|by intros [? ?]].
  - change (dict_keys ((k', v) :: d)) with (k' :: dict_keys d).
    rewrite elem_of_cons. destruct (decide (k' = k)) as [->|].
    + split; [by eexists|by left].
    + rewrite <- IH. split; [intros [?|?]; [congruence|done]|by right].
Qed.

Lemma gdict_set_elem_of {K V} `{EqDecision K} (d : dict K V) k v kv :
  kv ∈ dict_set d k v → kv ∈ d ∨ kv = (k, v).
Proof.
  induction d as [|[k' v'] d IH]; simpl.
  - intros ?%list_elem_of_singleton. by right.
  - destruct (decide (k' = k)) as [->|].
    + intros [->|?]%elem_of_cons; [by right|left; by right].
    + intros [->|?]%elem_of_cons; [left; by left|].
      destruct IH as [?|?]; [done|left; by right|by right].
Qed.

Lemma ensure_get {K V} `{EqDecision K} (d : dict K V) k (v0 : V) :
  default v0 (dict_get (if dict_contains d k then d else dict_set d k v0) k)
  = default v0 (dict_get d k).
Proof.
  unfold dict_contains. case_bool_decide as Hin; [done|].
  rewrite gdict_get_set_eq. rewrite gdict_get_keys in Hin.
  destruct (dict_get d k); [|done]. exfalso. by apply Hin.
Qed.

Lemma ensure_set {K V} `{EqDecision K} (d : dict K V) k (v0 v : V) :
  dict_set (if dict_contains d k then d else dict_set d k v0) k v = dict_set d k v.
Proof. destruct (dict_contains d k); [done|apply gdict_set_set]. Qed.

(** *** One row added to the batches *)

Lemma group_row_eq (bs : Batches) t w c :
  group_row bs (t, w, c)
  = dict_set bs t
      (dict_set (default [] (dict_get bs t)) w
         (worker_changes (default [] (dict_get bs t)) w ++ [c])).
Proof.
  unfold group_row, worker_changes. cbv zeta.
  rewrite (ensure_set bs t []), (ensure_get bs t []).
  by rewrite (ensure_set (default [] (dict_get bs t)) w []),
    (ensure_get (default [] (dict_get bs t)) w []).
Qed.

Lemma batch_at_wf (bs : Batches) t :
  batches_wf bs → dict_wf (default [] (dict_get bs t)).
Proof.
  intros [_ Hall]. destruct (dict_get bs t) as [b|] eqn:E; simpl.
  - apply dict_get_Some_elem_of in E. rewrite Forall_forall in Hall.
    apply (Hall (t, b) E).
  - apply NoDup_nil_2.
Qed.

Lemma group_row_wf (bs : Batches) r : batches_wf bs → batches_wf (group_row bs r).
Proof.
  destruct r as [[t w] c]. intros Hwf. rewrite group_row_eq.
  split; [apply gdict_set_wf, Hwf|].
  apply Forall_forall. intros tb [Hin| ->]%gdict_set_elem_of.
  - destruct Hwf as [_ Hall]. rewrite Forall_forall in Hall. by apply Hall.
  - simpl. by apply gdict_set_wf, batch_at_wf.
Qed.

Lemma group_row_changes (bs : Batches) t w c t' w' :
  worker_changes (default [] (dict_get (group_row bs (t, w, c)) t')) w'
  = worker_changes (default [] (dict_get bs t')) w'
    ++ (if decide (t = t' ∧ w = w') then [c] else []).
Proof.
  rewrite group_row_eq. destruct (decide (t = t')) as [<-|Ht].
  - rewrite gdict_get_set_eq. cbn [default]. unfold id, worker_changes at 1.
    destruct (decide (w = w')) as [<-|Hw].
    + rewrite gdict_get_set_eq, decide_True by done. done.
    + rewrite gdict_get_set_ne by done.
      rewrite decide_False by (by intros [_ ?]). by rewrite app_nil_r.
  - rewrite gdict_get_set_ne by done.
    rewrite decide_False by (by intros [? _]). by rewrite app_nil_r.
Qed.

Lemma group_row_keys (bs : Batches) t w c t' :
  t' ∈ dict_keys (group_row bs (t, w, c)) ↔ t' = t ∨ t' ∈ dict_keys bs.
Proof. rewrite group_row_eq. apply gdict_elem_of_keys_set. Qed.

Lemma workers_of_get (bs : Batches) w :
  dict_wf bs →
  w ∈ workers_of bs ↔ ∃ t, w ∈ dict_keys (default [] (dict_get bs t)).
Proof.
  intros Hwf. unfold workers_of. rewrite elem_of_list_to_set, list_elem_of_In.
  rewrite in_flat_map. split.
  - intros (b & Hb%list_elem_of_In & Hw%list_elem_of_In).
    apply list_elem_of_fmap in Hb as ([t b'] & -> & Hin). exists t.
    by rewrite (dict_get_elem_of bs t b').
  - intros (t & Hw). destruct (dict_get bs t) as [b|] eqn:E; simpl in Hw.
    + exists b. split; apply list_elem_of_In; [|done].
      apply list_elem_of_fmap. exists (t, b). split; [done|].
      by apply dict_get_Some_elem_of.
    + by apply elem_of_nil in Hw.
Qed.

Lemma group_row_workers (bs : Batches) t w c w' :
  batches_wf bs →
  w' ∈ workers_of (group_row bs (t, w, c)) ↔ w' = w ∨ w' ∈ workers_of bs.
Proof.
  intros Hwf.
  rewrite workers_of_get by apply (group_row_wf bs (t, w, c) Hwf).
  rewrite workers_of_get by apply Hwf. rewrite group_row_eq. split.
  - intros (t' & Hin). destruct (decide (t = t')) as [<-|Ht].
    + rewrite gdict_get_set_eq in Hin. simpl in Hin.
      apply gdict_elem_of_keys_set in Hin as [->|Hin]; [by left|right; eauto].
    + rewrite gdict_get_set_ne in Hin by done. right; eauto.
  - intros [->|(t' & Hin)].
    + exists t. rewrite gdict_get_set_eq. simpl.
      apply gdict_elem_of_keys_set. by left.
    + exists t'. destruct (decide (t = t')) as [<-|Ht].
      * rewrite gdict_get_set_eq. simpl. apply gdict_elem_of_keys_set. by right.
      * by rewrite gdict_get_set_ne.
Qed.

(** *** All rows added *)

Lemma rows_at_snoc rows r t w :
  rows_at (rows ++ [r]) t w
  = rows_at rows t w ++ (if decide (r.1.1 = t ∧ r.1.2 = w) then [r.2] else []).
Proof.
  unfold rows_at. rewrite omap_app. f_equal. simpl. by case_decide.
Qed.

Lemma group_wf rows : batches_wf (foldl group_row [] rows).
Proof.
  induction rows as [|r rows IH] using rev_ind.
  - split; [apply NoDup_nil_2|constructor].
  - rewrite foldl_app. by apply group_row_wf.
Qed.

Lemma group_changes rows t w :
  worker_changes (default [] (dict_get (foldl group_row [] rows) t)) w
  = rows_at rows t w.
Proof.
  induction rows as [|[[t0 w0] c] rows IH] using rev_ind; [done|].
  rewrite foldl_app. cbn [foldl]. by rewrite group_row_changes, IH, rows_at_snoc.
Qed.

Lemma group_keys rows t :
  t ∈ dict_keys (foldl group_row [] rows)
  ↔ t ∈ (λ r : Z * Z * Change, r.1.1) <$> rows.
Proof.
  induction rows as [|[[t0 w0] c] rows IH] using rev_ind.
  - simpl. done.
  - rewrite foldl_app. cbn [foldl]. rewrite group_row_keys, IH, fmap_app.
    rewrite elem_of_app. simpl. rewrite list_elem_of_singleton. tauto.
Qed.

Lemma group_workers rows w :
  w ∈ workers_of (foldl group_row [] rows)
  ↔ w ∈ (λ r : Z * Z * Change, r.1.2) <$> rows.
Proof.
  induction rows as [|[[t0 w0] c] rows IH] using rev_ind.
  - unfold workers_of. simpl. split; [by intros ?%elem_of_empty|by intros ?%elem_of_nil].
  - rewrite foldl_app. cbn [foldl].
    rewrite group_row_workers by apply group_wf. rewrite IH, fmap_app.
    rewrite elem_of_app. simpl. rewrite list_elem_of_singleton. tauto.
Qed.

Lemma group_valid rows :
  Forall (λ r : Z * Z * Change, valid_change r.2 = true) rows →
  all_valid (foldl group_row [] rows) = true.
Proof.
  intros Hall. pose proof (group_wf rows) as [Hwf Hwfs].
  unfold all_valid. apply forallb_forall. intros [t b] Hb%list_elem_of_In.
  unfold valid_batch. apply forallb_forall. intros [w cs] Hw%list_elem_of_In.
  apply forallb_forall. intros c Hc%list_elem_of_In. simpl in *.
  pose proof (group_changes rows t w) as Hch.
  rewrite (dict_get_elem_of _ t b Hwf Hb) in Hch. simpl in Hch.
  rewrite Forall_forall in Hwfs. specialize (Hwfs (t, b) Hb). simpl in Hwfs.
  unfold worker_changes in Hch.
  rewrite (dict_get_elem_of _ w cs Hwfs Hw) in Hch. simpl in Hch. subst cs.
  apply list_elem_of_omap in Hc as (r & Hr & Hsome).
  case_decide; [|done]. simplify_eq. rewrite Forall_forall in Hall.
  by apply Hall.
Qed.

Lemma existsb_fmap {B C} (f : C → bool) (g : B → C) (l : list B) :
  existsb f (g <$> l) = existsb (λ x, f (g x)) l.
Proof. induction l as [|x l IH]; [done|]. csimpl. by rewrite IH. Qed.

Lemma group_negative rows :
  has_negative (foldl group_row [] rows)
  = existsb (λ r : Z * Z * Change, r.1.1 <? 0) rows.
Proof.
  unfold has_negative. rewrite <- (existsb_fmap (λ t, t <? 0) (λ r, r.1.1)).
  apply existsb_iff. intros t. by rewrite group_keys.
Qed.

Lemma group_odd rows :
  has_odd (foldl group_row [] rows)
  = existsb (λ r : Z * Z * Change, r.1.1 `mod` 2 =? 1) rows.
Proof.
  unfold has_odd. rewrite <- (existsb_fmap (λ t, t `mod` 2 =? 1) (λ r, r.1.1)).
  apply existsb_iff. intros t. by rewrite group_keys.
Qed.

Lemma group_times rows :
  merge_sort Z.le (dict_keys (foldl group_row [] rows)) = row_times rows.
Proof.
  unfold row_times. apply CacheFacts.merge_sort_perm. apply NoDup_Permutation.
  - apply group_wf.
  - apply NoDup_remove_dups.
  - intros t. by rewrite group_keys, elem_of_remove_dups.
Qed.

(** The events of a worker for the grouped rows. *)
Lemma group_events rows w :
  worker_events (normalized (foldl group_row [] rows)) w
  = flat_map (λ t, AdvanceTime
                     (if existsb (λ r : Z * Z * Change, r.1.1 `mod` 2 =? 1) rows
                      then 2 * t else t)
                     :: flat_map change_events (rows_at rows t w))
             (row_times rows).
Proof.
  unfold normalized. rewrite group_odd.
  destruct (existsb _ rows); unfold worker_events.
  - rewrite doubled_keys, sorted_doubled, group_times.
    induction (row_times rows) as [|t l IH]; [done|].
    cbn [fmap list_fmap flat_map]. rewrite IH. f_equal.
    unfold block. by rewrite doubled_get, group_changes.
  - rewrite group_times.
    induction (row_times rows) as [|t l IH]; [done|].
    cbn [flat_map]. rewrite IH. f_equal.
    unfold block. by rewrite group_changes.
Qed.

(** *** Reading the rows *)

Lemma opt_run_bind {S A B} (o : option A) (f : A → option B)
    (m : M S A) (k : A → M S B) (s : S) :
  opt_run o (m s) s → (∀ a, opt_run (f a) (k a s) s) →
  opt_run (o ≫= f) (bind m k s) s.
Proof.
  intros Hm Hk. destruct o as [a|]; simpl in *.
  - rewrite (bind_pure _ _ s a s Hm). apply Hk.
  - destruct Hm as [e He]. exists e. by rewrite (bind_raised _ _ s e s []).
Qed.

Lemma opt_run_getitem {S V} (d : dict string V) k (s : S) :
  opt_run (dict_get d k) (dict_getitem d k s) s.
Proof. unfold dict_getitem. destruct (dict_get d k); simpl; [done|by eexists]. Qed.

Lemma opt_run_row_cell {S} df i c (s : S) :
  opt_run (cell df c i) (row_cell df i c s) s.
Proof.
  unfold cell, row_cell. apply opt_run_bind; [apply opt_run_getitem|].
  intros cells. destruct (cells !! i); simpl; [done|by eexists].
Qed.

Lemma opt_run_int_cell {S} df i c (s : S) :
  opt_run (int_at df c i) (int_cell df i c s) s.
Proof.
  unfold int_at, int_cell. apply opt_run_bind; [apply opt_run_row_cell|].
  intros v. destruct (value_int v); simpl; [done|by eexists].
Qed.

Lemma opt_run_map_m {S B C} (f : B → option C) (g : B → M S C) l (s : S) :
  (∀ x, opt_run (f x) (g x s) s) → opt_run (mapM f l) (map_m g l s) s.
Proof.
  intros Hf. induction l as [|x l IH]; [done|]. cbn [map_m mapM].
  apply opt_run_bind; [done|]. intros y.
  change (opt_run (mapM f l ≫= λ ys, Some (y :: ys))
            (bind (map_m g l) (λ ys, ret (y :: ys)) s) s).
  apply opt_run_bind; [done|]. done.
Qed.

Lemma opt_run_add_row {S} denumpify df ids fields (bs : Batches) i (s : S) :
  opt_run (group_row bs <$> row_change denumpify ids df fields i)
          (add_row denumpify df ids fields bs i s) s.
Proof.
  unfold add_row, row_change.
  pose proof (opt_run_int_cell df i "_time" s) as Ht.
  destruct (int_at df "_time" i) as [t|]; simpl in Ht |- *;
    [rewrite (bind_pure _ _ s t s Ht)
    |destruct Ht as [e He]; exists e; by rewrite (bind_raised _ _ s e s [])].
  pose proof (opt_run_int_cell df i "_worker" s) as Hw.
  destruct (int_at df "_worker" i) as [w|]; simpl in Hw |- *;
    [rewrite (bind_pure _ _ s w s Hw)
    |destruct Hw as [e He]; exists e; by rewrite (bind_raised _ _ s e s [])].
  pose proof (opt_run_map_m (λ column, denumpify <$> cell df column i)
                (λ column, bind (row_cell df i column) (λ v, ret (denumpify v)))
                fields s) as Hv.
  lapply Hv.
  2:{ intros c. change (denumpify <$> cell df c i)
        with (cell df c i ≫= λ v, Some (denumpify v)).
      apply opt_run_bind; [apply opt_run_row_cell|done]. }
  clear Hv. intros Hv.
  destruct (mapM _ fields) as [vs|]; simpl in Hv |- *;
    [rewrite (bind_pure _ _ s vs s Hv)
    |destruct Hv as [e He]; exists e; by rewrite (bind_raised _ _ s e s [])].
  pose proof (opt_run_int_cell df i "_diff" s) as Hd.
  destruct (int_at df "_diff" i) as [d|]; simpl in Hd |- *;
    [rewrite (bind_pure _ _ s d s Hd)
    |destruct Hd as [e He]; exists e; by rewrite (bind_raised _ _ s e s [])].
  done.
Qed.

Lemma opt_run_add_rows {S} denumpify df ids fields (bs : Batches) idxs (s : S) :
  opt_run (foldl group_row bs <$> mapM (row_change denumpify ids df fields) idxs)
          (add_rows denumpify df ids fields bs idxs s) s.
Proof.
  revert bs. induction idxs as [|i idxs IH]; intros bs; [done|].
  cbn [add_rows mapM].
  pose proof (opt_run_add_row denumpify df ids fields bs i s) as Hrow.
  destruct (row_change denumpify ids df fields i) as [r|]; simpl in Hrow |- *.
  - rewrite (bind_pure _ _ s _ s Hrow). specialize (IH (group_row bs r)).
    by destruct (mapM _ idxs).
  - destruct Hrow as [e He]. exists e. by rewrite (bind_raised _ _ s e s []).
Qed.

Lemma with_stream_columns_len (df : DataFrame) :
  df_len (with_stream_columns df) = df_len df.
Proof.
  unfold df_len, with_stream_columns. by rewrite !add_default_index.
Qed.

Section stream_pandas.
Context (schema_from_pandas : DataFrame → option (list string) → list string → Schema)
        (ids_from_pandas : DataFrame → bool → option (list string) → Value → Pointer)
        (denumpify : Value → Value).

Lemma stream_pandas_run id_from unsafe_trusted_ids schema (df : DataFrame)
    (s : state) :
  let run := table_from_pandas schema_from_pandas ids_from_pandas denumpify
               id_from unsafe_trusted_ids schema (df, s) in
  match frame_rows schema_from_pandas ids_from_pandas denumpify
          id_from unsafe_trusted_ids schema df with
  | Some rows =>
      run = on_snd (_table_from_dict_of
                      (df_dtype (with_stream_columns df) "_time")
                      (foldl group_row [] rows)
                      (fields_of schema_from_pandas schema df))
                   (with_stream_columns df, s)
  | None => ∃ e, run = Raised e (with_stream_columns df, s) []
  end.
Proof.
  intros run. subst run. unfold table_from_pandas.
  rewrite (bind_pure _ _ _ (df, s) (df, s)) by reflexivity. cbv beta.
  rewrite (bind_pure _ _ _ () (add_default df "_time" (VInt 2), s))
    by (unfold on_fst; by rewrite add_missing_column_run).
  rewrite (bind_pure _ _ _ ()
             (add_default (add_default df "_time" (VInt 2)) "_worker" (VInt 0), s))
    by (unfold on_fst; by rewrite add_missing_column_run).
  rewrite (bind_pure _ _ _ () (with_stream_columns df, s))
    by (unfold on_fst; by rewrite add_missing_column_run).
  rewrite (bind_pure _ _ _ (with_stream_columns df, s) (with_stream_columns df, s))
    by reflexivity.
  cbv beta. cbn [fst]. fold (fields_of schema_from_pandas schema df).
  rewrite with_stream_columns_len. unfold frame_rows. cbv zeta.
  match goal with
  | |- context [add_rows ?d ?df1 ?ids ?f ?b ?idxs] =>
      pose proof (opt_run_add_rows d df1 ids f b idxs (with_stream_columns df, s))
        as Hrows
  end.
  destruct (mapM _ (seq 0 (df_len df))) as [rows|]; simpl in Hrows.
  - by rewrite (bind_pure _ _ _ _ _ Hrows).
  - destruct Hrows as [e He]. exists e.
    by rewrite (bind_raised _ _ _ e (with_stream_columns df, s) [] He).
Qed.
End stream_pandas.

Lemma on_snd_value {S T A} (m : M T A) (a : S) (t : T) :
  res_value (on_snd m (a, t)) = res_value (m t) ∧
  res_warnings (on_snd m (a, t)) = res_warnings (m t) ∧
  res_state (on_snd m (a, t)) = (a, res_state (m t)).
Proof. unfold on_snd. by destruct (m t). Qed.

(** X8.  [StreamGenerator.table_from_pandas] on a dataframe whose rows
    can all be read, with no negative time and every diff 1 or -1, and
    such that, when some time is odd, the double of every time is a
    value of the dtype of the column [_time], returns the table of a new
    stream.  It warns, of the doubling only, exactly when some time is
    odd.  Every worker of the [_worker] column receives one barrier per
    distinct time of the dataframe, ascending and doubled when some time
    is odd, each followed by the worker's rows of that time in the order
    of the dataframe; no other entry of the registry changes. *)
Theorem X8_stream_from_dataframe
    (schema_from_pandas : DataFrame → option (list string) → list string → Schema)
    (ids_from_pandas : DataFrame → bool → option (list string) → Value → Pointer)
    (denumpify : Value → Value)
    id_from unsafe_trusted_ids schema (df : DataFrame) (s : state)
    (rows : list (Z * Z * Change)) :
  frame_rows schema_from_pandas ids_from_pandas denumpify
    id_from unsafe_trusted_ids schema df = Some rows →
  Forall (λ r : Z * Z * Change, 0 ≤ r.1.1) rows →
  Forall (λ r : Z * Z * Change, r.2.1.1 = 1 ∨ r.2.1.1 = -1) rows →
  let r := table_from_pandas schema_from_pandas ids_from_pandas denumpify
             id_from unsafe_trusted_ids schema (df, s) in
  let odd := existsb (λ r : Z * Z * Change, r.1.1 `mod` 2 =? 1) rows in
  (odd = true →
   Forall (λ r : Z * Z * Change,
             fits (df_dtype (with_stream_columns df) "_time") (2 * r.1.1))
          rows) →
  res_value r
    = inr (mkStreamTable (next_id s) (fields_of schema_from_pandas schema df)) ∧
  res_warnings r = (if odd then [msg_doubled] else []) ∧
  (∀ p w, ¬ (p = next_id s ∧ w ∈ (λ r : Z * Z * Change, r.1.2) <$> rows) →
          events (res_state r).2 !! (p, w) = events s !! (p, w)) ∧
  (∀ w, w ∈ (λ r : Z * Z * Change, r.1.2) <$> rows →
        events (res_state r).2 !! (next_id s, w)
        = Some (flat_map (λ t, AdvanceTime (if odd then 2 * t else t)
                                 :: flat_map change_events (rows_at rows t w))
                         (row_times rows))).
Proof.
  intros Hrows Hpos Hdiff r odd Hfits. subst r odd.
  pose proof (stream_pandas_run schema_from_pandas ids_from_pandas denumpify
                id_from unsafe_trusted_ids schema df s) as Hrun.
  cbv zeta in Hrun. rewrite Hrows in Hrun. rewrite Hrun. clear Hrun.
  set (bs := foldl group_row [] rows).
  set (fields := fields_of schema_from_pandas schema df).
  set (dtype := df_dtype (with_stream_columns df) "_time") in *.
  destruct (on_snd_value (S := DataFrame) (_table_from_dict_of dtype bs fields)
              (with_stream_columns df) s) as (-> & -> & ->). cbn [snd].
  assert (has_negative bs = false) as Hneg.
  { subst bs. rewrite group_negative. apply not_true_is_false.
    intros (x & Hx%list_elem_of_In & Hlt)%existsb_exists.
    rewrite Forall_forall in Hpos. specialize (Hpos x Hx).
    apply Z.ltb_lt in Hlt. lia. }
  assert (all_valid bs = true) as Hvalid.
  { apply group_valid. eapply Forall_impl; [exact Hdiff|].
    intros [[t w] [[d k] vs]]. simpl. intros [-> | ->]; done. }
  assert (doubles_fit dtype bs) as Hdf.
  { intros Hodd t Ht. subst bs. rewrite group_odd in Hodd.
    specialize (Hfits Hodd). rewrite Forall_forall in Hfits.
    apply group_keys, list_elem_of_fmap in Ht as (x & -> & Hx). by apply Hfits. }
  pose proof (table_from_dict_of_outcome dtype bs fields s (group_wf rows)
                Hdf Hneg) as H.
  cbv zeta in H. rewrite Hvalid in H.
  destruct H as (Hw & _ & Hframe & Hv & Hev).
  split_and!.
  - done.
  - rewrite Hw. subst bs. by rewrite group_odd.
  - intros p w Hn. apply Hframe. intros [-> Hin]. apply Hn. split; [done|].
    by apply group_workers.
  - intros w Hin. rewrite Hev by (by apply group_workers).
    subst bs. by rewrite group_events.
Qed.

Lemma X8_stream_from_dataframe_witness :
  events (res_state (table_from_pandas ex_schema_from_pandas ex_ids_from_pandas
                       ex_denumpify None false None (ex_df_stream, ex_state))).2
    !! ("_stream_generator_0"%string, 0)
  = Some [AdvanceTime 2; AdvanceTime 6; Insert 0%N [VInt 5]; Delete 2%N [VInt 7]].
Proof.
  destruct (X8_stream_from_dataframe ex_schema_from_pandas ex_ids_from_pandas
              ex_denumpify None false None ex_df_stream ex_state ex_stream_rows)
    as (_ & _ & _ & H).
  - vm_compute. reflexivity.
  - apply (bool_decide_unpack _). vm_compute. exact I.
  - apply (bool_decide_unpack _). vm_compute. exact I.
  - intros _. apply (bool_decide_unpack _). vm_compute. exact I.
  - apply (H 0). apply elem_of_cons. by left.
Defined.

(** X9.  When a column of the schema is missing from a dataframe that
    has a row, [StreamGenerator.table_from_pandas] raises before the
    generator is touched: no identifier is used up, nothing is registered
    or warned of.  The caller's dataframe has the stream columns added
    all the same. *)
Theorem X9_missing_column
    (schema_from_pandas : DataFrame → option (list string) → list string → Schema)
    (ids_from_pandas : DataFrame → bool → option (list string) → Value → Pointer)
    (denumpify : Value → Value)
    id_from unsafe_trusted_ids schema (df : DataFrame) (s : state) field :
  df_len df ≠ 0%nat →
  field ∈ fields_of schema_from_pandas schema df →
  dict_get (df_columns (with_stream_columns df)) field = None →
  let r := table_from_pandas schema_from_pandas ids_from_pandas denumpify
             id_from unsafe_trusted_ids schema (df, s) in
  raises r = true ∧ res_state r = (with_stream_columns df, s) ∧
  res_warnings r = [].
Proof.
  intros Hlen Hfield Hget r. subst r.
  pose proof (stream_pandas_run schema_from_pandas ids_from_pandas denumpify
                id_from unsafe_trusted_ids schema df s) as Hrun.
  cbv zeta in Hrun.
  assert (frame_rows schema_from_pandas ids_from_pandas denumpify
            id_from unsafe_trusted_ids schema df = None) as Hnone.
  { unfold frame_rows. cbv zeta. apply mapM_None_2.
    destruct (df_len df) as [|n]; [done|]. apply Exists_cons_hd.
    unfold row_change.
    destruct (int_at _ "_time" 0); [|done].
    destruct (int_at _ "_worker" 0); [|done]. cbn [mbind option_bind].
    rewrite (mapM_None_2 _ (fields_of schema_from_pandas schema df)); [done|].
    apply Exists_exists. exists field. split; [done|].
    unfold cell. by rewrite Hget. }
  rewrite Hnone in Hrun. destruct Hrun as [e ->]. done.
Qed.

Lemma X9_missing_column_witness :
  let r := table_from_pandas ex_schema_from_pandas ex_ids_from_pandas ex_denumpify
             None false (Some ["v"; "u"]%string) (ex_df_plain, ex_state) in
  raises r = true ∧ res_state r = (with_stream_columns ex_df_plain, ex_state) ∧
  res_warnings r = [].
Proof.
  apply (X9_missing_column ex_schema_from_pandas ex_ids_from_pandas ex_denumpify
           None false (Some ["v"; "u"]%string) ex_df_plain ex_state "u"%string).
  - vm_compute. lia.
  - apply elem_of_cons. right. apply elem_of_cons. by left.
  - reflexivity.
Defined.

End FrameMore.

(** ** More on the static path *)

Module StaticMore.
Import StaticSpec StaticFacts FrameMore.

Lemma no_missing_double (dtype : Dtype) (cells : list Value) :
  no_missing (column_double dtype cells) = no_missing cells.
Proof.
  unfold no_missing, column_double.
  induction cells as [|v cells IH]; [done|]. csimpl. rewrite IH.
  by destruct v.
Qed.

Lemma odd_double (dtype : Dtype) (cells : list Value) :
  has_odd_time (column_double dtype cells) = false.
Proof.
  unfold has_odd_time. rewrite column_double_ints, existsb_fmap.
  induction (column_ints cells) as [|z l IH]; [done|]. cbn [existsb].
  rewrite IH, orb_false_r. apply Z.eqb_neq.
  by rewrite wrap_double_even.
Qed.

Lemma diff_check_returned (df df' : DataFrame) w :
  diff_check df = Returned () df' w → df' = df ∧ w = [].
Proof.
  intros H. destruct (diff_check_state df) as [Hs Hw]. rewrite H in Hs, Hw.
  simpl in *. by subst.
Qed.

(** What a validation that returned has found and done. *)
Lemma validate_returned (df df' : DataFrame) w :
  validate_outcome df = Returned () df' w →
  column_ok df TIME_PSEUDOCOLUMN = true ∧
  column_ok df DIFF_PSEUDOCOLUMN = true ∧
  diff_check df' = Returned () df' [] ∧
  match dict_get (df_columns df) TIME_PSEUDOCOLUMN with
  | Some cells =>
      no_missing cells = true ∧ has_negative_time cells = false ∧
      if has_odd_time cells
      then df' = double_times df cells ∧ w = [StreamGenerator.msg_doubled]
      else df' = df ∧ w = []
  | None => df' = df ∧ w = []
  end.
Proof.
  intros H. unfold validate_outcome in H.
  destruct (column_ok df TIME_PSEUDOCOLUMN) eqn:Ht; [|done].
  destruct (column_ok df DIFF_PSEUDOCOLUMN) eqn:Hd; [|done].
  cbn [andb negb] in H. split; [done|]. split; [done|].
  assert (∀ d, diff_check d = Returned () df' w →
               diff_check df' = Returned () df' [] ∧ df' = d ∧ w = []) as Hsame.
  { intros d Hdc. destruct (diff_check_returned _ _ _ Hdc) as [-> ->]. auto. }
  destruct (dict_get (df_columns df) TIME_PSEUDOCOLUMN) as [cells|] eqn:Hc;
    [|by apply Hsame].
  unfold negative_test, odd_test in H.
  destruct (series_any (series_test (λ t, t <? 0) cells)) as [e|[]] eqn:Eneg;
    [done..|].
  destruct (series_any_false _ _ Eneg) as [Hall Hneg].
  rewrite series_any_ints in H by done. cbn [guard] in H.
  fold (has_negative_time cells) in Hneg. fold (has_odd_time cells) in H.
  destruct (has_odd_time cells).
  - destruct (diff_check (double_times df cells)) as [[] d w'|] eqn:Hdc;
      [|done].
    simpl in H. simplify_eq.
    destruct (diff_check_returned _ _ _ Hdc) as [-> ->]. auto.
  - destruct (Hsame _ H) as (? & ? & ?). auto.
Qed.

Lemma column_ok_double (df : DataFrame) (cells : list Value) c :
  dict_get (df_columns df) TIME_PSEUDOCOLUMN = Some cells →
  column_ok (double_times df cells) c = column_ok df c.
Proof.
  intros Hc. unfold column_ok, double_times, df_setitem, df_dtype.
  cbn [df_columns df_dtypes].
  destruct (decide (c = TIME_PSEUDOCOLUMN)) as [->|Hne].
  - by rewrite dict_get_set_eq, Hc.
  - by rewrite dict_get_set_ne.
Qed.

(** X10.  A dataframe that [_validate_dataframe] has accepted is not
    changed by a second validation, which warns of nothing: the times
    are doubled once only.  The second validation accepts the dataframe
    as it is whenever the doubling of the first one stayed within the
    dtype of the column [__time__]; otherwise it may only raise
    [ValueError], at a time that wrapped around to a negative one. *)
Theorem X10_validation_idempotent (df df' : DataFrame) (w : list string) :
  _validate_dataframe df = Returned () df' w →
  (_validate_dataframe df' = Returned () df' [] ∨
   _validate_dataframe df' = Raised ValueError df' []) ∧
  (doubling_fits df → _validate_dataframe df' = Returned () df' []).
Proof.
  rewrite !validate_run. intros H.
  destruct (validate_returned _ _ _ H) as (Ht & Hd & Hdc & Hshape).
  assert (validate_outcome df = diff_check df → df' = df →
          validate_outcome df' = Returned () df' []) as Hsame.
  { intros Hv ->. by rewrite Hv. }
  unfold doubling_fits.
  destruct (dict_get (df_columns df) TIME_PSEUDOCOLUMN) as [cells|] eqn:Hc.
  2:{ destruct Hshape as [-> ->]. rewrite H. auto. }
  destruct Hshape as (Hall & Hneg & Hshape).
  destruct (has_odd_time cells) eqn:Hodd.
  2:{ destruct Hshape as [-> ->]. rewrite H. auto. }
  destruct Hshape as [-> ->].
  set (dtype := df_dtype df TIME_PSEUDOCOLUMN).
  assert (validate_outcome (double_times df cells)
          = if has_negative_time (column_double dtype cells)
            then Raised ValueError (double_times df cells) []
            else Returned () (double_times df cells) []) as Hrun.
  { unfold validate_outcome at 1.
    rewrite !(column_ok_double df cells _ Hc), Ht, Hd. cbn [andb negb].
    unfold double_times at 1, df_setitem. cbn [df_columns].
    rewrite dict_get_set_eq. fold dtype.
    unfold negative_test, odd_test.
    rewrite !series_any_ints by (by rewrite no_missing_double).
    fold (has_negative_time (column_double dtype cells)).
    fold (has_odd_time (column_double dtype cells)).
    rewrite odd_double.
    destruct (has_negative_time (column_double dtype cells)); [done|].
    cbn [guard]. exact Hdc. }
  rewrite Hrun.
  split; [destruct (has_negative_time (column_double dtype cells)); auto|].
  intros Hfits. specialize (Hfits eq_refl).
  replace (has_negative_time (column_double dtype cells)) with false; [done|].
  symmetry. apply not_true_is_false.
  unfold has_negative_time. rewrite column_double_ints, existsb_fmap.
  intros (z & Hz%list_elem_of_In & Hlt%Z.ltb_lt)%existsb_exists.
  rewrite Forall_forall in Hfits. fold dtype in Hfits.
  rewrite (Hfits z Hz) in Hlt.
  unfold has_negative_time in Hneg. apply not_true_iff_false in Hneg.
  apply Hneg, existsb_exists. exists z.
  split; [by apply list_elem_of_In|]. apply Z.ltb_lt. lia.
Qed.

Lemma X10_validation_idempotent_witness :
  _validate_dataframe ex_df_odd
    = Returned () ex_df_doubled [StreamGenerator.msg_doubled] ∧
  _validate_dataframe ex_df_doubled = Returned () ex_df_doubled [].
Proof.
  assert (_validate_dataframe ex_df_odd
          = Returned () ex_df_doubled [StreamGenerator.msg_doubled]) as H
    by (vm_compute; reflexivity).
  split; [exact H|].
  apply (proj2 (X10_validation_idempotent ex_df_odd ex_df_doubled _ H)).
  apply (bool_decide_unpack _). vm_compute. exact I.
Defined.

(** X11.  Whatever the outcome, [_validate_dataframe] leaves the index,
    the order of the columns and every column other than [__time__] as
    they were; its only warning is that of the doubling, and without it
    the dataframe is unchanged altogether. *)
Theorem X11_validation_frame (df : DataFrame) :
  let r := _validate_dataframe df in
  df_index (res_state r) = df_index df ∧
  dict_keys (df_columns (res_state r)) = dict_keys (df_columns df) ∧
  (∀ c, c ≠ TIME_PSEUDOCOLUMN →
        dict_get (df_columns (res_state r)) c = dict_get (df_columns df) c) ∧
  (res_warnings r = [] ∨ res_warnings r = [StreamGenerator.msg_doubled]) ∧
  (res_warnings r = [] → res_state r = df).
Proof.
  intros r. subst r. rewrite validate_run. unfold validate_outcome.
  destruct (negb _); [by auto 10|].
  destruct (dict_get (df_columns df) TIME_PSEUDOCOLUMN) as [cells|] eqn:Hc.
  2:{ destruct (diff_check_state df) as [-> ->]. by auto 10. }
  destruct (negative_test cells) as [e|[]]; [by auto 10..|]. cbn [guard].
  destruct (odd_test cells) as [e|[]]; [by auto 10| |].
  2:{ destruct (diff_check_state df) as [-> ->]. by auto 10. }
  destruct (diff_check_state (double_times df cells)) as [Hs Hw].
  assert (∀ r : Res DataFrame unit,
            res_state (with_warning StreamGenerator.msg_doubled r) = res_state r ∧
            res_warnings (with_warning StreamGenerator.msg_doubled r)
            = StreamGenerator.msg_doubled :: res_warnings r) as Hww
    by (by intros []).
  destruct (Hww (diff_check (double_times df cells))) as [-> ->].
  rewrite Hs, Hw. split_and!; [done| | |by right|done].
  - unfold double_times, df_setitem. cbn [df_columns]. rewrite gdict_keys_set.
    unfold dict_contains. rewrite bool_decide_eq_true_2; [done|].
    apply gdict_get_keys. by rewrite Hc.
  - intros c Hne. unfold double_times, df_setitem. cbn [df_columns].
    by rewrite dict_get_set_ne.
Qed.

Lemma X11_validation_frame_witness :
  dict_get (df_columns (res_state (_validate_dataframe ex_df_odd))) "v"
  = Some [VInt 5; VInt 6].
Proof.
  refine (proj1 (proj2 (proj2 (X11_validation_frame ex_df_odd))) "v"%string _).
  discriminate.
Defined.

(** X12.  In a dataframe that [_validate_dataframe] has accepted every
    cell of the column [__time__] is an even integer and every cell of
    the column [__diff__] is 1 or -1.  No time is negative when the
    doubling, if there was one, stayed within the dtype of the column;
    a double that does not fit wraps around and may come out negative. *)
Theorem X12_validated_columns (df df' : DataFrame) (w : list string) :
  _validate_dataframe df = Returned () df' w →
  (∀ cells, dict_get (df_columns df') TIME_PSEUDOCOLUMN = Some cells →
     Forall (λ v, ∃ z, v = VInt z ∧ z `mod` 2 = 0) cells) ∧
  (doubling_fits df →
   ∀ cells, dict_get (df_columns df') TIME_PSEUDOCOLUMN = Some cells →
     Forall (λ v, ∃ z, v = VInt z ∧ 0 ≤ z) cells) ∧
  (∀ cells, dict_get (df_columns df') DIFF_PSEUDOCOLUMN = Some cells →
     Forall (λ v, v = VInt 1 ∨ v = VInt (-1)) cells).
Proof.
  rewrite validate_run. intros H.
  destruct (validate_returned _ _ _ H) as (Ht & Hd & Hdc & Hshape).
  assert (∀ cells, dict_get (df_columns df') DIFF_PSEUDOCOLUMN = Some cells →
                   Forall (λ v, v = VInt 1 ∨ v = VInt (-1)) cells) as Hdiff.
  { intros cells Hc. unfold diff_check, diff_test in Hdc. rewrite Hc in Hdc.
    destruct (series_any _) as [e|[]] eqn:E; [done..|].
    destruct (series_any_false _ _ E) as [Hall Hex].
    apply Forall_forall. intros v Hv.
    destruct (no_missing_elem_of cells v Hall Hv) as (z & -> & Hz).
    destruct (decide (z = 1)) as [->|]; [by left|].
    destruct (decide (z = -1)) as [->|]; [by right|].
    apply not_true_iff_false in Hex. exfalso. apply Hex, existsb_exists.
    exists z. split; [by apply list_elem_of_In|].
    apply andb_true_iff. split; apply negb_true_iff, Z.eqb_neq; done. }
  unfold doubling_fits.
  destruct (dict_get (df_columns df) TIME_PSEUDOCOLUMN) as [cells|] eqn:Hc.
  2:{ destruct Hshape as [-> ->]. rewrite Hc. done. }
  destruct Hshape as (Hall & Hneg & Hshape).
  assert (∀ z, z ∈ column_ints cells → 0 ≤ z) as Hpos.
  { intros z Hz. destruct (decide (0 ≤ z)); [done|]. exfalso.
    unfold has_negative_time in Hneg. apply not_true_iff_false in Hneg.
    apply Hneg, existsb_exists.
    exists z. split; [by apply list_elem_of_In|]. apply Z.ltb_lt. lia. }
  destruct (has_odd_time cells) eqn:Hodd.
  - destruct Hshape as [-> ->].
    set (dtype := df_dtype df TIME_PSEUDOCOLUMN).
    assert (dict_get (df_columns (double_times df cells)) TIME_PSEUDOCOLUMN
            = Some (column_double dtype cells)) as Hget
      by apply dict_get_set_eq.
    assert (∀ v, v ∈ column_double dtype cells →
                 ∃ z, z ∈ column_ints cells ∧ v = VInt (wrap dtype (2 * z)))
      as Hcells.
    { intros v Hv.
      destruct (no_missing_elem_of (column_double dtype cells) v) as (y & -> & Hy);
        [by rewrite no_missing_double|done|].
      rewrite column_double_ints in Hy.
      apply list_elem_of_fmap in Hy as (z & -> & Hz). eauto. }
    split_and!; [| |done].
    + intros cells' Hc'. rewrite Hget in Hc'. injection Hc' as <-.
      apply Forall_forall. intros v (z & _ & ->)%Hcells.
      eexists. split; [done|]. apply wrap_double_even.
    + intros Hfits cells' Hc'. rewrite Hget in Hc'. injection Hc' as <-.
      specialize (Hfits eq_refl). rewrite Forall_forall in Hfits.
      apply Forall_forall. intros v (z & Hz & ->)%Hcells.
      eexists. split; [done|]. fold dtype in Hfits. rewrite (Hfits z Hz).
      specialize (Hpos z Hz). lia.
  - destruct Hshape as [-> ->]. rewrite Hc.
    split_and!; [| |done].
    + intros cells' [= <-]. apply Forall_forall. intros v Hv.
      destruct (no_missing_elem_of cells v Hall Hv) as (z & -> & Hz).
      exists z. split; [done|].
      destruct (decide (z `mod` 2 = 0)); [done|]. exfalso.
      unfold has_odd_time in Hodd. apply not_true_iff_false in Hodd.
      apply Hodd, existsb_exists.
      exists z. split; [by apply list_elem_of_In|]. apply Z.eqb_eq.
      pose proof (Z.mod_pos_bound z 2). lia.
    + intros _ cells' [= <-]. apply Forall_forall. intros v Hv.
      destruct (no_missing_elem_of cells v Hall Hv) as (z & -> & Hz).
      exists z. auto.
Qed.

Lemma X12_validated_columns_witness :
  Forall (λ v, ∃ z, v = VInt z ∧ 0 ≤ z) [VInt 2; VInt 8].
Proof.
  assert (_validate_dataframe ex_df_odd
          = Returned () ex_df_doubled [StreamGenerator.msg_doubled]) as H
    by (vm_compute; reflexivity).
  refine (proj1 (proj2 (X12_validated_columns ex_df_odd ex_df_doubled _ H))
                _ [VInt 2; VInt 8] eq_refl).
  apply (bool_decide_unpack _). vm_compute. exact I.
Defined.

Section static_more.
Context (fingerprint : FingerprintArg → Z).
Context (schema_from_pandas : DataFrame → option (list string) → list string → Schema).

(** X13.  A static [table_from_pandas] that raises leaves the graph as
    it was: nothing is entered into the cache of static tables. *)
Theorem X13_failed_build_leaves_graph id_from unsafe_trusted_ids schema
    (df : DataFrame) (g : Graph) :
  let r := table_from_pandas fingerprint schema_from_pandas
             id_from unsafe_trusted_ids schema (df, g) in
  raises r = true → (res_state r).2 = g.
Proof.
  intros r. subst r. rewrite static_run. unfold static_outcome.
  repeat case_match; simpl; done.
Qed.

(** X14.  The two argument errors of the static [table_from_pandas],
    [id_from] given together with a schema and a schema that does not
    list the ordinary columns of the dataframe in their order, are
    raised before the dataframe is validated: [ValueError] with the
    dataframe not changed, no warning and the graph as it was. *)
Theorem X14_argument_errors_first id_from unsafe_trusted_ids schema
    (df : DataFrame) (g : Graph) :
  (is_Some id_from ∧ is_Some schema) ∨
  (∃ sch, schema = Some sch ∧
          filter (λ column, column ∉ PANDAS_PSEUDOCOLUMNS)
                 (dict_keys (df_columns df)) ≠ sch) →
  table_from_pandas fingerprint schema_from_pandas
    id_from unsafe_trusted_ids schema (df, g)
  = Raised ValueError (df, g) [].
Proof.
  intros H. rewrite static_run. unfold static_outcome.
  case_bool_decide as Hboth; [done|].
  destruct H as [H|(sch & -> & Hne)]; [done|].
  unfold schema_check. by rewrite bool_decide_eq_true_2.
Qed.

(** X15.  The static [table_from_pandas] never replaces or removes an
    entry of the cache of static tables, whatever its outcome. *)
Theorem X15_cache_only_grows id_from unsafe_trusted_ids schema
    (df : DataFrame) (g : Graph) (key : Z) (t : Table) :
  static_tables_cache g !! key = Some t →
  static_tables_cache
    (res_state (table_from_pandas fingerprint schema_from_pandas
                  id_from unsafe_trusted_ids schema (df, g))).2 !! key
  = Some t.
Proof.
  intros Hk. rewrite static_run. unfold static_outcome.
  destruct (bool_decide _); [done|].
  destruct (schema_check _ _ _ _); [|done].
  destruct (validate_outcome df) as [[] df' w|]; [|done].
  destruct (identity_frame df' id_from) as [ids|]; [|done]. cbv zeta.
  destruct (static_tables_cache g !! cache_key fingerprint ids unsafe_trusted_ids)
    eqn:E; simpl; [done|].
  rewrite lookup_insert_ne; [done|]. intros <-. congruence.
Qed.

(** X16.  A static [table_from_pandas] that returns a table has
    validated the dataframe: its warnings are those of the validation,
    the caller's dataframe is the validated one, and the table was built
    from that dataframe with the trust flag given and with the schema
    given or, without one, the schema inferred from the dataframe as it
    was before the validation. *)
Theorem X16_table_built_from_validated id_from unsafe_trusted_ids schema
    (df df' : DataFrame) (g g' : Graph) (t : Table) (w : list string) :
  table_from_pandas fingerprint schema_from_pandas
    id_from unsafe_trusted_ids schema (df, g) = Returned t (df', g') w →
  _validate_dataframe df = Returned () df' w ∧
  table_data t = df' ∧
  table_trusted t = unsafe_trusted_ids ∧
  table_schema t
  = match schema with
    | Some schema => schema
    | None => schema_from_pandas df id_from PANDAS_PSEUDOCOLUMNS
    end.
Proof.
  intros Hrun.
  destruct (CacheFacts.static_returned fingerprint schema_from_pandas
              id_from unsafe_trusted_ids schema df df' g g' t w Hrun)
    as (sch & ids & _ & Hsch & Hval & _ & Hcache).
  rewrite validate_run.
  assert (sch = match schema with
                | Some schema => schema
                | None => schema_from_pandas df id_from PANDAS_PSEUDOCOLUMNS
                end) as <-.
  { unfold schema_check in Hsch. destruct schema as [schema|]; [|congruence].
    case_bool_decide; congruence. }
  destruct (static_tables_cache g !! _); destruct Hcache as [-> _]; done.
Qed.
End static_more.

Lemma X13_failed_build_leaves_graph_witness :
  (res_state (ex_static (ex_df_bad_diff, ex_graph_cached))).2 = ex_graph_cached.
Proof.
  apply (X13_failed_build_leaves_graph ex_fingerprint ex_schema_from_pandas
           None false None ex_df_bad_diff ex_graph_cached).
  vm_compute. reflexivity.
Defined.

Lemma X14_argument_errors_first_witness :
  table_from_pandas ex_fingerprint ex_schema_from_pandas
    None false (Some ["u"]%string) (ex_df_odd, ex_graph)
  = Raised ValueError (ex_df_odd, ex_graph) [].
Proof.
  apply (X14_argument_errors_first ex_fingerprint ex_schema_from_pandas
           None false (Some ["u"]%string) ex_df_odd ex_graph).
  right. exists ["u"]%string. split; [reflexivity|].
  vm_compute. discriminate.
Defined.

Lemma X15_cache_only_grows_witness :
  static_tables_cache (res_state (ex_static (ex_df_plain, ex_graph_cached))).2
    !! 7 = Some ex_cached_table.
Proof.
  apply (X15_cache_only_grows ex_fingerprint ex_schema_from_pandas
           None false None ex_df_plain ex_graph_cached 7 ex_cached_table).
  reflexivity.
Defined.

Lemma X16_table_built_from_validated_witness :
  ∃ t, returned (ex_static (ex_df_odd, ex_graph)) = Some t ∧
       table_trusted t = false.
Proof.
  assert (raises (ex_static (ex_df_odd, ex_graph)) = false) as Hok
    by (vm_compute; reflexivity).
  destruct (raises_false _ Hok) as [t Hrun]. exists t.
  split; [exact (f_equal returned Hrun)|].
  exact (proj1 (proj2 (proj2 (X16_table_built_from_validated
                                ex_fingerprint ex_schema_from_pandas
                                None false None _ _ _ _ _ _ Hrun)))).
Defined.

End StaticMore.

(** ** More on printing *)

Module PrintMore.
Import PrintFacts.

Lemma string_length_app (s1 s2 : string) :
  String.length (s1 +:+ s2) = (String.length s1 + String.length s2)%nat.
Proof. induction s1 as [|c s1 IH]; [done|]. simpl. by rewrite IH. Qed.

Lemma substring_length (n : nat) (s : string) :
  String.length (String.substring 0 n s) = (n `min` String.length s)%nat.
Proof.
  revert s. induction n as [|n IH]; intros [|c s]; simpl; try done.
  by rewrite IH.
Qed.

Lemma is_space_whitespace (c : ascii) :
  is_whitespace c = false → Ascii.is_space c = false.
Proof. by destruct c as [[] [] [] [] [] [] [] []]. Qed.

Lemma drop_spaces_head (l : list ascii) (c : ascii) :
  head (drop_spaces l) = Some c → Ascii.is_space c = false.
Proof.
  induction l as [|a l IH]; [done|]. cbn [drop_spaces].
  destruct (is_whitespace a) eqn:E; [done|]. intros [= <-].
  by apply is_space_whitespace.
Qed.

Lemma string_rstrip_last (s : string) (c : ascii) :
  last (String.list_ascii_of_string (string_rstrip s)) = Some c →
  Ascii.is_space c = false.
Proof.
  unfold string_rstrip. rewrite list_ascii_of_string_of_list_ascii, last_reverse.
  apply drop_spaces_head.
Qed.

Section printing_more.
Context (py_str : Value → string).
Context (py_eq py_lt : Value → Value → exn + bool).
Context (squash_updates : list CapturedRow → dict Pointer (list Value)).

Lemma print_rows_lines columns include_id short_pointers n_rows
    (rows : list OutputRow) lines :
  print_rows py_str columns include_id short_pointers n_rows rows = inr lines →
  length lines
  = S (match n_rows with
       | None => length rows
       | Some n => n `min` length rows
       end) ∧
  Forall (λ line, ∀ c, last (String.list_ascii_of_string line) = Some c →
                       Ascii.is_space c = false) lines.
Proof.
  unfold print_rows. cbv zeta. destruct (max_lens _) as [e|lens]; [done|].
  intros Heq%(inj inr). subst lines. split.
  - rewrite length_fmap. unfold format_data. cbn [length].
    rewrite length_fmap. f_equal. destruct n_rows; [|done].
    apply length_take.
  - apply Forall_fmap, Forall_forall. intros row _ c.
    apply string_rstrip_last.
Qed.

(** X17.  [_compute_and_print_internal] prints nothing for a table
    without columns whose identifiers are hidden; otherwise, when it
    returns, what it has printed is what [print_rows] makes of a
    rearrangement of the rows of the output: the sort loses and
    duplicates no row, and there is the header and one line for each
    row, of the first [n_rows] rows when a limit is given. *)
Theorem X17_lines_printed (captured : list CapturedRow)
    (table_columns : list string) (squash include_id short_pointers : bool)
    (n_rows : option nat) (lines : list string) :
  _compute_and_print_internal py_str py_eq py_lt squash_updates
    captured table_columns squash include_id short_pointers n_rows = inr lines →
  let columns := shown_columns table_columns squash in
  let output_data := output_rows squash_updates captured squash in
  if bool_decide (columns = []) && negb include_id then lines = []
  else
    ∃ rows,
      rows ≡ₚ output_data ∧
      print_rows py_str columns include_id short_pointers n_rows rows
        = inr lines ∧
      length lines = S (match n_rows with
                        | None => length output_data
                        | Some m => m `min` length output_data
                        end).
Proof.
  intros H columns output_data. unfold _compute_and_print_internal in H.
  fold columns output_data in H.
  destruct (bool_decide (columns = []) && negb include_id); [by simplify_eq|].
  destruct (try_sorted _ _ _ _) as [e|rows] eqn:Hs; [done|].
  apply try_sorted_perm in Hs. exists rows. split; [done|]. split; [done|].
  apply print_rows_lines in H as [-> _].
  by rewrite (Permutation_length Hs).
Qed.

(** X18.  No line printed ends in white space. *)
Theorem X18_no_trailing_space (captured : list CapturedRow)
    (table_columns : list string) (squash include_id short_pointers : bool)
    (n_rows : option nat) (lines : list string) :
  _compute_and_print_internal py_str py_eq py_lt squash_updates
    captured table_columns squash include_id short_pointers n_rows = inr lines →
  Forall (λ line, ∀ c, last (String.list_ascii_of_string line) = Some c →
                       Ascii.is_space c = false) lines.
Proof.
  intros H. unfold _compute_and_print_internal in H.
  destruct (_ && _); [by simplify_eq|].
  destruct (try_sorted _ _ _ _) as [e|rows]; [done|].
  by apply print_rows_lines in H as [_ H].
Qed.

(** X19.  [compute_and_print_update_stream] never takes the silent way
    out, also for a table without columns whose identifiers are hidden:
    when it returns, what it has printed is what [print_rows] makes,
    under the columns of the table followed by [__time__] and
    [__diff__], of a rearrangement of the updates captured, each with
    its time and diff appended to its values; there is the header and
    one line for each update, of the first [n_rows] when a limit is
    given. *)
Theorem X19_update_stream_lines (captured : list CapturedRow)
    (table_columns : list string) (include_id short_pointers : bool)
    (n_rows : option nat) (lines : list string) :
  compute_and_print_update_stream py_str py_eq py_lt squash_updates
    captured table_columns include_id short_pointers n_rows = inr lines →
  ∃ rows : list OutputRow,
    rows ≡ₚ (λ row, (row_key row,
                     row_values row ++ [VInt (row_time row); VInt (row_diff row)]))
              <$> captured ∧
    print_rows py_str (table_columns ++ [TIME_PSEUDOCOLUMN; DIFF_PSEUDOCOLUMN])
      include_id short_pointers n_rows rows = inr lines ∧
    length lines = S (match n_rows with
                      | None => length captured
                      | Some m => m `min` length captured
                      end).
Proof.
  intros H. unfold compute_and_print_update_stream in H.
  unfold _compute_and_print_internal in H.
  rewrite bool_decide_eq_false_2 in H
    by (unfold shown_columns; by destruct table_columns).
  cbn [andb] in H.
  destruct (try_sorted _ _ _ _) as [e|rows] eqn:Hs; [done|].
  apply try_sorted_perm in Hs. exists rows. split; [done|]. split; [done|].
  apply print_rows_lines in H as [-> _].
  rewrite (Permutation_length Hs). unfold output_rows.
  by rewrite length_fmap.
Qed.

(** X20.  In the keys the sort compares, a row whose first value is
    [None] is smaller than a row whose first value is another one, and
    the sort puts it first whichever of the two arrived first, as long
    as [==] between [None] and the other value is false; [<] between
    them is never consulted.  When that [==] raises, as it does for an
    array, so do the comparison of the keys and the sort. *)
Theorem X20_none_sorts_first (k1 k2 : Pointer) (v : Value) (a b : list Value) :
  let inner := match v with VDict _ | VJson _ => VStr (py_str v) | _ => v end in
  let key := _key py_str true in
  let none_row : OutputRow := (k1, VNone :: a) in
  let other_row : OutputRow := (k2, v :: b) in
  v ≠ VNone →
  (py_eq VNone inner = inr false →
   tuple_lt py_eq py_lt (key none_row) (key other_row) = inr true ∧
   sorted py_eq py_lt key [other_row; none_row] = inr [none_row; other_row]) ∧
  (py_eq inner VNone = inr false →
   tuple_lt py_eq py_lt (key other_row) (key none_row) = inr false ∧
   sorted py_eq py_lt key [none_row; other_row] = inr [none_row; other_row]) ∧
  (∀ e, py_eq VNone inner = inl e →
   tuple_lt py_eq py_lt (key none_row) (key other_row) = inl e ∧
   sorted py_eq py_lt key [other_row; none_row] = inl e).
Proof.
  intros inner key none_row other_row Hv.
  assert (key none_row
          = Wrapper VNone :: (_NoneAwareComparisonWrapper py_str <$> a)) as Hkn
    by done.
  assert (key other_row
          = Wrapper inner :: (_NoneAwareComparisonWrapper py_str <$> b)) as Hko
    by (subst key inner; by destruct v).
  assert (inner ≠ VNone) as Hinner by (subst inner; by destruct v).
  assert (item_lt py_lt (Wrapper VNone) (Wrapper inner) = inr true) as Hlt1.
  { cbn [item_lt]. by rewrite bool_decide_eq_false_2. }
  assert (item_lt py_lt (Wrapper inner) (Wrapper VNone) = inr false) as Hlt2.
  { cbn [item_lt]. by destruct inner. }
  unfold sorted. cbn [foldl sorted_insert]. rewrite Hkn, Hko.
  cbn [tuple_lt item_eq]. split_and!.
  - intros ->. by rewrite Hlt1.
  - intros ->. by rewrite Hlt2.
  - intros e ->. done.
Qed.

(** X21.  A pointer printed with [short_pointers] takes at most 11
    characters: one of more than 8 characters is cut to its first 8
    followed by three dots, a shorter one is printed in full, as every
    pointer is without [short_pointers]. *)
Theorem X21_short_pointer (none : string) (p : Pointer) :
  let s := py_str (VPointer p) in
  (String.length (_format py_str none true (VPointer p)) ≤ 11)%nat ∧
  ((8 < String.length s)%nat →
   _format py_str none true (VPointer p) = String.substring 0 8 s +:+ "...") ∧
  ((String.length s ≤ 8)%nat → _format py_str none true (VPointer p) = s) ∧
  _format py_str none false (VPointer p) = s.
Proof.
  intros s. subst s. cbn [_format]. case_bool_decide as Hlen.
  - split_and!; [|done|lia|done].
    rewrite string_length_app, substring_length.
    change (String.length "...") with 3%nat. lia.
  - split_and!; [lia|lia|done|done].
Qed.

Lemma sorted_insert_sorted (key : OutputRow → list KeyItem) (l acc : list OutputRow) x :
  MoreSpec.key_ordered py_eq py_lt key l →
  x ∈ l → acc ⊆ l → StronglySorted (MoreSpec.key_le py_eq py_lt key) acc →
  ∃ r, sorted_insert py_eq py_lt key x acc = inr r ∧
       StronglySorted (MoreSpec.key_le py_eq py_lt key) r.
Proof.
  intros (Htotal & Hasym & Htrans) Hx Hacc Hs.
  induction Hs as [|y acc Hs IH Hy]; cbn [sorted_insert].
  - exists [x]. split; [done|]. repeat constructor.
  - assert (y ∈ l) as Hyl by (apply Hacc; by left).
    assert (acc ⊆ l) as Hacc' by (intros z Hz; apply Hacc; by right).
    destruct (Htotal x y Hx Hyl) as [[] Hlt]; rewrite Hlt.
    + exists (x :: y :: acc). split; [done|].
      constructor; [by constructor|].
      pose proof (Hasym x y Hx Hyl Hlt) as Hxy.
      constructor; [done|]. rewrite Forall_forall in Hy |- *.
      intros z Hz. eapply (Htrans x y z); eauto.
    + destruct (IH Hacc') as (r & Hr & Hsr). rewrite Hr.
      exists (y :: r). split; [done|]. constructor; [done|].
      rewrite (sorted_insert_perm py_eq py_lt key x acc r Hr). by constructor.
Qed.

Lemma sorted_sorted (key : OutputRow → list KeyItem) (l : list OutputRow) :
  MoreSpec.key_ordered py_eq py_lt key l →
  ∃ l', sorted py_eq py_lt key l = inr l' ∧ l' ≡ₚ l ∧
        StronglySorted (MoreSpec.key_le py_eq py_lt key) l'.
Proof.
  intros Hord. unfold sorted.
  assert (∀ rest acc : list OutputRow,
            rest ⊆ l → acc ⊆ l →
            StronglySorted (MoreSpec.key_le py_eq py_lt key) acc →
            ∃ l', foldl (λ acc x,
                           match acc with
                           | inl e => inl e
                           | inr done => sorted_insert py_eq py_lt key x done
                           end) (inr acc) rest = inr l' ∧
                  StronglySorted (MoreSpec.key_le py_eq py_lt key) l') as H.
  { induction rest as [|x rest IH]; intros acc Hrest Hacc Hs; cbn [foldl].
    - by exists acc.
    - destruct (sorted_insert_sorted key l acc x Hord) as (r & Hr & Hsr);
        [apply Hrest; by left|done|done|].
      rewrite Hr. apply IH; [intros z Hz; apply Hrest; by right| |done].
      intros z Hz. rewrite (sorted_insert_perm py_eq py_lt key x acc r Hr) in Hz.
      apply elem_of_cons in Hz as [->|Hz]; [apply Hrest; by left|by apply Hacc]. }
  destruct (H l []) as (l' & Hl' & Hs); [done|by intros ? ?%elem_of_nil|constructor|].
  exists l'. split_and!; [done| |done]. by apply (sorted_perm py_eq py_lt key).
Qed.

(** X22.  When the comparison of the keys is an order on the rows to
    print (it raises for no two of them, is never true both ways, and
    "not after" is transitive), the rows are printed in ascending order
    of their keys: what is printed is what [print_rows] makes of a
    rearrangement of the rows in which no row comes after a later one. *)
Theorem X22_rows_printed_in_order (captured : list CapturedRow)
    (table_columns : list string) (squash include_id short_pointers : bool)
    (n_rows : option nat) :
  let columns := shown_columns table_columns squash in
  let output_data := output_rows squash_updates captured squash in
  MoreSpec.key_ordered py_eq py_lt (_key py_str squash) output_data →
  ∃ rows,
    rows ≡ₚ output_data ∧
    StronglySorted (MoreSpec.key_le py_eq py_lt (_key py_str squash)) rows ∧
    _compute_and_print_internal py_str py_eq py_lt squash_updates
      captured table_columns squash include_id short_pointers n_rows
    = if bool_decide (columns = []) && negb include_id then inr []
      else print_rows py_str columns include_id short_pointers n_rows rows.
Proof.
  intros columns output_data Hord.
  destruct (sorted_sorted (_key py_str squash) output_data Hord)
    as (rows & Hsorted & Hperm & Hs).
  exists rows. split_and!; [done|done|].
  unfold _compute_and_print_internal. fold columns output_data.
  destruct (_ && _); [done|]. unfold try_sorted. by rewrite Hsorted.
Qed.
End printing_more.

Lemma X17_lines_printed_witness :
  ∃ lines, ex_print ex_captured_ints ["a"]%string true true true (Some 1%nat)
           = inr lines ∧ length lines = 2%nat.
Proof.
  eexists. split; [vm_compute; reflexivity|].
  destruct (X17_lines_printed python_str python_eq python_lt squash_updates_model
              ex_captured_ints ["a"]%string true true true (Some 1%nat) _ eq_refl)
    as (rows & _ & _ & Hlen).
  exact Hlen.
Defined.

Lemma X18_no_trailing_space_witness :
  ∃ lines, ex_print ex_captured_none ["a"]%string true true true None = inr lines ∧
           Forall (λ line, ∀ c, last (String.list_ascii_of_string line) = Some c →
                                Ascii.is_space c = false) lines.
Proof.
  eexists. split; [vm_compute; reflexivity|].
  exact (X18_no_trailing_space python_str python_eq python_lt squash_updates_model
           ex_captured_none ["a"]%string true true true None _ eq_refl).
Defined.

Lemma X19_update_stream_lines_witness :
  ∃ lines, compute_and_print_update_stream python_str python_eq python_lt
             squash_updates_model ex_captured_updates [] false true None
           = inr lines ∧ length lines = 4%nat.
Proof.
  eexists. split; [vm_compute; reflexivity|].
  destruct (X19_update_stream_lines python_str python_eq python_lt
              squash_updates_model ex_captured_updates [] false true None
              _ eq_refl) as (rows & _ & _ & Hlen).
  exact Hlen.
Defined.

Lemma X20_none_sorts_first_witness :
  sorted python_eq python_lt (_key python_str true)
    [(k2, [VInt 5]); (k1, [VNone])]
  = inr [(k1, [VNone]); (k2, [VInt 5])].
Proof.
  refine (proj2 (proj1 (X20_none_sorts_first python_str python_eq python_lt
                          k1 k2 (VInt 5) [] [] _) _)).
  - discriminate.
  - reflexivity.
Defined.

Lemma X21_short_pointer_witness :
  _format python_str "" true (VPointer 12345678901%N)
  = String.substring 0 8 (python_str (VPointer 12345678901%N)) +:+ "...".
Proof.
  refine (proj1 (proj2 (X21_short_pointer python_str "" 12345678901%N)) _).
  apply (bool_decide_unpack _). vm_compute. exact I.
Defined.

Lemma X22_rows_printed_in_order_witness :
  ∃ rows,
    StronglySorted
      (MoreSpec.key_le python_eq python_lt (_key python_str true)) rows ∧
    ex_print ex_captured_ints ["a"]%string true false true None
    = print_rows python_str ["a"]%string false true None rows.
Proof.
  destruct (X22_rows_printed_in_order python_str python_eq python_lt
              squash_updates_model ex_captured_ints ["a"]%string true false true
              None) as (rows & _ & Hs & Hrun).
  - assert (output_rows squash_updates_model ex_captured_ints true
            = [(k2, [VInt 9]); (k1, [VInt 5])]) as -> by (vm_compute; reflexivity).
    unfold MoreSpec.key_ordered, MoreSpec.key_le. split_and!; intros;
      repeat match goal with
             | H : _ ∈ _ :: _ |- _ => apply elem_of_cons in H as [->|H]
             | H : _ ∈ [] |- _ => by apply elem_of_nil in H
             end;
      try (by eexists); try done.
  - exists rows. split; [exact Hs|exact Hrun].
Defined.

End PrintMore.

(** ** [table_to_dicts] *)

Module DictsMore.
Import FrameMore.

Lemma map_e_inr {B C} (f : B → exn + C) (g : B → C) (l : list B) :
  (∀ x, x ∈ l → f x = inr (g x)) → map_e f l = inr (g <$> l).
Proof.
  induction l as [|x l IH]; intros Hf; [done|]. cbn [map_e].
  rewrite (Hf x) by (by left). rewrite IH by (intros; apply Hf; by right).
  done.
Qed.

Lemma dict_of_items_nodup {K V} `{EqDecision K} (items : list (K * V)) :
  NoDup items.*1 → dict_of_items items = items.
Proof.
  unfold dict_of_items.
  induction items as [|[k v] items IH] using rev_ind; [done|].
  rewrite fmap_app. intros (Hnd & Hk & _)%NoDup_app.
  rewrite foldl_app. cbn [foldl fst snd]. rewrite IH by done.
  apply StreamMore.dict_set_fresh. intros Hin. apply (Hk k Hin). by left.
Qed.

Lemma gdict_get_elem_of {K V} `{EqDecision K} (d : dict K V) k v :
  dict_wf d → (k, v) ∈ d → dict_get d k = Some v.
Proof.
  unfold dict_wf, dict_keys. induction d as [|[k' v'] d IH]; simpl.
  - by intros _ ?%elem_of_nil.
  - intros [Hk Hd]%NoDup_cons [E|Hin]%elem_of_cons.
    + simplify_eq. by rewrite decide_True.
    + rewrite decide_False; [by apply IH|]. intros ->. apply Hk.
      apply list_elem_of_fmap. by exists (k, v).
Qed.

Lemma dict_get_tabulate {K V} `{EqDecision K} (h : K → V) (keys : list K) k :
  k ∈ keys → dict_get ((λ k, (k, h k)) <$> keys) k = Some (h k).
Proof.
  induction keys as [|k' keys IH]; [by intros ?%elem_of_nil|].
  csimpl. destruct (decide (k' = k)) as [->|Hne]; [done|].
  intros [?|Hin]%elem_of_cons; [congruence|]. by apply IH.
Qed.

Section dicts.
Context (squash_updates : list CapturedRow → dict Pointer (list Value)).

(** X23.  When the rows that [api.squash_updates] gives are as wide as
    the table, [table_to_dicts] returns their keys in their order, and
    for every column of the table, in the order of the table, a
    dictionary over those same keys that holds for each key the value of
    the row at the position of the column. *)
Theorem X23_table_to_dicts (captured : list CapturedRow)
    (table_columns : list string) :
  let output_data := squash_updates captured in
  dict_wf output_data → NoDup table_columns →
  Forall (λ kv : Pointer * list Value, length table_columns ≤ length kv.2)%nat
         output_data →
  ∃ columns,
    table_to_dicts squash_updates captured table_columns
      = inr (dict_keys output_data, columns) ∧
    dict_keys columns = table_columns ∧
    ∀ i name, table_columns !! i = Some name →
      ∃ column, dict_get columns name = Some column ∧
                dict_keys column = dict_keys output_data ∧
                ∀ key values, dict_get output_data key = Some values →
                              dict_get column key = values !! i.
Proof.
  intros out Hwf Hnd Hwide.
  set (cell := λ (i : nat) (key : Pointer),
         default VNone (default [] (dict_get out key) !! i)).
  set (col := λ i : nat, (λ key, (key, cell i key)) <$> dict_keys out).
  assert (∀ i, dict_keys (col i) = dict_keys out) as Hkeys.
  { intros i. unfold col, dict_keys.
    induction (out.*1) as [|k l IH]; [done|]. csimpl. by rewrite IH. }
  assert (∀ i key values, (i < length table_columns)%nat →
            dict_get out key = Some values →
            ∃ v, values !! i = Some v ∧ cell i key = v) as Hcell.
  { intros i key values Hi Hget. unfold cell. rewrite Hget. simpl.
    rewrite Forall_forall in Hwide.
    specialize (Hwide (key, values) (BuildFacts.dict_get_Some_elem_of _ _ _ Hget)).
    simpl in Hwide. destruct (lookup_lt_is_Some_2 values i) as [v Hv]; [lia|].
    exists v. by rewrite Hv. }
  assert (∀ i, (i < length table_columns)%nat →
            column_of out (dict_keys out) i = inr (col i)) as Hcol.
  { intros i Hi. unfold column_of.
    rewrite (map_e_inr _ (λ key, (key, cell i key))).
    - fold (col i). rewrite dict_of_items_nodup; [done|].
      fold (dict_keys (col i)). by rewrite Hkeys.
    - intros key Hin. apply gdict_get_keys in Hin as [values Hget].
      rewrite Hget. destruct (Hcell i key values Hi Hget) as (v & -> & ->).
      done. }
  set (items := imap (λ i name, (name, col i)) table_columns).
  assert (items.*1 = table_columns) as Hnames.
  { subst items. apply list_eq. intros i.
    rewrite list_lookup_fmap, list_lookup_imap.
    by destruct (table_columns !! i). }
  exists items. unfold table_to_dicts. fold out. cbv zeta.
  rewrite (map_e_inr _ (λ ix : nat * string, (ix.2, col ix.1))).
  2:{ intros [i name] (j & name' & [= -> ->] & Hj)%elem_of_lookup_imap_1.
      rewrite Hcol by (by eapply lookup_lt_Some). done. }
  assert ((λ ix : nat * string, (ix.2, col ix.1))
            <$> imap (λ index name, (index, name)) table_columns = items) as ->.
  { subst items. apply list_eq. intros i.
    rewrite list_lookup_fmap, !list_lookup_imap.
    by destruct (table_columns !! i). }
  assert (NoDup items.*1) as Hitems by (by rewrite Hnames).
  rewrite (dict_of_items_nodup items Hitems).
  split_and!; [done|done|].
  intros i name Hi. exists (col i). split_and!.
  - apply gdict_get_elem_of; [exact Hitems|].
    subst items. apply elem_of_lookup_imap. by exists i, name.
  - apply Hkeys.
  - intros key values Hget.
    destruct (Hcell i key values (lookup_lt_Some _ _ _ Hi) Hget) as (v & -> & <-).
    unfold col. rewrite (dict_get_tabulate (cell i)); [done|].
    apply gdict_get_keys. by rewrite Hget.
Qed.
End dicts.

Lemma X23_table_to_dicts_witness :
  ∃ columns,
    table_to_dicts squash_updates_model ex_captured_ints ["a"]%string
      = inr (dict_keys (squash_updates_model ex_captured_ints), columns) ∧
    dict_keys columns = ["a"]%string.
Proof.
  destruct (X23_table_to_dicts squash_updates_model ex_captured_ints ["a"]%string)
    as (columns & Hrun & Hkeys & _).
  - apply (bool_decide_unpack _). vm_compute. exact I.
  - apply (bool_decide_unpack _). vm_compute. exact I.
  - apply (bool_decide_unpack _). vm_compute. exact I.
  - by exists columns.
Defined.

End DictsMore.
